(** * Text analysis tutorial notebook: a shallow embedding

  The notebook [text_analysis_tutorial_unrun.ipynb] is a linear script of
  cells that call into spaCy, gensim, scikit-learn and Keras.

  Part I embeds it.  The Python written in the notebook itself (the
  token filter, the character alphabet, the sliding windows,
  [create_model], [train], [generate_text]) becomes Rocq functions.  A
  session is a record holding the global variables, the file system, the
  objects created so far and what the cells have shown; a cell is a
  function on sessions that may raise.  The libraries are interfaces
  (type classes): their floating-point data and numerical algorithms stay
  abstract, while the glue that Keras and scikit-learn document
  ([fit], [ModelCheckpoint], [fit_transform] against [transform],
  pipelines) is written out.

  Part II states and proves the properties, one module per topic. *)

From Stdlib Require Import Ascii String ZArith QArith.
From stdpp Require Import gmap strings list fin_maps sorting pretty.

Open Scope string_scope.
Open Scope list_scope.
Open Scope stdpp_scope.
Open Scope nat_scope.

(** * Part I: the embedding *)

(** ** Python exceptions, results and effects *)

Module Py.

Inductive exn : Type :=
| KeyError
| IndexError
| ValueError
| TypeError
| NameError (name : string)
| FileNotFoundError (path : string)
| OSError (path : string)
| LibraryError (what : string).

Inductive result (A : Type) : Type :=
| Ok (a : A)
| Raise (e : exn).
Arguments Ok {A} a.
Arguments Raise {A} e.

#[global] Instance result_ret : MRet result := λ A a, Ok a.
#[global] Instance result_bind : MBind result := λ A B k r,
  match r with
  | Ok a => k a
  | Raise e => Raise e
  end.
#[global] Instance result_fmap : FMap result := λ A B f r,
  match r with
  | Ok a => Ok (f a)
  | Raise e => Raise e
  end.

(** Code that mutates a state [S] and may raise: the state at the moment
    of the exception is kept, as Python keeps the mutations done so far. *)
Definition Eff (S A : Type) : Type := S → result A * S.

#[global] Instance Eff_ret S : MRet (Eff S) := λ A a s, (Ok a, s).
#[global] Instance Eff_bind S : MBind (Eff S) := λ A B k c s,
  match c s with
  | (Ok a, s') => k a s'
  | (Raise e, s') => (Raise e, s')
  end.

Definition get {S} : Eff S S := λ s, (Ok s, s).
Definition modify {S} (f : S → S) : Eff S () := λ s, (Ok (), f s).
Definition raise {S A} (e : exn) : Eff S A := λ s, (Raise e, s).
Definition lift {S A} (r : result A) : Eff S A := λ s, (r, s).

(** [for a in l: body] *)
Fixpoint for_ {S A} (l : list A) (body : A → Eff S ()) : Eff S () :=
  match l with
  | [] => mret ()
  | a :: l' => body a ;; for_ l' body
  end.

(** A [for] loop that also updates local variables [st]. *)
Fixpoint foldlM {S A St} (body : St → A → Eff S St) (st : St) (l : list A)
    : Eff S St :=
  match l with
  | [] => mret st
  | a :: l' => st' ← body st a; foldlM body st' l'
  end.

(** [l[i]] on a list or string, [0 <= i]: [IndexError] out of range. *)
Definition index {A} (l : list A) (i : nat) : result A :=
  match l !! i with
  | Some a => Ok a
  | None => Raise IndexError
  end.

(** [l[i : j]] for [0 <= i]: never raises, clips at the end. *)
Definition slice {A} (l : list A) (i j : nat) : list A :=
  take (j - i) (drop i l).

(** [d[k]] on a dict: [KeyError] when the key is absent. *)
Definition getitem `{Countable K} {V} (d : gmap K V) (k : K) : result V :=
  match d !! k with
  | Some v => Ok v
  | None => Raise KeyError
  end.

(** [dict(pairs)]: the pairs are inserted in order, a later pair
    overwrites an earlier one with the same key. *)
Definition dict `{Countable K} {V} (pairs : list (K * V)) : gmap K V :=
  foldl (λ d kv, <[kv.1 := kv.2]> d) ∅ pairs.

(** [enumerate(l)] *)
Definition enumerate {A} (l : list A) : list (nat * A) :=
  imap (λ i a, (i, a)) l.

(** [range(n)] for an integer [n]; empty when [n <= 0]. *)
Definition range (n : Z) : list nat := seq 0 (Z.to_nat n).

(** [int(x)] on a number: truncation towards zero. *)
Definition int (x : Q) : Z := Z.quot (Qnum x) (Z.pos (Qden x)).

(** The characters of a [str], and [''.join] of single characters. *)
Definition chars_of_str (s : string) : list ascii := list_ascii_of_string s.
Definition join (cs : list ascii) : string := string_of_list_ascii cs.

(** ['\n'] and the double quote *)
Definition newline : string := String "010"%char EmptyString.
Definition dquote : string := String "034"%char EmptyString.

(** Keyword arguments: the values that the notebook passes or defaults
    to are strings and numbers. *)
Inductive kwval : Type :=
| KStr (s : string)
| KNum (q : Q).

(** [kwargs.get(key, default)] *)
Definition kwargs_get (kwargs : gmap string kwval) (key : string)
    (dflt : kwval) : kwval :=
  default dflt (kwargs !! key).

(** [v == s] for a string literal [s]. *)
Definition eq_str (v : kwval) (s : string) : bool :=
  match v with
  | KStr s' => String.eqb s' s
  | KNum _ => false
  end.

End Py.

(** ** Cell 26: per-document token lists *)

Module Corpus.
Import Py.

(** The attributes of a spaCy token that the loop reads. *)
Record token : Type := Token {
  text : string;
  lemma_ : string;
  is_stop : bool;
  is_punct : bool;
  like_num : bool
}.

(** [w.text != '\n' and not w.is_stop and not w.is_punct and not w.like_num] *)
Definition passes (w : token) : bool :=
  negb (String.eqb (text w) newline) && negb (is_stop w)
  && negb (is_punct w) && negb (like_num w).

(** The loop state: the variables [texts] and [article]. *)
Record state : Type := State {
  texts : list (list string);
  article : list string
}.

(** One iteration of [for w in doc]: the two [if] statements in order. *)
Definition body (st : state) (w : token) : state :=
  let st1 :=
    if passes w
    then State (texts st) (article st ++ [lemma_ w])
    else st in
  if String.eqb (text w) newline
  then State (texts st1 ++ [article st1]) []
  else st1.

(** [texts, article = [], []] followed by the loop. *)
Definition run (doc : list token) : state :=
  foldl body (State [] []) doc.

Definition build_texts (doc : list token) : list (list string) :=
  texts (run doc).

End Corpus.

(** ** Cells 55 and 56: the character alphabet and the sliding windows *)

Module Chars.
Import Py.

(** Single-character strings compare by code point. *)
Definition char_le (a b : ascii) : Prop := (N_of_ascii a <= N_of_ascii b)%N.

#[global] Instance char_le_dec : RelDecision char_le.
Proof. intros a b. unfold char_le. apply _. Defined.

(** [chars = sorted(list(set(data)))] *)
Definition chars (data : string) : list ascii :=
  merge_sort char_le
    (elements (list_to_set (chars_of_str data) : gset ascii)).

(** [char_to_int = dict((c, i) for i, c in enumerate(chars))] *)
Definition char_to_int (chars : list ascii) : gmap ascii nat :=
  dict ((λ ic : nat * ascii, (ic.2, ic.1)) <$> enumerate chars).

(** [ix_to_char = dict((i, c) for i, c in enumerate(chars))] *)
Definition ix_to_char (chars : list ascii) : gmap nat ascii :=
  dict ((λ ic : nat * ascii, (ic.1, ic.2)) <$> enumerate chars).

(** [vocab_size = len(chars)] *)
Definition vocab_size (chars : list ascii) : nat := length chars.

(** [SEQ_LENGTH = 100] (cell 48) *)
Definition SEQ_LENGTH : nat := 100.

(** The variables that the loop of cell 56 assigns: the two lists it
    appends to and the loop variables [i], [seq_in] and [seq_out]. *)
Record vars : Type := Vars {
  list_X : list (list nat);
  list_Y : list nat;
  i : option nat;
  seq_in : option (list ascii);
  seq_out : option ascii
}.

Definition set_window (i : nat) (seq_in : list ascii) (st : vars) : vars :=
  Vars (list_X st) (list_Y st) (Some i) (Some seq_in) (seq_out st).
Definition set_seq_out (c : ascii) (st : vars) : vars :=
  Vars (list_X st) (list_Y st) (i st) (seq_in st) (Some c).
Definition append_X (xs : list nat) (st : vars) : vars :=
  Vars (list_X st ++ [xs]) (list_Y st) (i st) (seq_in st) (seq_out st).
Definition append_Y (y : nat) (st : vars) : vars :=
  Vars (list_X st) (list_Y st ++ [y]) (i st) (seq_in st) (seq_out st).

(** The body of [for i in range(0, len(data) - SEQ_LENGTH, 1)]. *)
Definition window (seq_length : nat) (data : list ascii)
    (c2i : gmap ascii nat) (i : nat) : Eff vars () :=
  modify (set_window i (slice data i (i + seq_length))) ;;
  seq_out ← lift (index data (i + seq_length));
  modify (set_seq_out seq_out) ;;
  xs ← lift (mapM (getitem c2i) (slice data i (i + seq_length)));
  modify (append_X xs) ;;
  y ← lift (getitem c2i seq_out);
  modify (append_Y y).

(** [list_X = []; list_Y = []] followed by the loop; [st] holds the
    earlier bindings of the loop variables, if any. *)
Definition build_examples (seq_length : nat) (data : string)
    (c2i : gmap ascii nat) (st : vars) : result () * vars :=
  let cs := chars_of_str data in
  for_ (range (Z.of_nat (length cs) - Z.of_nat seq_length))
       (window seq_length cs c2i)
       (Vars [] [] (i st) (seq_in st) (seq_out st)).

Definition no_vars : vars := Vars [] [] None None None.

End Chars.

(** ** Cell 51: [create_model] *)

Module Layers.
Import Py.

(** The Keras layers that the notebook instantiates, with the arguments
    it passes to them. *)
Inductive layer : Type :=
| LSTM (units : Z) (input_shape : option (Z * Z)) (return_sequences : bool)
| Dropout (rate : kwval)
| Dense (units : Z) (activation : kwval).

Definition is_lstm (l : layer) : bool :=
  match l with LSTM _ _ _ => true | _ => false end.
Definition is_dropout (l : layer) : bool :=
  match l with Dropout _ => true | _ => false end.
Definition is_dense (l : layer) : bool :=
  match l with Dense _ _ => true | _ => false end.

(** What Keras accepts.  [model.add(C(...))] runs the constructor of
    the layer class and then [add]; either raises when Keras rejects the
    arguments (units that are not positive, a rate or an activation it
    does not know, a shape that does not fit the layers already there).
    [build model l] is the outcome of the two for the layer [l] on a
    model that holds the layers [model]. *)
Class KerasLayers : Type := {
  build : list layer → layer → result ()
}.

Section create_model.
Context `{KerasLayers}.

(** [model.add(l)] on a [Sequential], the state being its stack of
    layers: the layer is appended unless Keras raises. *)
Definition add (l : layer) : Eff (list layer) () := λ model,
  match build model l with
  | Ok _ => (Ok (), model ++ [l])
  | Raise e => (Raise e, model)
  end.

Definition add_if (b : bool) (l : layer) : Eff (list layer) () :=
  if b then add l else mret ().

(** [create_model(n_layers, input_shape, hidden_dim, n_out, **kwargs)];
    [input_shape] is the shape of a three-dimensional array.  The
    result is the stack of the model returned, or the exception of the
    first layer that Keras rejects. *)
Definition create_model (n_layers : Z) (input_shape : Z * Z * Z)
    (hidden_dim : Q) (n_out : Z) (kwargs : gmap string kwval)
    : result (list layer) :=
  let drop := kwargs_get kwargs "drop_rate" (KNum (2 # 10)) in
  let activ := kwargs_get kwargs "activation" (KStr "softmax") in
  let mode := kwargs_get kwargs "mode" (KStr "train") in
  let hidden_dim := int hidden_dim in
  let shape := Some (input_shape.1.2, input_shape.2) in
  let body : Eff (list layer) () :=
    (if (n_layers =? 1)%Z then
       add (LSTM hidden_dim shape false) ;;
       add_if (eq_str mode "train") (Dropout drop)
     else
       add (LSTM hidden_dim shape true) ;;
       add_if (eq_str mode "train") (Dropout drop) ;;
       for_ (range (n_layers - 2)) (λ _,
         add (LSTM hidden_dim None true) ;;
         add_if (eq_str mode "train") (Dropout drop)) ;;
       add (LSTM hidden_dim None false)) ;;
    add (Dense n_out activ) in
  match body [] with
  | (Ok _, model) => Ok model
  | (Raise e, _) => Raise e
  end.

End create_model.

End Layers.

(** ** The libraries

    What the notebook calls but does not define.  Floating-point data
    (feature matrices, tensors, losses, weights) stays abstract. *)

Module Libs.
Import Py Corpus Layers.

(** spaCy: a loaded pipeline [nlp] and the documents it produces. *)
Class SpacyLib : Type := {
  language : Type;
  doc_ : Type;
  span : Type;
  (** [nlp.vocab[s].is_stop = True] *)
  mark_stop : language → string → language;
  (** [nlp(text)] *)
  annotate : language → string → result doc_;
  (** iterating over a document *)
  tokens : doc_ → list token;
  ents : doc_ → list span;
  noun_chunks : doc_ → list span;
  (** what the display and [print] cells show *)
  show_doc : doc_ → string;
  pos_line : doc_ → nat → string;
  ner_line : doc_ → nat → string;
  dep_line : doc_ → nat → string;
  ent_line : span → string;
  chunk_line : span → string;
  render : doc_ → string → string
}.

(** gensim: phrase detection, dictionary, bag of words, LDA. *)
Class GensimLib : Type := {
  phrases : Type;
  dictionary : Type;
  bow : Type;
  lda : Type;
  (** [gensim.__path__[0]] *)
  gensim_path : string;
  Phrases : list (list string) → phrases;
  (** [bigram[line]] *)
  phrases_apply : phrases → list string → list string;
  Dictionary : list (list string) → dictionary;
  doc2bow : dictionary → list string → bow;
  show_bow : bow → string;
  (** [LdaModel(corpus=..., num_topics=..., id2word=...)] without
      [random_state]: it draws from NumPy's global random source.  Given
      the values to come, the model and how many of them it consumed. *)
  LdaModel : list bow → nat → dictionary → (nat → nat) → result lda * nat;
  show_topics : lda → string
}.

(** scikit-learn: the fitted state of each estimator and the functions
    that compute and use it. *)
Class SklearnLib : Type := {
  matrix : Type;
  tfidf_params : Type;
  svd_params : Type;
  gnb_params : Type;
  svc_params : Type;
  tfidf_fit : list string → result tfidf_params;
  tfidf_transform : tfidf_params → list string → result matrix;
  (** fitting a [TruncatedSVD] built without [random_state]: it draws
      from NumPy's global random source.  Given the values to come, the
      fitted state and how many of them it consumed. *)
  svd_fit : nat → matrix → (nat → nat) → result svd_params * nat;
  svd_transform : svd_params → matrix → result matrix;
  normalize : matrix → matrix;
  gnb_fit : matrix → list nat → result gnb_params;
  gnb_predict : gnb_params → matrix → result (list nat);
  (** fitting an [SVC] built without [random_state] draws its seed from
      the same source *)
  svc_fit : matrix → list nat → (nat → nat) → result svc_params * nat;
  svc_predict : svc_params → matrix → result (list nat)
}.

(** Keras and the NumPy arithmetic on floating-point arrays. *)
Class KerasLib : Type := {
  keras_layers :: KerasLayers;
  (** the losses and optimizers that [model.compile] knows, among them
      the two that the notebook names *)
  loss_known : kwval → bool;
  optimizer_known : kwval → bool;
  crossentropy_known : loss_known (KStr "categorical_crossentropy") = true;
  adam_known : optimizer_known (KStr "adam") = true;
  weights : Type;
  tensor : Type;
  loss : Type;
  (** the parameters of a freshly built model *)
  init_weights : list layer → weights;
  (** [x / float(vocab_size)] on an integer array of shape (n, len, 1) *)
  scaled : list (list nat) → nat → tensor;
  (** one epoch of [model.fit]: the new parameters and the epoch's loss *)
  fit_epoch : list layer → weights → tensor → list (list nat) → nat
              → result (weights * loss);
  (** [model.predict(x)] *)
  forward : list layer → weights → tensor → result tensor;
  (** [np.argmax] *)
  argmax : tensor → nat;
  (** [np.less], [np.Inf] and [-np.Inf] *)
  less : loss → loss → bool;
  inf : loss;
  neg_inf : loss;
  (** ['{:.4f}'.format] *)
  format_4f : loss → string
}.

End Libs.

(** ** The state of a notebook session *)

Module World.
Import Py Corpus Layers Libs.

Section world.
Context `{SpacyLib, GensimLib, SklearnLib, KerasLib}.

(** The 20 newsgroups data as returned by [fetch_20newsgroups]. *)
Record dataset : Type := Dataset {
  data : list string;
  target : list nat;
  target_names : list string
}.

(** A Keras [Sequential]: its layers, its parameters, and the loss and
    optimizer given to [compile]. *)
Record model : Type := Model {
  layers : list layer;
  params : weights;
  compiled : option (kwval * kwval)
}.

(** scikit-learn estimators; a pipeline refers to its steps. *)
Inductive estimator : Type :=
| TfidfVectorizer (fitted : option tfidf_params)
| TruncatedSVD (n_components : nat) (fitted : option svd_params)
| Normalizer
| Pipeline (steps : list nat)
| GaussianNB (fitted : option gnb_params)
| SVC (fitted : option svc_params).

(** The functions defined by the notebook. *)
Inductive function : Type :=
| create_functional_model_def
| create_model_def
| train_def
| generate_text_def.

(** The values bound to the notebook's global variables. *)
Inductive value : Type :=
| VInt (n : Z)
| VStr (s : string)
| VStrs (l : list string)
| VChars (l : list ascii)
| VIds (l : list nat)
| VSeqs (l : list (list nat))
| VArray (shape : list nat) (rows : list (list nat))
| VTexts (l : list (list string))
| VCharToInt (d : gmap ascii nat)
| VIxToChar (d : gmap nat ascii)
| VToken (t : token)
| VLexeme (s : string)
| VSpan (s : span)
| VNlp (n : language)
| VDoc (d : doc_)
| VPhrases (b : phrases)
| VDictionary (d : dictionary)
| VBow (b : bow)
| VCorpus (c : list bow)
| VLda (m : lda)
| VDataset (d : dataset)
| VMatrix (m : matrix)
| VEstimator (loc : nat)
| VModel (loc : nat)
| VFunction (f : function).

Inductive file : Type :=
| Text (s : string)
| Hdf5 (ws : weights).

(** What a cell shows or does to the outside, in order: text printed,
    a value printed or displayed, markup rendered, a warning shown, a
    file opened for reading, parameters loaded from or saved to a file,
    the end of a training epoch, a call of [model.predict]. *)
Inductive event : Type :=
| Print (s : string)
| Show (v : value)
| Html (s : string)
| Warned (msg : string)
| Opened (path : string)
| Loaded (path : string)
| Saved (path : string)
| EpochEnd (epoch : nat) (l : loss)
| Predicted_on (x : tensor).

Record world : Type := World {
  (** the global variables *)
  globals : gmap string value;
  (** the file system, and whether a file may be created at a path *)
  files : gmap string file;
  writable : string → bool;
  (** the Keras models and scikit-learn estimators that exist *)
  models : gmap nat model;
  estimators : gmap nat estimator;
  (** NumPy's global random source: an arbitrary stream and the number
      of values drawn so far *)
  rng : nat → nat;
  rng_pos : nat;
  (** the installed spaCy models *)
  spacy_data : gmap string language;
  (** what [fetch_20newsgroups] downloads, by subset and categories *)
  newsgroups : string → list string → result dataset;
  (** [True] once [warnings.filterwarnings('ignore')] has run *)
  warnings_ignored : bool;
  (** the events of the running cell *)
  out : list event
}.

Definition with_globals (f : gmap string value → gmap string value)
    (w : world) : world :=
  World (f (globals w)) (files w) (writable w) (models w) (estimators w)
        (rng w) (rng_pos w) (spacy_data w) (newsgroups w)
        (warnings_ignored w) (out w).
Definition with_files (f : gmap string file → gmap string file)
    (w : world) : world :=
  World (globals w) (f (files w)) (writable w) (models w) (estimators w)
        (rng w) (rng_pos w) (spacy_data w) (newsgroups w)
        (warnings_ignored w) (out w).
Definition with_models (f : gmap nat model → gmap nat model)
    (w : world) : world :=
  World (globals w) (files w) (writable w) (f (models w)) (estimators w)
        (rng w) (rng_pos w) (spacy_data w) (newsgroups w)
        (warnings_ignored w) (out w).
Definition with_estimators (f : gmap nat estimator → gmap nat estimator)
    (w : world) : world :=
  World (globals w) (files w) (writable w) (models w) (f (estimators w))
        (rng w) (rng_pos w) (spacy_data w) (newsgroups w)
        (warnings_ignored w) (out w).
Definition with_rng_pos (n : nat) (w : world) : world :=
  World (globals w) (files w) (writable w) (models w) (estimators w)
        (rng w) n (spacy_data w) (newsgroups w)
        (warnings_ignored w) (out w).
Definition with_warnings_ignored (b : bool) (w : world) : world :=
  World (globals w) (files w) (writable w) (models w) (estimators w)
        (rng w) (rng_pos w) (spacy_data w) (newsgroups w) b (out w).
Definition with_out (f : list event → list event) (w : world) : world :=
  World (globals w) (files w) (writable w) (models w) (estimators w)
        (rng w) (rng_pos w) (spacy_data w) (newsgroups w)
        (warnings_ignored w) (f (out w)).

(** *** Global variables *)

(** Reading a global: [NameError] when it is not bound. *)
Definition getvar (x : string) : Eff world value := λ w,
  match globals w !! x with
  | Some v => (Ok v, w)
  | None => (Raise (NameError x), w)
  end.

Definition setvar (x : string) (v : value) : Eff world () :=
  modify (with_globals <[x := v]>).

(** Binds [x] when the loop that assigns it ran at least once. *)
Definition setvar_opt (x : string) (v : option value) : Eff world () :=
  match v with
  | Some v => setvar x v
  | None => mret ()
  end.

Definition as_str (v : value) : result string :=
  match v with VStr s => Ok s | _ => Raise TypeError end.
Definition as_nat (v : value) : result nat :=
  match v with
  | VInt n => if decide (0 ≤ n)%Z then Ok (Z.to_nat n) else Raise ValueError
  | _ => Raise TypeError
  end.
Definition as_strs (v : value) : result (list string) :=
  match v with VStrs l => Ok l | _ => Raise TypeError end.
Definition as_chars (v : value) : result (list ascii) :=
  match v with VChars l => Ok l | _ => Raise TypeError end.
Definition as_ids (v : value) : result (list nat) :=
  match v with VIds l => Ok l | _ => Raise TypeError end.
Definition as_seqs (v : value) : result (list (list nat)) :=
  match v with VSeqs l => Ok l | _ => Raise TypeError end.
Definition as_array (v : value) : result (list nat * list (list nat)) :=
  match v with VArray sh rows => Ok (sh, rows) | _ => Raise TypeError end.
Definition as_texts (v : value) : result (list (list string)) :=
  match v with VTexts l => Ok l | _ => Raise TypeError end.
Definition as_char_to_int (v : value) : result (gmap ascii nat) :=
  match v with VCharToInt d => Ok d | _ => Raise TypeError end.
Definition as_ix_to_char (v : value) : result (gmap nat ascii) :=
  match v with VIxToChar d => Ok d | _ => Raise TypeError end.
Definition as_nlp (v : value) : result language :=
  match v with VNlp n => Ok n | _ => Raise TypeError end.
Definition as_doc (v : value) : result doc_ :=
  match v with VDoc d => Ok d | _ => Raise TypeError end.
Definition as_phrases (v : value) : result phrases :=
  match v with VPhrases b => Ok b | _ => Raise TypeError end.
Definition as_dictionary (v : value) : result dictionary :=
  match v with VDictionary d => Ok d | _ => Raise TypeError end.
Definition as_corpus (v : value) : result (list bow) :=
  match v with VCorpus c => Ok c | _ => Raise TypeError end.
Definition as_lda (v : value) : result lda :=
  match v with VLda m => Ok m | _ => Raise TypeError end.
Definition as_dataset (v : value) : result dataset :=
  match v with VDataset d => Ok d | _ => Raise TypeError end.
Definition as_matrix (v : value) : result matrix :=
  match v with VMatrix m => Ok m | _ => Raise TypeError end.
Definition as_estimator (v : value) : result nat :=
  match v with VEstimator l => Ok l | _ => Raise TypeError end.
Definition as_model (v : value) : result nat :=
  match v with VModel l => Ok l | _ => Raise TypeError end.

(** [x] read as a value of the expected kind. *)
Definition read {A} (x : string) (cast : value → result A) : Eff world A :=
  v ← getvar x; lift (cast v).

(** Calling a function of the notebook by its name. *)
Definition defined (x : string) (f : function) : Eff world () :=
  v ← getvar x;
  match v with
  | VFunction g =>
      match f, g with
      | create_functional_model_def, create_functional_model_def
      | create_model_def, create_model_def
      | train_def, train_def
      | generate_text_def, generate_text_def => mret ()
      | _, _ => raise TypeError
      end
  | _ => raise TypeError
  end.

(** *** Output *)

Definition emit (e : event) : Eff world () := modify (with_out (λ o, o ++ [e])).
Definition print (s : string) : Eff world () := emit (Print s).
Definition show (v : value) : Eff world () := emit (Show v).

(** [warnings.warn]: shown unless warnings are ignored. *)
Definition warn (msg : string) : Eff world () := λ w,
  if warnings_ignored w then (Ok (), w) else emit (Warned msg) w.

(** *** Files *)

(** [open(path).read()] *)
Definition open_read (path : string) : Eff world string := λ w,
  match files w !! path with
  | Some (Text s) => (Ok s, with_out (λ o, o ++ [Opened path]) w)
  | Some (Hdf5 _) => (Raise (LibraryError "UnicodeDecodeError"), w)
  | None => (Raise (FileNotFoundError path), w)
  end.

(** Creating or overwriting the file at [path]. *)
Definition write_file (path : string) (f : file) : Eff world () := λ w,
  if writable w path
  then (Ok (), with_out (λ o, o ++ [Saved path]) (with_files <[path := f]> w))
  else (Raise (OSError path), w).

(** Reading the parameters stored in an HDF5 file. *)
Definition read_hdf5 (path : string) : Eff world weights := λ w,
  match files w !! path with
  | Some (Hdf5 ws) => (Ok ws, with_out (λ o, o ++ [Loaded path]) w)
  | Some (Text _) => (Raise (OSError path), w)
  | None => (Raise (FileNotFoundError path), w)
  end.

(** *** Objects *)

Definition new_model (m : model) : Eff world nat := λ w,
  let loc := fresh (dom (models w)) in
  (Ok loc, with_models <[loc := m]> w).
Definition get_model (loc : nat) : Eff world model := λ w,
  match models w !! loc with
  | Some m => (Ok m, w)
  | None => (Raise TypeError, w)
  end.
Definition put_model (loc : nat) (m : model) : Eff world () :=
  modify (with_models <[loc := m]>).

Definition new_estimator (e : estimator) : Eff world nat := λ w,
  let loc := fresh (dom (estimators w)) in
  (Ok loc, with_estimators <[loc := e]> w).
Definition get_estimator (loc : nat) : Eff world estimator := λ w,
  match estimators w !! loc with
  | Some e => (Ok e, w)
  | None => (Raise TypeError, w)
  end.
Definition put_estimator (loc : nat) (e : estimator) : Eff world () :=
  modify (with_estimators <[loc := e]>).

(** *** Randomness and external data *)

(** [np.random.randint(low, high)]: [ValueError] on an empty range,
    otherwise the next value of the random source, brought into
    [low .. high - 1]; a range of one value is answered without
    drawing. *)
Definition randint (low high : Z) : Eff world Z := λ w,
  if decide (low < high)%Z
  then (Ok (low + Z.of_nat (rng w (rng_pos w)) `mod` (high - low))%Z,
        if decide (high - low = 1)%Z then w
        else with_rng_pos (S (rng_pos w)) w)
  else (Raise ValueError, w).

(** A library call that draws from NumPy's global random source: [call]
    gets the values to come and gives its result and the number of
    values it consumed, by which the source advances even when the call
    raises. *)
Definition draw {A} (call : (nat → nat) → result A * nat) : Eff world A :=
  λ w,
    let r := call (λ k, rng w (rng_pos w + k)) in
    (r.1, with_rng_pos (rng_pos w + r.2) w).

(** [spacy.load(name)] *)
Definition spacy_load (name : string) : Eff world language := λ w,
  match spacy_data w !! name with
  | Some n => (Ok n, w)
  | None => (Raise (OSError name), w)
  end.

(** [fetch_20newsgroups(subset=..., categories=..., shuffle=True,
    random_state=42)]: the shuffle has its own seed.  The copy of the
    download that scikit-learn keeps on disk is not part of the
    session. *)
Definition fetch_20newsgroups (subset : string) (categories : list string)
    : Eff world dataset := λ w,
  (newsgroups w subset categories, w).

End world.
End World.

(** ** Keras: [compile], [fit], [ModelCheckpoint], and cells 52 and 54 *)

Module Keras.
Import Py Layers Libs World.

(** A path template such as ["w-{epoch:02d}-{loss:.4f}.hdf5"]. *)
Inductive piece : Type :=
| Lit (s : string)
| Epoch_02d
| Key_4f (key : string).

Inductive monitor_mode : Type := Min | Max.

(** ['{:02d}'.format(n)] *)
Definition format_02d (n : nat) : string :=
  let s := pretty n in
  if String.length s <? 2 then "0" +:+ s else s.

Section keras.
Context `{SpacyLib, GensimLib, SklearnLib, KerasLib}.

(** [template.format(epoch=epoch, **logs)] *)
Definition format_piece (epoch : nat) (logs : gmap string loss) (p : piece)
    : result string :=
  match p with
  | Lit s => Ok s
  | Epoch_02d => Ok (format_02d epoch)
  | Key_4f key => l ← getitem logs key; Ok (format_4f l)
  end.

Definition format (template : list piece) (epoch : nat)
    (logs : gmap string loss) : result string :=
  parts ← mapM (format_piece epoch logs) template;
  Ok (foldr String.append "" parts).

(** Keras' [ModelCheckpoint] callback as its documentation describes it,
    with the options that the notebook sets and the best value of the
    monitored quantity seen so far.  The progress messages of
    [verbose = 1] are not part of the model. *)
Record checkpoint : Type := Checkpoint {
  filepath : list piece;
  monitor : string;
  save_best_only : bool;
  mode : monitor_mode;
  best : loss
}.

(** [ModelCheckpoint(filepath, monitor=..., save_best_only=..., mode=...)] *)
Definition ModelCheckpoint (filepath : list piece) (monitor : string)
    (save_best_only : bool) (mode : monitor_mode) : checkpoint :=
  Checkpoint filepath monitor save_best_only mode
             (match mode with Min => inf | Max => neg_inf end).

Definition monitor_op (cb : checkpoint) (current best : loss) : bool :=
  match mode cb with
  | Min => less current best
  | Max => less best current
  end.

(** A new [Sequential] holding the layers [ls]. *)
Definition new_model_of (ls : list layer) : Eff world nat :=
  new_model (Model ls (init_weights ls) None).

(** [model.save(filepath, overwrite=True)] *)
Definition save (m : nat) (path : string) : Eff world () :=
  mdl ← get_model m;
  write_file path (Hdf5 (params mdl)).

(** [ModelCheckpoint.on_epoch_end(epoch, logs)]: returns the callback
    with its updated [best]. *)
Definition on_epoch_end (m : nat) (epoch : nat) (logs : gmap string loss)
    (cb : checkpoint) : Eff world checkpoint :=
  path ← lift (format (filepath cb) (epoch + 1) logs);
  if save_best_only cb then
    match logs !! monitor cb with
    | None =>
        warn "Can save best model only with the monitored quantity available, skipping." ;;
        mret cb
    | Some current =>
        if monitor_op cb current (best cb) then
          save m path ;;
          mret (Checkpoint (filepath cb) (monitor cb) (save_best_only cb)
                           (mode cb) current)
        else mret cb
    end
  else
    save m path ;; mret cb.

(** [model.compile(loss=..., optimizer=...)]: [ValueError] when Keras
    does not know the optimizer or the loss. *)
Definition compile (m : nat) (loss_name optimizer : kwval) : Eff world () :=
  mdl ← get_model m;
  if optimizer_known optimizer && loss_known loss_name then
    put_model m (Model (layers mdl) (params mdl) (Some (loss_name, optimizer)))
  else raise ValueError.

(** One epoch of [model.fit]: the parameters are updated, then every
    callback sees the epoch's loss. *)
Definition epoch_step (m : nat) (X : tensor) (Y : list (list nat))
    (batch_size : nat) (callbacks : list checkpoint) (epoch : nat)
    : Eff world (list checkpoint) :=
  mdl ← get_model m;
  r ← lift (fit_epoch (layers mdl) (params mdl) X Y batch_size);
  put_model m (Model (layers mdl) r.1 (compiled mdl)) ;;
  emit (EpochEnd epoch r.2) ;;
  mapM (on_epoch_end m epoch {["loss" := r.2]}) callbacks.

(** [model.fit(X, Y, epochs=..., batch_size=..., callbacks=...)] *)
Definition fit (m : nat) (X : tensor) (Y : list (list nat))
    (epochs batch_size : nat) (callbacks : list checkpoint) : Eff world () :=
  mdl ← get_model m;
  match compiled mdl with
  | None => raise (LibraryError "RuntimeError")
  | Some _ =>
      foldlM (epoch_step m X Y batch_size) callbacks
             (range (Z.of_nat epochs)) ;;
      mret ()
  end.

(** [model.load_weights(filename)] *)
Definition load_weights (m : nat) (filename : string) : Eff world () :=
  mdl ← get_model m;
  ws ← read_hdf5 filename;
  put_model m (Model (layers mdl) ws (compiled mdl)).

(** [model.predict(x, verbose=0)] *)
Definition predict (m : nat) (x : tensor) : Eff world tensor :=
  mdl ← get_model m;
  emit (Predicted_on x) ;;
  lift (forward (layers mdl) (params mdl) x).

(** Cell 52: [train(model, X, Y, n_epochs, b_size, vocab_size, **kwargs)] *)
Definition train (m : nat) (X Y : list (list nat))
    (n_epochs b_size vocab_size : nat) (kwargs : gmap string kwval)
    : Eff world () :=
  let loss_name := kwargs_get kwargs "loss" (KStr "categorical_crossentropy") in
  let opt := kwargs_get kwargs "optimizer" (KStr "adam") in
  compile m loss_name opt ;;
  let filepath := [Lit "Weights/weights-improvement-"; Epoch_02d; Lit "-";
                   Key_4f "loss"; Lit ".hdf5"] in
  let checkpoint := ModelCheckpoint filepath "loss" true Min in
  let callbacks_list := [checkpoint] in
  let X := scaled X vocab_size in
  fit m X Y n_epochs b_size callbacks_list.

(** The local variables of the prediction loop of [generate_text]. *)
Record sampling : Type := Sampling {
  pattern : list nat;
  output : list nat
}.

(** The body of [for i in range(250)]. *)
Definition predict_step (m : nat) (vocab_size : nat) (st : sampling)
    (i : nat) : Eff world sampling :=
  let x := scaled [pattern st] vocab_size in
  prediction ← predict m x;
  let index := argmax prediction in
  let result := index in
  let output := output st ++ [result] in
  let pattern := pattern st ++ [index] in
  let pattern := slice pattern 1 (length pattern) in
  mret (Sampling pattern output).

(** [print] of a double quote, the text and a double quote. *)
Definition print_quoted (text : string) : Eff world () :=
  print (dquote +:+ " " +:+ text +:+ " " +:+ dquote).

(** Cell 54: [generate_text(model, X, filename, ix_to_char, vocab_size)] *)
Definition generate_text (m : nat) (X : list (list nat)) (filename : string)
    (ix_to_char : gmap nat ascii) (vocab_size : nat) : Eff world () :=
  load_weights m filename ;;
  compile m (KStr "categorical_crossentropy") (KStr "adam") ;;
  start ← randint 0 (Z.of_nat (length X) - 1);
  pattern ← lift (index X (Z.to_nat start));
  print "Seed:" ;;
  seed ← lift (mapM (getitem ix_to_char) pattern);
  print_quoted (join seed) ;;
  st ← foldlM (predict_step m vocab_size) (Sampling pattern []) (range 250);
  print "Predictions" ;;
  text ← lift (mapM (getitem ix_to_char) (output st));
  print_quoted (join text).

End keras.
End Keras.

(** ** scikit-learn: estimators and pipelines *)

Module Sklearn.
Import Py Libs World.

Section sklearn.
Context `{SpacyLib, GensimLib, SklearnLib, KerasLib}.

Definition not_fitted : exn := LibraryError "NotFittedError".

(** [vectorizer.fit_transform(docs)]: fits, then transforms with what
    was fitted. *)
Definition vectorizer_fit_transform (loc : nat) (docs : list string)
    : Eff world matrix :=
  e ← get_estimator loc;
  match e with
  | TfidfVectorizer _ =>
      p ← lift (tfidf_fit docs);
      put_estimator loc (TfidfVectorizer (Some p)) ;;
      lift (tfidf_transform p docs)
  | _ => raise TypeError
  end.

(** [vectorizer.transform(docs)]: uses what was fitted before. *)
Definition vectorizer_transform (loc : nat) (docs : list string)
    : Eff world matrix :=
  e ← get_estimator loc;
  match e with
  | TfidfVectorizer (Some p) => lift (tfidf_transform p docs)
  | TfidfVectorizer None => raise not_fitted
  | _ => raise TypeError
  end.

(** [fit_transform] and [transform] of a single transformer. *)
Definition step_fit_transform (X : matrix) (loc : nat) : Eff world matrix :=
  e ← get_estimator loc;
  match e with
  | TruncatedSVD n _ =>
      p ← draw (svd_fit n X);
      put_estimator loc (TruncatedSVD n (Some p)) ;;
      lift (svd_transform p X)
  | Normalizer => mret (normalize X)
  | _ => raise TypeError
  end.

Definition step_transform (X : matrix) (loc : nat) : Eff world matrix :=
  e ← get_estimator loc;
  match e with
  | TruncatedSVD n (Some p) => lift (svd_transform p X)
  | TruncatedSVD n None => raise not_fitted
  | Normalizer => mret (normalize X)
  | _ => raise TypeError
  end.

(** On a pipeline, [fit_transform] fits and applies each step in turn
    and [transform] applies each step as fitted before. *)
Definition fit_transform (loc : nat) (X : matrix) : Eff world matrix :=
  e ← get_estimator loc;
  match e with
  | Pipeline steps => foldlM step_fit_transform X steps
  | _ => step_fit_transform X loc
  end.

Definition transform (loc : nat) (X : matrix) : Eff world matrix :=
  e ← get_estimator loc;
  match e with
  | Pipeline steps => foldlM step_transform X steps
  | _ => step_transform X loc
  end.

(** [clf.fit(X, y)] and [clf.predict(X)] *)
Definition classifier_fit (loc : nat) (X : matrix) (y : list nat)
    : Eff world () :=
  e ← get_estimator loc;
  match e with
  | GaussianNB _ =>
      p ← lift (gnb_fit X y); put_estimator loc (GaussianNB (Some p))
  | SVC _ =>
      p ← draw (svc_fit X y); put_estimator loc (SVC (Some p))
  | _ => raise TypeError
  end.

Definition classifier_predict (loc : nat) (X : matrix)
    : Eff world (list nat) :=
  e ← get_estimator loc;
  match e with
  | GaussianNB (Some p) => lift (gnb_predict p X)
  | SVC (Some p) => lift (svc_predict p X)
  | GaussianNB None | SVC None => raise not_fitted
  | _ => raise TypeError
  end.

End sklearn.
End Sklearn.

(** ** The cells of the notebook, in order *)

Module Notebook.
Import Py Corpus Chars Layers Libs World Keras Sklearn.

(** [os.sep] *)
Definition os_sep : string := "/".

(** [np.reshape(rows, (n, m, 1))] of a list of integer lists. *)
Definition reshape (rows : list (list nat)) (n m : nat)
    : result (list nat * list (list nat)) :=
  if decide (length rows = n ∧ Forall (λ r, length r = m) rows)
  then Ok ([n; m; 1], rows)
  else Raise ValueError.

(** [np_utils.to_categorical(y)]: one row per label, with a one in the
    column of the label; [max] of an empty array is a [ValueError]. *)
Definition to_categorical (y : list nat)
    : result (list nat * list (list nat)) :=
  match y with
  | [] => Raise ValueError
  | _ =>
      let num_classes := S (max_list y) in
      Ok ([length y; num_classes],
          (λ c, (λ j, if decide (j = c) then 1 else 0) <$> seq 0 num_classes)
            <$> y)
  end.

(** [shape[k]] *)
Definition dim (shape : list nat) (k : nat) : result Z :=
  Z.of_nat <$> index shape k.

Section cells.
Context `{SpacyLib, GensimLib, SklearnLib, KerasLib}.

Definition cell := Eff world ().

(** Imports bind module names only. *)
Definition cell_2 : cell := mret ().

Definition cell_3 : cell := modify (with_warnings_ignored true).

(** The path of the bundled corpus, as computed in cells 5 and 55. *)
Definition locate_corpus : cell :=
  setvar "test_data_dir"
    (VStr (String.concat os_sep [gensim_path; "test"; "test_data"])) ;;
  test_data_dir ← read "test_data_dir" as_str;
  setvar "lee_train_file"
    (VStr (test_data_dir +:+ os_sep +:+ "lee_background.cor")).

(** [open(lee_train_file).read()], after the two assignments. *)
Definition read_corpus : Eff world string :=
  locate_corpus ;;
  lee_train_file ← read "lee_train_file" as_str;
  open_read lee_train_file.

Definition cell_5 : cell :=
  text ← read_corpus;
  setvar "text" (VStr text).

Definition cell_7 : cell :=
  nlp ← spacy_load "en";
  setvar "nlp" (VNlp nlp).

Definition cell_9 : cell :=
  setvar "my_stop_words"
    (VStrs ["say"; "'s"; "Mr"; "be"; "said"; "says"; "saying"]) ;;
  my_stop_words ← read "my_stop_words" as_strs;
  for_ my_stop_words (λ stopword,
    setvar "stopword" (VStr stopword) ;;
    nlp ← read "nlp" as_nlp;
    stopword ← read "stopword" as_str;
    setvar "lexeme" (VLexeme stopword) ;;
    setvar "nlp" (VNlp (mark_stop nlp stopword))).

Definition cell_10 : cell :=
  nlp ← read "nlp" as_nlp;
  text ← read "text" as_str;
  doc ← lift (annotate nlp text);
  setvar "doc" (VDoc doc).

Definition cell_12 : cell := v ← getvar "doc"; show v.

Definition cell_14 : cell :=
  nlp ← read "nlp" as_nlp;
  sent ← lift (annotate nlp "Tom ran to the repair shop to fix his bicycle.");
  setvar "sent" (VDoc sent).

(** [for token in sent: print(...)] *)
Definition print_tokens (line : doc_ → nat → string) : cell :=
  sent ← read "sent" as_doc;
  for_ (enumerate (tokens sent)) (λ it,
    setvar "token" (VToken it.2) ;; print (line sent it.1)).

Definition cell_16 : cell := print_tokens pos_line.
Definition cell_18 : cell := print_tokens ner_line.

Definition cell_19 : cell :=
  sent ← read "sent" as_doc;
  for_ (ents sent) (λ ent, setvar "ent" (VSpan ent) ;; print (ent_line ent)).

Definition cell_20 : cell :=
  sent ← read "sent" as_doc; emit (Html (render sent "ent")).

Definition cell_22 : cell :=
  sent ← read "sent" as_doc;
  for_ (noun_chunks sent) (λ chunk,
    setvar "chunk" (VSpan chunk) ;; print (chunk_line chunk)).

Definition cell_23 : cell := print_tokens dep_line.

Definition cell_24 : cell :=
  sent ← read "sent" as_doc; emit (Html (render sent "dep")).

(** Cell 26: the loop is [Corpus.run]; afterwards [w] is the last token
    of the document, if it has one. *)
Definition cell_26 : cell :=
  setvar "texts" (VTexts []) ;;
  setvar "article" (VStrs []) ;;
  doc ← read "doc" as_doc;
  let st := Corpus.run (tokens doc) in
  setvar_opt "w" (VToken <$> last (tokens doc)) ;;
  setvar "article" (VStrs (article st)) ;;
  setvar "texts" (VTexts (texts st)).

Definition cell_27 : cell := v ← getvar "texts"; show v.

Definition cell_29 : cell :=
  texts ← read "texts" as_texts;
  setvar "bigram" (VPhrases (Phrases texts)).

Definition cell_30 : cell :=
  texts ← read "texts" as_texts;
  match texts with
  | [] => setvar "texts" (VTexts [])
  | _ =>
      bigram ← read "bigram" as_phrases;
      setvar "texts" (VTexts (phrases_apply bigram <$> texts))
  end.

Definition cell_31 : cell :=
  texts ← read "texts" as_texts;
  line ← lift (index texts 10);
  show (VStrs line).

Definition cell_32 : cell :=
  texts ← read "texts" as_texts;
  setvar "dictionary" (VDictionary (Dictionary texts)) ;;
  texts ← read "texts" as_texts;
  match texts with
  | [] => setvar "corpus" (VCorpus [])
  | _ =>
      dictionary ← read "dictionary" as_dictionary;
      setvar "corpus" (VCorpus (doc2bow dictionary <$> texts))
  end.

Definition cell_33 : cell :=
  corpus ← read "corpus" as_corpus;
  b ← lift (index corpus 100);
  show (VBow b).

Definition cell_35 : cell :=
  corpus ← read "corpus" as_corpus;
  dictionary ← read "dictionary" as_dictionary;
  ldamodel ← draw (LdaModel corpus 10 dictionary);
  setvar "ldamodel" (VLda ldamodel).

Definition cell_36 : cell :=
  ldamodel ← read "ldamodel" as_lda;
  show (VStr (show_topics ldamodel)).

Definition cell_39 : cell :=
  setvar "categories"
    (VStrs ["alt.atheism"; "talk.religion.misc"; "comp.graphics"; "sci.space"]).

Definition cell_40 : cell :=
  categories ← read "categories" as_strs;
  data_train ← fetch_20newsgroups "train" categories;
  setvar "data_train" (VDataset data_train) ;;
  setvar "n_components" (VInt 5) ;;
  data_train ← read "data_train" as_dataset;
  setvar "labels" (VIds (target data_train)) ;;
  labels ← read "labels" as_ids;
  setvar "true_k"
    (VInt (Z.of_nat (size (list_to_set labels : gset nat)))) ;;
  vectorizer ← new_estimator (TfidfVectorizer None);
  setvar "vectorizer" (VEstimator vectorizer) ;;
  vectorizer ← read "vectorizer" as_estimator;
  data_train ← read "data_train" as_dataset;
  X_train ← vectorizer_fit_transform vectorizer (data data_train);
  setvar "X_train" (VMatrix X_train) ;;
  n_components ← read "n_components" as_nat;
  svd ← new_estimator (TruncatedSVD n_components None);
  setvar "svd" (VEstimator svd) ;;
  normalizer ← new_estimator Normalizer;
  setvar "normalizer" (VEstimator normalizer) ;;
  svd ← read "svd" as_estimator;
  normalizer ← read "normalizer" as_estimator;
  lsa ← new_estimator (Pipeline [svd; normalizer]);
  setvar "lsa" (VEstimator lsa) ;;
  lsa ← read "lsa" as_estimator;
  X_train ← read "X_train" as_matrix;
  X_train ← fit_transform lsa X_train;
  setvar "X_train" (VMatrix X_train).

Definition cell_41 : cell :=
  categories ← read "categories" as_strs;
  data_test ← fetch_20newsgroups "test" categories;
  setvar "data_test" (VDataset data_test) ;;
  data_train ← read "data_train" as_dataset;
  setvar "target_names" (VStrs (target_names data_train)) ;;
  data_train ← read "data_train" as_dataset;
  data_test ← read "data_test" as_dataset;
  setvar "y_train" (VIds (target data_train)) ;;
  setvar "y_test" (VIds (target data_test)) ;;
  print "Extracting features from the test data using the same vectorizer" ;;
  vectorizer ← read "vectorizer" as_estimator;
  data_test ← read "data_test" as_dataset;
  X_test ← vectorizer_transform vectorizer (data data_test);
  setvar "X_test" (VMatrix X_test) ;;
  lsa ← read "lsa" as_estimator;
  X_test ← read "X_test" as_matrix;
  X_test ← fit_transform lsa X_test;
  setvar "X_test" (VMatrix X_test).

(** [clf = C(); y_pred = clf.fit(X_train, y_train).predict(X_test)] *)
Definition classify (name pred : string) (fresh : estimator) : cell :=
  clf ← new_estimator fresh;
  setvar name (VEstimator clf) ;;
  clf ← read name as_estimator;
  X_train ← read "X_train" as_matrix;
  y_train ← read "y_train" as_ids;
  classifier_fit clf X_train y_train ;;
  X_test ← read "X_test" as_matrix;
  y_pred ← classifier_predict clf X_test;
  setvar pred (VIds y_pred).

Definition cell_44 : cell := classify "gnb" "y_pred_NB" (GaussianNB None).
Definition cell_46 : cell := classify "svm" "y_pred_SVM" (SVC None).

Definition cell_48 : cell := setvar "SEQ_LENGTH" (VInt (Z.of_nat SEQ_LENGTH)).

Definition cell_49 : cell :=
  setvar "test_x" (VIds [1; 2; 0; 4; 3; 7; 10]) ;;
  test_x ← read "test_x" as_ids;
  test_y ← lift (to_categorical test_x);
  setvar "test_y" (VArray test_y.1 test_y.2) ;;
  v ← getvar "test_x"; show v ;;
  v ← getvar "test_y"; show v.

Definition cell_50 : cell :=
  setvar "create_functional_model" (VFunction create_functional_model_def).
Definition cell_51 : cell :=
  setvar "create_model" (VFunction create_model_def).
Definition cell_52 : cell := setvar "train" (VFunction train_def).
Definition cell_54 : cell :=
  setvar "generate_text" (VFunction generate_text_def).

Definition cell_55 : cell :=
  data ← read_corpus;
  setvar "data" (VStr data) ;;
  data ← read "data" as_str;
  setvar "chars" (VChars (chars data)) ;;
  chars ← read "chars" as_chars;
  setvar "char_to_int" (VCharToInt (char_to_int chars)) ;;
  chars ← read "chars" as_chars;
  setvar "ix_to_char" (VIxToChar (ix_to_char chars)) ;;
  chars ← read "chars" as_chars;
  setvar "vocab_size" (VInt (Z.of_nat (vocab_size chars))) ;;
  print ("List of unique characters : " +:+ newline) ;;
  v ← getvar "chars"; show v ;;
  print ("Number of unique characters : " +:+ newline) ;;
  v ← getvar "vocab_size"; show v ;;
  print ("Character to integer mapping : " +:+ newline) ;;
  v ← getvar "char_to_int"; show v.

(** Cell 56: the loop is [Chars.build_examples]; [char_to_int] is read
    only if the loop body runs. *)
Definition cell_56 : cell :=
  setvar "list_X" (VSeqs []) ;;
  setvar "list_Y" (VIds []) ;;
  data ← read "data" as_str;
  seq_length ← read "SEQ_LENGTH" as_nat;
  c2i ← (if decide (seq_length < String.length data)
         then read "char_to_int" as_char_to_int
         else mret ∅);
  let run := build_examples seq_length data c2i no_vars in
  setvar_opt "i" (VInt ∘ Z.of_nat <$> i run.2) ;;
  setvar_opt "seq_in" (VStr ∘ join <$> seq_in run.2) ;;
  setvar_opt "seq_out" ((λ c, VStr (join [c])) <$> seq_out run.2) ;;
  setvar "list_X" (VSeqs (list_X run.2)) ;;
  setvar "list_Y" (VIds (list_Y run.2)) ;;
  lift run.1 ;;
  list_X ← read "list_X" as_seqs;
  setvar "n_patterns" (VInt (Z.of_nat (length list_X))).

Definition cell_57 : cell :=
  list_X ← read "list_X" as_seqs;
  n_patterns ← read "n_patterns" as_nat;
  seq_length ← read "SEQ_LENGTH" as_nat;
  X ← lift (reshape list_X n_patterns seq_length);
  setvar "X" (VArray X.1 X.2) ;;
  list_Y ← read "list_Y" as_ids;
  Y ← lift (to_categorical list_Y);
  setvar "Y" (VArray Y.1 Y.2).

Definition cell_58 : cell :=
  defined "create_model" create_model_def ;;
  X ← read "X" as_array;
  Y ← read "Y" as_array;
  n_out ← lift (dim Y.1 1);
  d0 ← lift (dim X.1 0);
  d1 ← lift (dim X.1 1);
  d2 ← lift (dim X.1 2);
  stack ← lift
    (create_model 1 (d0, d1, d2) (256 # 1) n_out {["mode" := KStr "train"]});
  model ← new_model_of stack;
  setvar "model" (VModel model).

Definition cell_59 : cell :=
  defined "train" train_def ;;
  model ← read "model" as_model;
  X ← read "X" as_array;
  Y ← read "Y" as_array;
  vocab_size ← read "vocab_size" as_nat;
  train model (take 1024 X.2) (take 1024 Y.2) 2 512 vocab_size ∅.

Definition sample_from (filename : string) : cell :=
  defined "generate_text" generate_text_def ;;
  model ← read "model" as_model;
  X ← read "X" as_array;
  ix_to_char ← read "ix_to_char" as_ix_to_char;
  vocab_size ← read "vocab_size" as_nat;
  generate_text model X.2 filename ix_to_char vocab_size.

Definition cell_60 : cell :=
  sample_from "Weights/weights-improvement-01-4.3050.hdf5".
Definition cell_61 : cell :=
  sample_from "Weights/weights-improvement-02-4.0229.hdf5".

(** Running one cell: its outcome and what it showed.  An exception
    ends the cell; the session and its variables live on. *)
Definition run_cell (c : cell) (w : world)
    : (result () * list event) * world :=
  let r := c (with_out (λ _, []) w) in
  ((r.1, out r.2), with_out (λ _, []) r.2).

Fixpoint run_cells (cs : list cell) (w : world)
    : list (result () * list event) * world :=
  match cs with
  | [] => ([], w)
  | c :: cs' =>
      let r := run_cell c w in
      let rs := run_cells cs' r.2 in
      (r.1 :: rs.1, rs.2)
  end.

(** The three demonstrations, and the cells before them. *)
Inductive branch : Type := Setup | Topic | Classification | Generation.

Definition notebook : list (branch * cell) := [
  (Setup, cell_2); (Setup, cell_3);
  (Topic, cell_5); (Topic, cell_7); (Topic, cell_9); (Topic, cell_10);
  (Topic, cell_12); (Topic, cell_14); (Topic, cell_16); (Topic, cell_18);
  (Topic, cell_19); (Topic, cell_20); (Topic, cell_22); (Topic, cell_23);
  (Topic, cell_24); (Topic, cell_26); (Topic, cell_27); (Topic, cell_29);
  (Topic, cell_30); (Topic, cell_31); (Topic, cell_32); (Topic, cell_33);
  (Topic, cell_35); (Topic, cell_36);
  (Classification, cell_39); (Classification, cell_40);
  (Classification, cell_41); (Classification, cell_44);
  (Classification, cell_46);
  (Generation, cell_48); (Generation, cell_49); (Generation, cell_50);
  (Generation, cell_51); (Generation, cell_52); (Generation, cell_54);
  (Generation, cell_55); (Generation, cell_56); (Generation, cell_57);
  (Generation, cell_58); (Generation, cell_59); (Generation, cell_60);
  (Generation, cell_61)
].

(** A fresh session: nothing bound, no object, no output yet. *)
Definition fresh_session (w : world) : Prop :=
  globals w = ∅ ∧ models w = ∅ ∧ estimators w = ∅ ∧ out w = [].

Definition run_notebook (w : world)
    : list (result () * list event) * world :=
  run_cells notebook.*2 w.

(** The session after the first [k] cells of the notebook. *)
Definition session_after (k : nat) (w : world) : world :=
  (run_cells (take k notebook.*2) w).2.

End cells.
End Notebook.

(** ** Cell 50: [create_functional_model] *)

Module Functional.
Import Py Layers Libs World.

Section functional.
Context `{SpacyLib, GensimLib, SklearnLib, KerasLib}.

(** Calling the value bound to a name as [v(shape = ...)].  Nothing that
    a session binds accepts that call: the functions of the notebook
    take other parameters and the other values either are not callable
    or take no [shape] keyword. *)
Definition call_with_shape (v : value) (shape : Z * Z) : Eff world value :=
  match v with
  | VFunction _ => raise TypeError
  | _ => raise TypeError
  end.

(** [create_functional_model(n_layers, input_shape, hidden_dim, n_out,
    **kwargs)].  The name [Input] is looked up among the globals: no
    cell imports it.  The three layers are then applied in turn and the
    function ends without a [return]. *)
Definition create_functional_model (n_layers : Z) (input_shape : Z * Z * Z)
    (hidden_dim : Q) (n_out : Z) (kwargs : gmap string kwval)
    : Eff world () :=
  let drop := kwargs_get kwargs "drop_rate" (KNum (2 # 10)) in
  let activ := kwargs_get kwargs "activation" (KStr "softmax") in
  let mode := kwargs_get kwargs "mode" (KStr "train") in
  let hidden_dim := int hidden_dim in
  callee ← getvar "Input";
  inputs ← call_with_shape callee (input_shape.1.2, input_shape.2);
  let model := [LSTM hidden_dim None true] in
  let model := model ++ [Dropout drop] in
  let model := model ++ [Dense n_out (KStr "linear")] in
  mret ().

End functional.
End Functional.

(** ** Small executable libraries, used to run the embedding *)

Module Toy.
Import Py Corpus Layers Libs World.

(** Every character is a token; stop words are single characters. *)
Definition toy_token (stops : list string) (c : ascii) : token :=
  let s := String c EmptyString in
  Token s s (existsb (String.eqb s) stops) (Ascii.eqb c "."%char)
        ((48 <=? N_of_ascii c)%N && (N_of_ascii c <=? 57)%N).

#[export] Instance toy_spacy : SpacyLib := {|
  language := list string;
  doc_ := list token;
  span := string;
  mark_stop n s := s :: n;
  annotate n text := Ok (toy_token n <$> chars_of_str text);
  tokens d := d;
  ents d := [];
  noun_chunks d := [];
  show_doc d := "";
  pos_line d k := from_option text "" (d !! k);
  ner_line d k := from_option text "" (d !! k);
  dep_line d k := from_option text "" (d !! k);
  ent_line e := e;
  chunk_line e := e;
  render d style := style
|}.

#[export] Instance toy_gensim : GensimLib := {|
  phrases := unit;
  dictionary := list string;
  bow := list string;
  lda := nat;
  gensim_path := "gensim";
  Phrases texts := ();
  phrases_apply b line := line;
  Dictionary texts := concat texts;
  doc2bow d line := line;
  show_bow b := "";
  LdaModel corpus k d r := (Ok (length corpus), length (concat corpus));
  show_topics m := ""
|}.

(** Features are one integer per document; the reduction subtracts the
    mean of the matrix it was fitted on; the classifiers threshold at
    zero. *)
Definition mean (m : list Z) : Z :=
  (foldr Z.add 0 m `div` Z.of_nat (length m))%Z.

#[export] Instance toy_sklearn : SklearnLib := {|
  matrix := list Z;
  tfidf_params := unit;
  svd_params := Z;
  gnb_params := unit;
  svc_params := unit;
  tfidf_fit docs := Ok ();
  tfidf_transform p docs := Ok ((λ d, Z.of_nat (String.length d)) <$> docs);
  svd_fit n X r := (Ok (mean X), Z.to_nat (mean X));
  svd_transform p X := Ok ((λ x, x - p)%Z <$> X);
  normalize X := X;
  gnb_fit X y := Ok ();
  gnb_predict p X := Ok ((λ x, if (x <? 0)%Z then 0 else 1) <$> X);
  svc_fit X y r := (Ok (), 1);
  svc_predict p X := Ok ((λ x, if (x <? 0)%Z then 0 else 1) <$> X)
|}.

(** Layers need positive units and input dimensions, a rate in
    [0, 1) and an activation among three. *)
#[export] Instance toy_layers : KerasLayers := {|
  build model l :=
    match l with
    | LSTM units shape _ =>
        if (0 <? units)%Z
           && match shape with
              | Some (steps, features) => (0 <? steps)%Z && (0 <? features)%Z
              | None => true
              end
        then Ok () else Raise ValueError
    | Dropout (KNum rate) =>
        if Qle_bool 0 rate && negb (Qle_bool 1 rate)
        then Ok () else Raise ValueError
    | Dropout (KStr _) => Raise TypeError
    | Dense units (KStr activation) =>
        if (0 <? units)%Z
           && existsb (String.eqb activation) ["softmax"; "linear"; "relu"]
        then Ok () else Raise ValueError
    | Dense _ (KNum _) => Raise ValueError
    end
|}.

(** Parameters count the epochs they were trained for; the loss goes
    5, 7, 3, 3, ...; a prediction shifts its input by the parameters.
    One loss and two optimizers are known. *)
#[export] Instance toy_keras : KerasLib := {|
  keras_layers := toy_layers;
  loss_known v := eq_str v "categorical_crossentropy";
  optimizer_known v := eq_str v "adam" || eq_str v "sgd";
  crossentropy_known := eq_refl;
  adam_known := eq_refl;
  weights := nat;
  tensor := list nat;
  loss := nat;
  init_weights ls := 0;
  scaled X v := concat X;
  fit_epoch ls ws X Y b :=
    Ok (S ws, match ws with 0 => 5 | 1 => 7 | _ => 3 end);
  forward ls ws x := Ok ((λ n, n + ws) <$> x);
  argmax t := foldr Nat.add 0 t `mod` 3;
  less a b := a <? b;
  inf := 1000;
  neg_inf := 0;
  format_4f l := match l with 5 => "5.0000" | 7 => "7.0000" | _ => "3.0000" end
|}.

(** A session on a machine that holds the corpus [text], the spaCy
    model, and two documents in each subset of the newsgroups data. *)
Definition toy_world_with (test_docs : list string) (text : string)
    (seed : nat) : world :=
  World ∅
        {["gensim/test/test_data/lee_background.cor" := Text text]}
        (λ _, true) ∅ ∅ (λ k, seed + k) 0
        {["en" := []]}
        (λ subset _,
           if String.eqb subset "train"
           then Ok (Dataset ["a"; "bbb"] [0; 1] ["x"; "y"])
           else Ok (Dataset test_docs [0; 1] ["x"; "y"]))
        false [].

Definition toy_world : string → nat → world :=
  toy_world_with ["cccccccccc"; "dddddddddddddddddddd"].

End Toy.

(** * Part II: properties *)

(** ** The token loop of cell 26 *)

Module CorpusSpec.
Import Py Corpus.

Lemma run_snoc doc w : run (doc ++ [w]) = body (run doc) w.
Proof. unfold run. by rewrite foldl_app. Qed.

Lemma run_app doc tail : run (doc ++ tail) = foldl body (run doc) tail.
Proof. unfold run. by rewrite foldl_app. Qed.

Lemma eqb_newline w :
  String.eqb (text w) newline = bool_decide (text w = newline).
Proof.
  destruct (String.eqb_spec (text w) newline) as [E|E].
  - by rewrite bool_decide_eq_true_2.
  - by rewrite bool_decide_eq_false_2.
Qed.

Lemma passes_newline w : text w = newline → passes w = false.
Proof. intros E. unfold passes. rewrite E. by rewrite String.eqb_refl. Qed.

Lemma body_newline st w :
  text w = newline → body st w = State (texts st ++ [article st]) [].
Proof.
  intros E. unfold body. rewrite (passes_newline w E).
  rewrite E, String.eqb_refl. done.
Qed.

Lemma body_other st w :
  text w ≠ newline →
  body st w =
    State (texts st) (article st ++ (if passes w then [lemma_ w] else [])).
Proof.
  intros E. unfold body.
  assert (String.eqb (text w) newline = false) as ->
    by by apply String.eqb_neq.
  destruct (passes w); [done|].
  rewrite app_nil_r. by destruct st.
Qed.

(** Tokens that are not newlines only extend the article in progress. *)
Lemma foldl_body_no_newline tail : ∀ st,
  Forall (λ w, text w ≠ newline) tail →
  foldl body st tail =
    State (texts st)
          (article st ++ (lemma_ <$> filter (λ w, passes w) tail)).
Proof.
  induction tail as [|w tail IH]; intros st Hall; simpl.
  - rewrite app_nil_r. by destruct st.
  - apply Forall_cons in Hall as [Hw Hall].
    rewrite IH by done. rewrite body_other by done. simpl.
    rewrite filter_cons. destruct (passes w); simpl.
    + by rewrite <- app_assoc.
    + by rewrite app_nil_r.
Qed.

(** C3: processing one more token [w] after any prefix [doc] of the
    corpus.  A newline token closes the article in progress: it is
    appended to [texts] and a new empty article is started.  Any other
    token leaves [texts] alone, and its lemma is appended to the article
    exactly when it is neither a stop word, nor punctuation, nor
    number-like. *)
Theorem token_loop_step (doc : list token) (w : token) :
  run (doc ++ [w]) =
    if decide (text w = newline)
    then State (texts (run doc) ++ [article (run doc)]) []
    else if is_stop w || is_punct w || like_num w
    then run doc
    else State (texts (run doc)) (article (run doc) ++ [lemma_ w]).
Proof.
  rewrite run_snoc. case_decide as E.
  - by apply body_newline.
  - rewrite body_other by done. unfold passes.
    assert (String.eqb (text w) newline = false) as ->
      by by apply String.eqb_neq.
    destruct (is_stop w), (is_punct w), (like_num w); simpl;
      rewrite ?app_nil_r; by destruct (run doc).
Qed.

(** C10: tokens after the last newline never reach [texts].  If [tail]
    holds no newline token then appending it to any corpus [doc] leaves
    the list of documents as it was; in particular a corpus without a
    newline token yields no document at all, however many of its tokens
    pass the filter.  The article in progress is appended only once a
    newline token follows. *)
Theorem trailing_tokens_discarded (doc tail : list token) :
  Forall (λ w, text w ≠ newline) tail →
  build_texts (doc ++ tail) = build_texts doc
  ∧ build_texts tail = []
  ∧ ∀ nl, text nl = newline →
      build_texts (doc ++ tail ++ [nl]) =
        build_texts doc
        ++ [article (run doc) ++ (lemma_ <$> filter (λ w, passes w) tail)].
Proof.
  intros Hall. split_and!.
  - unfold build_texts. rewrite run_app.
    by rewrite foldl_body_no_newline.
  - unfold build_texts, run. by rewrite foldl_body_no_newline.
  - intros nl Hnl. unfold build_texts.
    rewrite app_assoc, run_snoc, body_newline by done.
    rewrite run_app, foldl_body_no_newline by done. done.
Qed.

Definition tok (s : string) : token := Token s s false false false.

(** Two documents; the stop word and the tokens after the last newline
    are left out. *)
Example build_texts_example :
  build_texts [tok "a"; tok "b"; tok newline; tok "c";
               Token "the" "the" true false false; tok newline; tok "z"]
  = [["a"; "b"]; ["c"]].
Proof. reflexivity. Qed.

Lemma trailing_tokens_discarded_witness :
  build_texts ([tok "a"; tok newline] ++ [tok "b"; tok "c"])
    = build_texts [tok "a"; tok newline]
  ∧ build_texts [tok "b"; tok "c"] = []
  ∧ ∀ nl, text nl = newline →
      build_texts ([tok "a"; tok newline] ++ [tok "b"; tok "c"] ++ [nl]) =
        build_texts [tok "a"; tok newline]
        ++ [article (run [tok "a"; tok newline])
            ++ (lemma_ <$> filter (λ w, passes w) [tok "b"; tok "c"])].
Proof.
  apply (trailing_tokens_discarded [tok "a"; tok newline] [tok "b"; tok "c"]).
  repeat constructor; simpl; discriminate.
Defined.

End CorpusSpec.

(** ** Dictionaries, [enumerate] and loops *)

Module PyFacts.
Import Py.

Lemma dict_snoc `{Countable K} {V} (l : list (K * V)) k v :
  dict (l ++ [(k, v)]) = <[k := v]> (dict l).
Proof. unfold dict. by rewrite foldl_snoc. Qed.

(** With pairwise distinct keys a dict holds exactly the pairs it was
    built from. *)
Lemma dict_lookup `{Countable K} {V} (l : list (K * V)) k v :
  NoDup l.*1 → dict l !! k = Some v ↔ (k, v) ∈ l.
Proof.
  induction l as [|[k' v'] l IH] using rev_ind; intros Hnd.
  - unfold dict; simpl. rewrite lookup_empty. split; [done|].
    intros Hin. by apply elem_of_nil in Hin.
  - rewrite fmap_app in Hnd. apply NoDup_app in Hnd as (Hnd & Hfresh & _).
    rewrite dict_snoc, elem_of_app, list_elem_of_singleton.
    destruct (decide (k' = k)) as [->|Hne].
    + rewrite lookup_insert_eq. split.
      * intros [= ->]. by right.
      * intros [Hin|[= ->]]; [|done].
        exfalso. apply (Hfresh k).
        -- apply list_elem_of_fmap. by exists (k, v).
        -- simpl. apply list_elem_of_singleton. done.
    + rewrite lookup_insert_ne by done. rewrite IH by done.
      split; [by left|]. intros [Hin|[= -> ->]]; done.
Qed.

Lemma elem_of_enumerate {A} (l : list A) i a :
  (i, a) ∈ enumerate l ↔ l !! i = Some a.
Proof.
  unfold enumerate. rewrite elem_of_lookup_imap. split.
  - by intros (j & b & [= -> ->] & Hl).
  - intros Hl. by exists i, a.
Qed.

Lemma enumerate_fst {A} (l : list A) :
  (enumerate l).*1 = seq 0 (length l).
Proof.
  unfold enumerate. rewrite fmap_imap.
  rewrite <- (list_fmap_id (seq 0 (length l))).
  etrans; [|apply (imap_seq_0 l id)]. by apply imap_ext.
Qed.

Lemma enumerate_snd {A} (l : list A) : (enumerate l).*2 = l.
Proof.
  unfold enumerate. rewrite fmap_imap.
  etrans; [|apply (list_fmap_id l)].
  etrans; [|apply (imap_const id l)]. by apply imap_ext.
Qed.

Lemma for_app {S A} (l1 l2 : list A) (body : A → Eff S ()) s :
  for_ (l1 ++ l2) body s = (for_ l1 body ;; for_ l2 body) s.
Proof.
  revert s. induction l1 as [|a l1 IH]; intros s; simpl.
  - done.
  - unfold mbind, Eff_bind. destruct (body a s) as [[[]|e] s']; [|done].
    apply IH.
Qed.

Lemma bind_cong {S A B} (c c' : Eff S A) (k k' : A → Eff S B) s :
  (∀ s, c s = c' s) → (∀ a s, k a s = k' a s) →
  (c ≫= k) s = (c' ≫= k') s.
Proof.
  intros Hc Hk. unfold mbind, Eff_bind. rewrite Hc.
  destruct (c' s) as [[a|e] s']; [apply Hk|done].
Qed.

(** *** Properties of the final state that compose along a program *)

Section preserves.
Context {S : Type} (R : relation S) `{!PreOrder R}.

(** Every run of [c] ends in a state related to the one it started in. *)
Definition preserves {A} (c : Eff S A) : Prop := ∀ s, R s (c s).2.

Lemma preserves_ret {A} (a : A) : preserves (mret a).
Proof. intros s. simpl. reflexivity. Qed.

Lemma preserves_raise {A} e : preserves (raise e : Eff S A).
Proof. intros s. simpl. reflexivity. Qed.

Lemma preserves_lift {A} (r : result A) : preserves (lift r).
Proof. intros s. simpl. reflexivity. Qed.

Lemma preserves_get : preserves get.
Proof. intros s. simpl. reflexivity. Qed.

Lemma preserves_bind {A B} (c : Eff S A) (k : A → Eff S B) :
  preserves c → (∀ a, preserves (k a)) → preserves (c ≫= k).
Proof.
  intros Hc Hk s. unfold mbind, Eff_bind.
  specialize (Hc s). destruct (c s) as [[a|e] s1]; simpl in *; [|done].
  etrans; [exact Hc|apply Hk].
Qed.

Lemma preserves_for {A} (l : list A) (body : A → Eff S ()) :
  (∀ a, preserves (body a)) → preserves (for_ l body).
Proof.
  intros Hb. induction l as [|a l IH]; simpl.
  - apply preserves_ret.
  - apply preserves_bind; [apply Hb|by intros _].
Qed.

Lemma preserves_foldlM {A St} (body : St → A → Eff S St) l :
  (∀ st a, preserves (body st a)) → ∀ st, preserves (foldlM body st l).
Proof.
  intros Hb. induction l as [|a l IH]; intros st; simpl.
  - apply preserves_ret.
  - apply preserves_bind; [apply Hb|apply IH].
Qed.

Lemma preserves_mapM {A B} (f : A → Eff S B) l :
  (∀ a, preserves (f a)) → preserves (mapM f l).
Proof.
  intros Hf. induction l as [|a l IH].
  - apply preserves_ret.
  - change (mapM f (a :: l))
      with (y ← f a; ys ← mapM f l; mret (y :: ys)).
    apply preserves_bind; [apply Hf|]. intros y.
    apply preserves_bind; [apply IH|]. intros ys. apply preserves_ret.
Qed.

End preserves.

Lemma mapM_getitem `{Countable K} {V} (d : gmap K V) (f : K → V) l :
  Forall (λ k, d !! k = Some (f k)) l →
  mapM (getitem d) l = Ok (f <$> l).
Proof.
  induction 1 as [|k l Hk _ IH]; [done|].
  change (mapM (getitem d) (k :: l))
    with (y ← getitem d k; ys ← mapM (getitem d) l; mret (y :: ys)).
  rewrite IH. unfold getitem. by rewrite Hk.
Qed.

(** Running a list of cells, one cell at a time. *)
Section cells.
Context `{Libs.SpacyLib, Libs.GensimLib, Libs.SklearnLib, Libs.KerasLib}.

Lemma run_cells_cons (c : Notebook.cell) cs w :
  Notebook.run_cells (c :: cs) w =
    ((Notebook.run_cell c w).1
     :: (Notebook.run_cells cs (Notebook.run_cell c w).2).1,
     (Notebook.run_cells cs (Notebook.run_cell c w).2).2).
Proof. reflexivity. Qed.

Lemma run_cells_nil w : Notebook.run_cells [] w = ([], w).
Proof. reflexivity. Qed.

End cells.

End PyFacts.

(** ** The character alphabet of cell 55 *)

Module CharsSpec.
Import Py Chars PyFacts.

Definition char_lt (a b : ascii) : Prop := (N_of_ascii a < N_of_ascii b)%N.

#[local] Instance char_le_total : Total char_le.
Proof. intros a b. unfold char_le. lia. Qed.

#[local] Instance char_le_trans : Transitive char_le.
Proof. intros a b c. unfold char_le. lia. Qed.

Lemma N_of_ascii_inj a b : N_of_ascii a = N_of_ascii b → a = b.
Proof.
  intros E. rewrite <- (ascii_N_embedding a), <- (ascii_N_embedding b).
  by rewrite E.
Qed.

Lemma elem_of_chars data c : c ∈ chars data ↔ c ∈ chars_of_str data.
Proof.
  unfold chars. rewrite merge_sort_Permutation.
  rewrite elem_of_elements. apply elem_of_list_to_set.
Qed.

Lemma NoDup_chars data : NoDup (chars data).
Proof.
  unfold chars. rewrite merge_sort_Permutation. apply NoDup_elements.
Qed.

Lemma chars_sorted data : StronglySorted char_lt (chars data).
Proof.
  pose proof (NoDup_chars data) as Hnd.
  assert (StronglySorted char_le (chars data)) as Hs
    by (unfold chars; apply StronglySorted_merge_sort; apply _).
  induction Hs as [|a l _ IH Hall]; [constructor|].
  apply NoDup_cons in Hnd as [Ha Hnd].
  constructor; [by apply IH|].
  apply Forall_forall. intros b Hb.
  rewrite Forall_forall in Hall. specialize (Hall b Hb).
  unfold char_le in Hall. unfold char_lt.
  assert (N_of_ascii a ≠ N_of_ascii b)
    by (intros E; apply N_of_ascii_inj in E; by subst).
  lia.
Qed.

Lemma char_to_int_lookup cs c i :
  NoDup cs → char_to_int cs !! c = Some i ↔ cs !! i = Some c.
Proof.
  intros Hnd. unfold char_to_int. rewrite dict_lookup.
  - rewrite list_elem_of_fmap. split.
    + intros ([j a] & [= -> ->] & Hin). by apply elem_of_enumerate.
    + intros Hl. exists (i, c). split; [done|]. by apply elem_of_enumerate.
  - rewrite <- list_fmap_compose.
    change (NoDup (enumerate cs).*2). by rewrite enumerate_snd.
Qed.

Lemma ix_to_char_lookup (cs : list ascii) c i :
  ix_to_char cs !! i = Some c ↔ cs !! i = Some c.
Proof.
  unfold ix_to_char. rewrite dict_lookup.
  - rewrite list_elem_of_fmap. split.
    + intros ([j a] & [= -> ->] & Hin). by apply elem_of_enumerate.
    + intros Hl. exists (i, c). split; [done|]. by apply elem_of_enumerate.
  - rewrite <- list_fmap_compose.
    change (NoDup (enumerate cs).*1). rewrite enumerate_fst. apply NoDup_seq.
Qed.

(** C8: the two alphabet maps of cell 55 are mutually inverse.  [chars]
    holds the distinct characters of the corpus in strictly increasing
    code-point order; [char_to_int] sends the character at position [i]
    of [chars] to [i] and [ix_to_char] sends [i] back to it, so the ids
    are exactly [0 .. vocab_size - 1] in sorted order, every character
    of [chars] survives the round trip through its id and every id below
    [vocab_size] survives the round trip through its character. *)
Theorem alphabet_maps_inverse (data : string) :
  let cs := chars data in
  StronglySorted char_lt cs
  ∧ (∀ c, c ∈ cs ↔ c ∈ chars_of_str data)
  ∧ (∀ i c, char_to_int cs !! c = Some i ↔ cs !! i = Some c)
  ∧ (∀ i c, ix_to_char cs !! i = Some c ↔ cs !! i = Some c)
  ∧ (∀ c, c ∈ cs →
       ∃ i, i < vocab_size cs ∧ getitem (char_to_int cs) c = Ok i
            ∧ getitem (ix_to_char cs) i = Ok c)
  ∧ (∀ i, i < vocab_size cs →
       ∃ c, c ∈ cs ∧ getitem (ix_to_char cs) i = Ok c
            ∧ getitem (char_to_int cs) c = Ok i).
Proof.
  intros cs. pose proof (NoDup_chars data) as Hnd. fold cs in Hnd.
  split_and!.
  - apply chars_sorted.
  - apply elem_of_chars.
  - intros i c. by apply char_to_int_lookup.
  - intros i c. apply ix_to_char_lookup.
  - intros c Hc. apply list_elem_of_lookup in Hc as [i Hi].
    exists i. split_and!.
    + by apply lookup_lt_Some in Hi.
    + unfold getitem. by rewrite (proj2 (char_to_int_lookup cs c i Hnd) Hi).
    + unfold getitem. by rewrite (proj2 (ix_to_char_lookup cs c i) Hi).
  - intros i Hi. apply lookup_lt_is_Some in Hi as [c Hc].
    exists c. split_and!.
    + by apply list_elem_of_lookup_2 in Hc.
    + unfold getitem. by rewrite (proj2 (ix_to_char_lookup cs c i) Hc).
    + unfold getitem. by rewrite (proj2 (char_to_int_lookup cs c i Hnd) Hc).
Qed.

(** *** The sliding windows of cell 56 *)

Section windows.
Context (len : nat) (cs : list ascii) (c2i : gmap ascii nat) (f : ascii → nat).
Hypothesis known : ∀ c, c ∈ cs → c2i !! c = Some (f c).

Definition ids (i : nat) : list nat := f <$> slice cs i (i + len).
Definition label (i : nat) : nat := from_option f 0 (cs !! (i + len)).

Lemma window_ok i st :
  i + len < length cs →
  ∃ st', window len cs c2i i st = (Ok (), st')
    ∧ list_X st' = list_X st ++ [ids i]
    ∧ list_Y st' = list_Y st ++ [label i].
Proof using known.
  intros Hi. apply lookup_lt_is_Some in Hi as [c Hc].
  assert (mapM (getitem c2i) (slice cs i (i + len))
          = Ok (f <$> slice cs i (i + len))) as Hxs.
  { apply mapM_getitem, Forall_forall. intros a Ha. apply known.
    unfold slice in Ha. apply elem_of_take in Ha as (j & Ha & _).
    rewrite lookup_drop in Ha. by apply list_elem_of_lookup_2 in Ha. }
  assert (getitem c2i c = Ok (f c)) as Hy.
  { unfold getitem. rewrite (known c); [done|].
    by apply list_elem_of_lookup_2 in Hc. }
  unfold window, index, label, ids. rewrite Hc.
  unfold mbind, Eff_bind, lift, modify. rewrite Hxs, Hy.
  eexists. split; [done|]. done.
Qed.

Lemma windows_ok n : ∀ a st,
  a + n + len ≤ length cs →
  ∃ st', for_ (seq a n) (window len cs c2i) st = (Ok (), st')
    ∧ list_X st' = list_X st ++ (ids <$> seq a n)
    ∧ list_Y st' = list_Y st ++ (label <$> seq a n).
Proof using known.
  induction n as [|n IH]; intros a st Hn.
  - exists st. simpl. by rewrite !app_nil_r.
  - destruct (window_ok a st) as (st1 & Hw & HX1 & HY1); [lia|].
    destruct (IH (S a) st1) as (st2 & Hrun & HX2 & HY2); [lia|].
    exists st2.
    change (for_ (seq a (S n)) (window len cs c2i) st)
      with ((window len cs c2i a ;;
             for_ (seq (S a) n) (window len cs c2i)) st).
    unfold mbind, Eff_bind. rewrite Hw, Hrun.
    rewrite HX2, HY2, HX1, HY1. simpl. by rewrite <- !app_assoc.
Qed.

End windows.

Lemma char_to_int_known data c :
  c ∈ chars_of_str data →
  char_to_int (chars data) !! c
    = Some (default 0 (char_to_int (chars data) !! c)).
Proof.
  intros Hc. apply elem_of_chars, list_elem_of_lookup in Hc as [i Hi].
  apply (char_to_int_lookup _ _ _ (NoDup_chars data)) in Hi.
  by rewrite Hi.
Qed.

(** C2: for a character stream of length [L > SEQ_LENGTH] the loop of
    cell 56 ends without an exception and has built [L - SEQ_LENGTH]
    examples.  For each [i < L - SEQ_LENGTH], example [i] has
    [SEQ_LENGTH] entries, entry [j] being the id that [char_to_int]
    gives the character at position [i + j] of the stream, and label
    [i] is the id of the character at position [i + SEQ_LENGTH]. *)
Theorem sliding_window_examples (data : string) (st : vars) :
  let cs := chars_of_str data in
  let c2i := char_to_int (chars data) in
  length cs > SEQ_LENGTH →
  ∃ ex, build_examples SEQ_LENGTH data c2i st = (Ok (), ex)
    ∧ length (list_X ex) = length cs - SEQ_LENGTH
    ∧ length (list_Y ex) = length cs - SEQ_LENGTH
    ∧ ∀ i, i < length cs - SEQ_LENGTH →
        ∃ xs y, list_X ex !! i = Some xs ∧ list_Y ex !! i = Some y
          ∧ length xs = SEQ_LENGTH
          ∧ (∀ j, j < SEQ_LENGTH →
               ∃ c n, cs !! (i + j) = Some c ∧ c2i !! c = Some n
                      ∧ xs !! j = Some n)
          ∧ (∃ c, cs !! (i + SEQ_LENGTH) = Some c ∧ c2i !! c = Some y).
Proof.
  intros cs c2i HL.
  set (f := λ c, default 0 (c2i !! c)).
  assert (∀ c, c ∈ cs → c2i !! c = Some (f c)) as known
    by (intros c Hc; by apply char_to_int_known).
  set (n := length cs - SEQ_LENGTH).
  destruct (windows_ok SEQ_LENGTH cs c2i f known n 0
              (Vars [] [] (i st) (seq_in st) (seq_out st)))
    as (ex & Hrun & HX & HY); [unfold n; lia|].
  simpl in HX, HY. exists ex. split_and!.
  - unfold build_examples, range. fold cs.
    by replace (Z.to_nat (Z.of_nat (length cs) - Z.of_nat SEQ_LENGTH))
      with n by (unfold n; lia).
  - by rewrite HX, length_fmap, length_seq.
  - by rewrite HY, length_fmap, length_seq.
  - intros k Hk. fold n in Hk.
    exists (ids SEQ_LENGTH cs f k), (label SEQ_LENGTH cs f k).
    rewrite HX, HY.
    rewrite !list_lookup_fmap, !lookup_seq_lt by done. simpl.
    assert (length (slice cs k (k + SEQ_LENGTH)) = SEQ_LENGTH) as Hlen.
    { unfold slice. rewrite length_take, length_drop. unfold n in Hk. lia. }
    split_and!; [done|done| |  |].
    + unfold ids. by rewrite length_fmap.
    + intros j Hj.
      assert (k + j < length cs) as Hij by (unfold n in Hk; lia).
      apply lookup_lt_is_Some in Hij as [c Hc]. exists c, (f c).
      split_and!; [done| |].
      * apply known. by apply list_elem_of_lookup_2 in Hc.
      * unfold ids, slice. rewrite list_lookup_fmap.
        rewrite lookup_take_lt by lia. rewrite lookup_drop. by rewrite Hc.
    + assert (k + SEQ_LENGTH < length cs) as Hij by (unfold n in Hk; lia).
      apply lookup_lt_is_Some in Hij as [c Hc]. exists c.
      split; [done|]. unfold label. rewrite Hc. simpl.
      apply known. by apply list_elem_of_lookup_2 in Hc.
Qed.

(** A stream of 122 characters over a four-letter alphabet. *)
Definition sample_stream : string :=
  "aaaaaaaaaabbbbbbbbbbaaaaaaaaaabbbbbbbbbbaaaaaaaaaabbbbbbbbbb" +:+
  "aaaaaaaaaabbbbbbbbbbaaaaaaaaaabbbbbbbbbbaaaaaaaaaabbbbbbbbbbcd".

Example chars_example :
  chars "hello" = ["e"; "h"; "l"; "o"]%char
  ∧ char_to_int (chars "hello") !! "l"%char = Some 2
  ∧ ix_to_char (chars "hello") !! 2 = Some "l"%char.
Proof. by vm_compute. Qed.

Lemma alphabet_maps_inverse_witness :
  1 < vocab_size (chars sample_stream)
  ∧ ∃ c, c ∈ chars sample_stream
         ∧ getitem (ix_to_char (chars sample_stream)) 1 = Ok c
         ∧ getitem (char_to_int (chars sample_stream)) c = Ok 1.
Proof.
  assert (1 < vocab_size (chars sample_stream)) as Hlt by (vm_compute; lia).
  split; [exact Hlt|].
  exact (proj2 (proj2 (proj2 (proj2 (proj2
           (alphabet_maps_inverse sample_stream))))) 1 Hlt).
Defined.

Lemma sliding_window_examples_witness :
  length (chars_of_str sample_stream) > SEQ_LENGTH
  ∧ ∃ ex,
      build_examples SEQ_LENGTH sample_stream
        (char_to_int (chars sample_stream)) no_vars = (Ok (), ex)
      ∧ length (list_X ex) = length (chars_of_str sample_stream) - SEQ_LENGTH.
Proof.
  assert (length (chars_of_str sample_stream) > SEQ_LENGTH) as HL
    by (vm_compute; lia).
  split; [exact HL|].
  destruct (sliding_window_examples sample_stream no_vars HL)
    as (ex & Hrun & HX & _).
  exists ex. split; [exact Hrun|exact HX].
Defined.

End CharsSpec.

(** ** [create_model] *)

Module LayersSpec.
Import Py Layers PyFacts.

Section shape.
Context `{KerasLayers}.
Context (hd : Z) (shape : option (Z * Z)) (drop : kwval) (train : bool).

(** The optional [Dropout] added after an [LSTM]. *)
Definition dr : list layer := if train then [Dropout drop] else [].

(** The layers added by [k] iterations of the [for] loop. *)
Fixpoint middle (k : nat) : list layer :=
  match k with
  | 0 => []
  | S k => LSTM hd None true :: dr ++ middle k
  end.

(** The layers that [create_model] adds, in order. *)
Definition plan_of (n_layers n_out : Z) (activ : kwval) : list layer :=
  if (n_layers =? 1)%Z
  then LSTM hd shape false :: dr ++ [Dense n_out activ]
  else LSTM hd shape true :: dr
       ++ middle (Z.to_nat (n_layers - 2))
       ++ [LSTM hd None false; Dense n_out activ].

Lemma add_for l model : add l model = for_ [l] add model.
Proof.
  simpl. unfold mbind, Eff_bind. by destruct (add l model) as [[[]|e] m].
Qed.

Lemma add_if_for model : add_if train (Dropout drop) model = for_ dr add model.
Proof. unfold add_if, dr. destruct train; [apply add_for|done]. Qed.

Lemma loop_body model :
  (add (LSTM hd None true) ;; add_if train (Dropout drop)) model
  = for_ (LSTM hd None true :: dr) add model.
Proof.
  simpl. unfold mbind, Eff_bind.
  destruct (add (LSTM hd None true) model) as [[[]|e] m]; [|done].
  apply add_if_for.
Qed.

Lemma loop_middle {A} (l : list A) : ∀ model,
  for_ l (λ _, add (LSTM hd None true) ;; add_if train (Dropout drop)) model
  = for_ (middle (length l)) add model.
Proof.
  induction l as [|a l IH]; intros model; [done|].
  change (middle (length (a :: l)))
    with ((LSTM hd None true :: dr) ++ middle (length l)).
  rewrite for_app.
  change (for_ (a :: l) ?body model) with ((body a ;; for_ l body) model).
  apply bind_cong; [apply loop_body|intros _ m; apply IH].
Qed.

Lemma middle_lstm k :
  length (filter (λ l, is_lstm l) (middle k)) = k.
Proof.
  induction k as [|k IH]; [done|].
  change (middle (S k)) with (LSTM hd None true :: dr ++ middle k).
  rewrite filter_cons, decide_True by done.
  rewrite filter_app, length_cons, length_app, IH.
  unfold dr. by destruct train.
Qed.

Lemma middle_no_dense k : Forall (λ l, is_dense l = false) (middle k).
Proof.
  induction k as [|k IH]; simpl; [constructor|].
  constructor; [done|]. unfold dr. destruct train; simpl; [|done].
  by constructor.
Qed.

End shape.

Section adding.
Context `{KerasLayers}.

(** Keras accepts the layers [ls] one after the other on a model that
    holds [model]. *)
Definition accepted (model ls : list layer) : Prop :=
  ∀ k l, ls !! k = Some l → build (model ++ take k ls) l = Ok ().

Lemma accepted_nil model : accepted model [].
Proof. by intros k l Hk. Qed.

Lemma accepted_cons model l ls :
  accepted model (l :: ls)
  ↔ build model l = Ok () ∧ accepted (model ++ [l]) ls.
Proof.
  split.
  - intros Hacc. split.
    + specialize (Hacc 0 l eq_refl). simpl in Hacc.
      by rewrite app_nil_r in Hacc.
    + intros k l' Hk. specialize (Hacc (S k) l' Hk). simpl in Hacc.
      by rewrite <- app_assoc.
  - intros [Hl Hacc] [|k] l' Hk; simpl in *.
    + injection Hk as <-. by rewrite app_nil_r.
    + specialize (Hacc k l' Hk). by rewrite <- app_assoc in Hacc.
Qed.

(** Adding layers in turn: all of them are added, or the first one that
    Keras rejects ends the run with its exception. *)
Lemma adds_spec ls : ∀ model,
  match for_ ls add model with
  | (Ok _, m') => m' = model ++ ls ∧ accepted model ls
  | (Raise e, m') => ∃ k l, ls !! k = Some l ∧ build m' l = Raise e
  end.
Proof.
  induction ls as [|l ls IH]; intros model; simpl.
  - rewrite app_nil_r. split; [done|apply accepted_nil].
  - unfold mbind, Eff_bind, add at 1.
    destruct (build model l) as [[]|e] eqn:Hl.
    + specialize (IH (model ++ [l])).
      destruct (for_ ls add (model ++ [l])) as [[[]|e] m'].
      * destruct IH as [-> Hacc]. split; [by rewrite <- app_assoc|].
        by apply accepted_cons.
      * destruct IH as (k & l' & Hk & Hl'). by exists (S k), l'.
    + by exists 0, l.
Qed.

Lemma adds_accepted ls : ∀ model,
  accepted model ls → for_ ls add model = (Ok (), model ++ ls).
Proof.
  induction ls as [|l ls IH]; intros model Hacc; simpl.
  - by rewrite app_nil_r.
  - apply accepted_cons in Hacc as [Hl Hacc].
    unfold mbind, Eff_bind, add at 1. rewrite Hl.
    rewrite (IH _ Hacc). by rewrite <- app_assoc.
Qed.

(** The layers that a call of [create_model] adds, in order. *)
Definition plan (n_layers : Z) (input_shape : Z * Z * Z) (hidden_dim : Q)
    (n_out : Z) (kwargs : gmap string kwval) : list layer :=
  plan_of (int hidden_dim) (Some (input_shape.1.2, input_shape.2))
    (kwargs_get kwargs "drop_rate" (KNum (2 # 10)))
    (eq_str (kwargs_get kwargs "mode" (KStr "train")) "train")
    n_layers n_out (kwargs_get kwargs "activation" (KStr "softmax")).

(** [create_model] adds the layers of its plan one after the other. *)
Lemma create_model_eq n_layers input_shape hidden_dim n_out kwargs :
  create_model n_layers input_shape hidden_dim n_out kwargs =
    match for_ (plan n_layers input_shape hidden_dim n_out kwargs) add []
    with
    | (Ok _, model) => Ok model
    | (Raise e, _) => Raise e
    end.
Proof.
  unfold create_model, plan, plan_of. cbv zeta.
  set (drop := kwargs_get kwargs "drop_rate" _).
  set (activ := kwargs_get kwargs "activation" _).
  set (train := eq_str _ "train").
  set (hd := int hidden_dim).
  set (shape := Some (input_shape.1.2, input_shape.2)).
  match goal with
  | |- match ?body [] with _ => _ end = match for_ ?ls add [] with _ => _ end =>
      assert (∀ model, body model = for_ ls add model) as ->; [|done]
  end.
  intros model. destruct (n_layers =? 1)%Z.
  - change (LSTM hd shape false :: dr drop train ++ [Dense n_out activ])
      with (([LSTM hd shape false] ++ dr drop train) ++ [Dense n_out activ]).
    rewrite for_app. apply bind_cong; [|intros _ m; apply add_for].
    intros m. rewrite for_app.
    apply bind_cong; [apply add_for|intros _ m'; apply add_if_for].
  - change (LSTM hd shape true :: dr drop train
            ++ middle hd drop train (Z.to_nat (n_layers - 2))
            ++ [LSTM hd None false; Dense n_out activ])
      with ([LSTM hd shape true] ++ dr drop train
            ++ middle hd drop train (Z.to_nat (n_layers - 2))
            ++ [LSTM hd None false] ++ [Dense n_out activ]).
    rewrite !app_assoc. rewrite for_app.
    apply bind_cong; [|intros _ m; apply add_for].
    intros m. rewrite <- !app_assoc. rewrite for_app.
    apply bind_cong; [apply add_for|intros _ m1].
    rewrite for_app. apply bind_cong; [apply add_if_for|intros _ m2].
    rewrite for_app. apply bind_cong; [|intros _ m3; apply add_for].
    intros m3. rewrite loop_middle. unfold range. by rewrite length_seq.
Qed.

(** [create_model] returns the stack of its plan when Keras accepts
    each of its layers in turn, and raises otherwise. *)
Lemma create_model_returns n_layers input_shape hidden_dim n_out kwargs model :
  create_model n_layers input_shape hidden_dim n_out kwargs = Ok model
  ↔ model = plan n_layers input_shape hidden_dim n_out kwargs
    ∧ accepted [] (plan n_layers input_shape hidden_dim n_out kwargs).
Proof.
  rewrite create_model_eq.
  set (ls := plan n_layers input_shape hidden_dim n_out kwargs).
  split.
  - intros Hrun. pose proof (adds_spec ls []) as Hspec.
    destruct (for_ ls add []) as [[[]|e] m]; [|done].
    injection Hrun as <-. by destruct Hspec as [-> ?].
  - intros [-> Hacc]. by rewrite (adds_accepted ls [] Hacc).
Qed.

Lemma create_model_raises n_layers input_shape hidden_dim n_out kwargs e :
  create_model n_layers input_shape hidden_dim n_out kwargs = Raise e →
  ∃ model l, build model l = Raise e.
Proof.
  rewrite create_model_eq.
  set (ls := plan n_layers input_shape hidden_dim n_out kwargs).
  intros Hrun. pose proof (adds_spec ls []) as Hspec.
  destruct (for_ ls add []) as [[[]|e'] m]; [done|].
  injection Hrun as ->. destruct Hspec as (k & l & _ & Hl). by exists m, l.
Qed.

End adding.

(** Blocks made of an [LSTM] directly followed by [Dropout d]. *)
Inductive paired (d : kwval) : list layer → Prop :=
| paired_nil : paired d []
| paired_cons x l : is_lstm x → paired d l → paired d (x :: Dropout d :: l).

Lemma paired_middle hd d k : paired d (middle hd d true k).
Proof. induction k; simpl; by constructor. Qed.

Lemma paired_next d blocks : paired d blocks → ∀ tail i x,
  (blocks ++ tail) !! i = Some x → is_lstm x → i < length blocks →
  (blocks ++ tail) !! S i = Some (Dropout d).
Proof.
  induction 1 as [|y l Hy _ IH]; intros tail i x Hi Hx Hlt; simpl in *.
  - lia.
  - destruct i as [|[|i]]; simpl in *.
    + done.
    + by injection Hi as <-.
    + apply (IH tail i x); [done|done|lia].
Qed.

Lemma paired_lstm_count d blocks :
  paired d blocks →
  2 * length (filter (λ l, is_lstm l) blocks) = length blocks.
Proof.
  induction 1 as [|y l Hy _ IH]; [done|].
  rewrite filter_cons, decide_True by done.
  rewrite filter_cons. simpl in *. lia.
Qed.

(** The shape of the plan for [n_layers >= 1]. *)
Lemma plan_layers n_layers input_shape hidden_dim n_out kwargs :
  (1 ≤ n_layers)%Z →
  let model := plan n_layers input_shape hidden_dim n_out kwargs in
  let drop := kwargs_get kwargs "drop_rate" (KNum (2 # 10)) in
  let activ := kwargs_get kwargs "activation" (KStr "softmax") in
  let train := eq_str (kwargs_get kwargs "mode" (KStr "train")) "train" in
  Z.of_nat (length (filter (λ l, is_lstm l) model)) = n_layers
  ∧ (∃ body, model = body ++ [Dense n_out activ]
             ∧ Forall (λ l, is_dense l = false) body)
  ∧ (train = true →
       (∀ i x, model !! i = Some x → is_lstm x →
          (n_layers = 1%Z
           ∨ ∃ j y, i < j ∧ model !! j = Some y ∧ is_lstm y) →
          model !! S i = Some (Dropout drop))
       ∧ ((1 < n_layers)%Z →
          ∃ i x, model !! i = Some x ∧ is_lstm x
                 ∧ model !! S i = Some (Dense n_out activ)))
  ∧ (train = false → Forall (λ l, is_dropout l = false) model).
Proof.
  intros Hn model drop activ train. unfold model, plan, plan_of.
  fold drop activ train.
  set (hd := int hidden_dim).
  set (shape := Some (input_shape.1.2, input_shape.2)).
  destruct (n_layers =? 1)%Z eqn:En.
  - apply Z.eqb_eq in En. split_and!.
    + rewrite filter_cons; simpl. unfold dr.
      destruct train; simpl; by rewrite En.
    + exists (LSTM hd shape false :: dr drop train). split; [done|].
      constructor; [done|]. unfold dr. destruct train; by repeat constructor.
    + intros ->. unfold dr. split; [|lia].
      intros [|[|[|i]]] x Hi Hx _; by simplify_eq/=.
    + intros ->. unfold dr. by repeat constructor.
  - apply Z.eqb_neq in En.
    set (k := Z.to_nat (n_layers - 2)).
    assert (n_layers = Z.of_nat (S (S k))) as Hk by (unfold k; lia).
    split_and!.
    + rewrite filter_cons; simpl. rewrite !filter_app.
      rewrite !length_app, middle_lstm. unfold dr.
      destruct train; simpl; lia.
    + exists (LSTM hd shape true :: dr drop train
              ++ middle hd drop train k ++ [LSTM hd None false]).
      split.
      * simpl. by rewrite <- !app_assoc.
      * constructor; [done|]. rewrite !Forall_app. split_and!.
        -- unfold dr. destruct train; by repeat constructor.
        -- apply middle_no_dense.
        -- by repeat constructor.
    + intros ->. unfold dr.
      set (blocks := LSTM hd shape true :: Dropout drop
                     :: middle hd drop true k).
      assert (paired drop blocks) as Hp
        by (constructor; [done|apply paired_middle]).
      change (LSTM hd shape true
              :: [Dropout drop] ++ middle hd drop true k
                 ++ [LSTM hd None false; Dense n_out activ])
        with (blocks ++ [LSTM hd None false; Dense n_out activ]).
      split.
      * intros i x Hi Hx [?|(j & y & Hij & Hj & Hy)]; [lia|].
        apply (paired_next drop blocks Hp _ i x Hi Hx).
        destruct (decide (i < length blocks)) as [|Hge]; [done|].
        exfalso. rewrite lookup_app_r in Hj by lia.
        destruct (j - length blocks) as [|[|[|?]]] eqn:Ej; simpl in Hj;
          try done; try lia.
        by injection Hj as <-.
      * intros _. exists (length blocks), (LSTM hd None false). split_and!.
        -- rewrite lookup_app_r by lia. by rewrite Nat.sub_diag.
        -- done.
        -- rewrite lookup_app_r by lia.
           by replace (S (length blocks) - length blocks) with 1 by lia.
    + intros ->. unfold dr. simpl. constructor; [done|].
      rewrite Forall_app. split; [|by repeat constructor].
      generalize k. intros k'. induction k'; simpl; by constructor.
Qed.

Section layers.
Context `{KerasLayers}.

(** C9: for [n_layers >= 1], the stack of the model that
    [create_model] returns holds exactly [n_layers] LSTM layers and
    ends in its only [Dense] layer, which has [n_out] units and the
    requested activation.  In 'train' mode (the default) every LSTM of
    a single-layer model, and every LSTM but the last one of a
    multi-layer model, is directly followed by a [Dropout] layer with
    the requested rate, while the last LSTM of a multi-layer model is
    directly followed by the [Dense] layer; in any other mode the stack
    holds no [Dropout] layer.  The call returns when Keras accepts, one
    after the other, each layer that it adds; otherwise it raises the
    exception with which Keras rejects a layer. *)
Theorem create_model_layers
    (n_layers : Z) (input_shape : Z * Z * Z) (hidden_dim : Q) (n_out : Z)
    (kwargs : gmap string kwval) :
  (1 ≤ n_layers)%Z →
  let run := create_model n_layers input_shape hidden_dim n_out kwargs in
  let drop := kwargs_get kwargs "drop_rate" (KNum (2 # 10)) in
  let activ := kwargs_get kwargs "activation" (KStr "softmax") in
  let train := eq_str (kwargs_get kwargs "mode" (KStr "train")) "train" in
  (∀ model, run = Ok model →
     Z.of_nat (length (filter (λ l, is_lstm l) model)) = n_layers
     ∧ (∃ body, model = body ++ [Dense n_out activ]
                ∧ Forall (λ l, is_dense l = false) body)
     ∧ (train = true →
          (∀ i x, model !! i = Some x → is_lstm x →
             (n_layers = 1%Z
              ∨ ∃ j y, i < j ∧ model !! j = Some y ∧ is_lstm y) →
             model !! S i = Some (Dropout drop))
          ∧ ((1 < n_layers)%Z →
             ∃ i x, model !! i = Some x ∧ is_lstm x
                    ∧ model !! S i = Some (Dense n_out activ)))
     ∧ (train = false → Forall (λ l, is_dropout l = false) model))
  ∧ (accepted [] (plan n_layers input_shape hidden_dim n_out kwargs) →
     ∃ model, run = Ok model)
  ∧ (∀ e, run = Raise e → ∃ model l, build model l = Raise e).
Proof.
  intros Hn run drop activ train. split_and!.
  - intros model Hrun. apply create_model_returns in Hrun as [-> _].
    by apply plan_layers.
  - intros Hacc. eexists. by apply create_model_returns.
  - intros e. apply create_model_raises.
Qed.

End layers.

Import Toy.

Example create_model_three_layers :
  create_model 3 (1024, 100, 1)%Z (256 # 1) 40 ∅
  = Ok [LSTM 256 (Some (100, 1)%Z) true; Dropout (KNum (2 # 10));
        LSTM 256 None true; Dropout (KNum (2 # 10));
        LSTM 256 None false; Dense 40 (KStr "softmax")].
Proof. reflexivity. Qed.

Example create_model_test_mode :
  create_model 2 (1024, 100, 1)%Z (256 # 1) 40 {["mode" := KStr "test"]}
  = Ok [LSTM 256 (Some (100, 1)%Z) true; LSTM 256 None false;
        Dense 40 (KStr "softmax")].
Proof. reflexivity. Qed.

(** A number of units that is not positive is rejected. *)
Example create_model_rejected :
  create_model 1 (1024, 100, 1)%Z (-5 # 2) 3 ∅ = Raise ValueError.
Proof. reflexivity. Qed.

Lemma create_model_layers_witness :
  ∃ model,
    create_model 3 (1024, 100, 1)%Z (256 # 1) 40 ∅ = Ok model
    ∧ Z.of_nat (length (filter (λ l, is_lstm l) model)) = 3%Z
    ∧ model !! 1 = Some (Dropout (KNum (2 # 10)))
    ∧ model !! 5 = Some (Dense 40 (KStr "softmax")).
Proof.
  pose proof (create_model_layers 3 (1024, 100, 1)%Z (256 # 1) 40 ∅) as H.
  destruct H as (Hshape & _ & _); [lia|].
  eexists. split; [reflexivity|].
  destruct (Hshape _ eq_refl) as (Hcount & _).
  split; [exact Hcount|]. split; reflexivity.
Defined.

End LayersSpec.

(** ** The prediction loop of [generate_text] *)

Module SamplingSpec.
Import Py Layers Libs World Keras PyFacts.

(** Unfolds the primitive operations down to functions on the world. *)
Ltac eff_unfold :=
  unfold predict, load_weights, compile, save, new_model_of;
  unfold read, getvar, setvar, emit, print, show, warn, open_read, read_hdf5,
    write_file, new_model, get_model, put_model, new_estimator,
    get_estimator, put_estimator, randint, draw, spacy_load,
    fetch_20newsgroups;
  unfold get, modify, raise, lift;
  unfold mbind, mret, Eff_bind, Eff_ret; cbn beta iota.

Section sampling.
Context `{SpacyLib, GensimLib, SklearnLib, KerasLib}.

Lemma slice_tail {A} (l : list A) : slice l 1 (length l) = drop 1 l.
Proof.
  unfold slice. apply take_ge. rewrite length_drop. lia.
Qed.


(** One iteration: a prediction on the current window, whose argmax is
    appended to the output and to the window, which loses its head. *)
Lemma predict_step_eq m vocab st i w :
  predict_step m vocab st i w =
    (p ← predict m (scaled [pattern st] vocab);
     mret (Sampling (drop 1 (pattern st ++ [argmax p]))
                    (output st ++ [argmax p]))) w.
Proof.
  unfold predict_step. cbv zeta. unfold mbind, Eff_bind.
  destruct (predict m (scaled [pattern st] vocab) w) as [[p|e] w1]; [|done].
  by rewrite slice_tail.
Qed.

Lemma predict_step_inv m vocab st i w st' w' :
  predict_step m vocab st i w = (Ok st', w') →
  ∃ index, pattern st' = drop 1 (pattern st ++ [index])
           ∧ output st' = output st ++ [index]
           ∧ models w' = models w.
Proof.
  rewrite predict_step_eq. eff_unfold.
  destruct (models w !! m) as [mdl|]; [|done].
  destruct (forward _ _ _) as [p|e]; [|done].
  intros [= <- <-]. by exists (argmax p).
Qed.

Lemma window_invariant m vocab seed l : ∀ st0 w st w',
  foldlM (predict_step m vocab) st0 l w = (Ok st, w') →
  pattern st0 = drop (length (output st0)) (seed ++ output st0) →
  length (pattern st0) = length seed →
  pattern st = drop (length (output st)) (seed ++ output st)
  ∧ length (pattern st) = length seed
  ∧ length (output st) = length (output st0) + length l
  ∧ models w' = models w.
Proof.
  induction l as [|i l IH]; intros st0 w st w' Hrun Hpat Hlen; simpl in Hrun.
  - injection Hrun as <- <-. split_and!; [done|done|simpl; lia|done].
  - unfold mbind, Eff_bind in Hrun.
    destruct (predict_step m vocab st0 i w) as [[st1|e] w1] eqn:Hstep;
      [|done].
    apply predict_step_inv in Hstep as (index & Hp1 & Ho1 & Hm1).
    apply IH in Hrun as (Hp & Hl & Ho & Hm).
    + split_and!; [done|done| |congruence].
      rewrite Ho, Ho1, length_app. simpl. lia.
    + rewrite Hp1, Ho1, Hpat, length_app. simpl.
      rewrite app_assoc.
      rewrite <- (drop_app_le (seed ++ output st0) [index]) by
        (rewrite length_app; lia).
      rewrite drop_drop. f_equal; lia.
    + rewrite Hp1, length_drop, length_app. simpl. lia.
Qed.

Lemma sampling_total m vocab mdl l : ∀ st0 w,
  models w !! m = Some mdl →
  (∀ x, ∃ p, forward (layers mdl) (params mdl) x = Ok p) →
  ∃ st w', foldlM (predict_step m vocab) st0 l w = (Ok st, w').
Proof.
  induction l as [|i l IH]; intros st0 w Hm Hfw; simpl.
  - by eexists _, _.
  - unfold mbind at 1, Eff_bind at 1.
    destruct (Hfw (scaled [pattern st0] vocab)) as [p Hp].
    assert (∃ st1 w1, predict_step m vocab st0 i w = (Ok st1, w1)
                      ∧ models w1 = models w) as (st1 & w1 & -> & Hm1).
    { rewrite predict_step_eq. eff_unfold. rewrite Hm, Hp.
      by eexists _, _. }
    apply IH; [by rewrite Hm1|done].
Qed.

(** C4: the sampling window of [generate_text] keeps the length of the
    seed.  After any number [k] of completed iterations of the loop,
    started on the seed with an empty output, the window has the length
    of the seed and is made of the last entries of the seed followed by
    the [k] indices predicted so far; the next iteration predicts on
    that window, appends the argmax of the prediction to the output and
    to the window, and drops the oldest entry of the window.  When the
    model's [predict] does not fail the loop completes its 250
    iterations. *)
Theorem sampling_window_constant (m vocab : nat) (seed : list nat) (w : world) :
  (∀ k st w',
     foldlM (predict_step m vocab) (Sampling seed []) (seq 0 k) w
       = (Ok st, w') →
     length (pattern st) = length seed
     ∧ length (output st) = k
     ∧ pattern st = drop k (seed ++ output st)
     ∧ ∀ i, predict_step m vocab st i w' =
         (p ← predict m (scaled [pattern st] vocab);
          mret (Sampling (drop 1 (pattern st ++ [argmax p]))
                         (output st ++ [argmax p]))) w')
  ∧ (∀ mdl,
       models w !! m = Some mdl →
       (∀ x, ∃ p, forward (layers mdl) (params mdl) x = Ok p) →
       ∃ st w',
         foldlM (predict_step m vocab) (Sampling seed []) (range 250) w
           = (Ok st, w')
         ∧ length (pattern st) = length seed
         ∧ length (output st) = 250).
Proof.
  split.
  - intros k st w' Hrun.
    apply (window_invariant m vocab seed) in Hrun as (Hp & Hl & Ho & _);
      [|by rewrite app_nil_r|done].
    simpl in Ho. rewrite length_seq in Ho.
    split_and!; [done|done|by rewrite <- Ho|].
    intros i. apply predict_step_eq.
  - intros mdl Hm Hfw.
    destruct (sampling_total m vocab mdl (range 250) (Sampling seed []) w
                Hm Hfw) as (st & w' & Hrun).
    exists st, w'. split; [done|].
    apply (window_invariant m vocab seed) in Hrun as (_ & Hl & Ho & _);
      [|by rewrite app_nil_r|done].
    split; [done|]. rewrite Ho. unfold range. by rewrite length_seq.
Qed.

End sampling.

Import Toy.

(** Three iterations on a three-entry seed with the toy libraries. *)
Definition toy_sampling_world : world :=
  with_models <[0 := Model [] 1 None]> (toy_world "" 0).

Definition toy_sampling_run : result sampling * world :=
  Eval vm_compute in
    foldlM (predict_step 0 4) (Sampling [1; 2; 3] []) (seq 0 3)
           toy_sampling_world.

Definition toy_sampling_state : sampling :=
  Eval vm_compute in
    match toy_sampling_run.1 with
    | Ok st => st
    | Raise _ => Sampling [] []
    end.

Lemma sampling_window_constant_witness :
  foldlM (predict_step 0 4) (Sampling [1; 2; 3] []) (seq 0 3)
         toy_sampling_world
    = (Ok toy_sampling_state, toy_sampling_run.2)
  ∧ length (pattern toy_sampling_state) = 3
  ∧ length (output toy_sampling_state) = 3.
Proof.
  assert (foldlM (predict_step 0 4) (Sampling [1; 2; 3] []) (seq 0 3)
                 toy_sampling_world
          = (Ok toy_sampling_state, toy_sampling_run.2)) as Hrun
    by reflexivity.
  split; [exact Hrun|].
  destruct (proj1 (sampling_window_constant 0 4 [1; 2; 3] toy_sampling_world)
              3 toy_sampling_state toy_sampling_run.2 Hrun)
    as (Hl & Ho & _).
  split; [exact Hl|exact Ho].
Defined.

End SamplingSpec.

(** ** Checkpoint files: [train] writes them, [generate_text] reads one *)

Module CheckpointSpec.
Import Py Layers Libs World Keras Notebook PyFacts SamplingSpec.

Section checkpoints.
Context `{SpacyLib, GensimLib, SklearnLib, KerasLib}.

(** The template of cell 52 and the path it formats to. *)
Definition train_template : list piece :=
  [Lit "Weights/weights-improvement-"; Epoch_02d; Lit "-"; Key_4f "loss";
   Lit ".hdf5"].

Definition ckpt_path (n : nat) (l : loss) : string :=
  "Weights/weights-improvement-" +:+ format_02d n +:+ "-" +:+ format_4f l
  +:+ ".hdf5".

Definition train_checkpoint (best : loss) : checkpoint :=
  Checkpoint train_template "loss" true Min best.


Lemma format_train_template n l :
  format train_template n {["loss" := l]} = Ok (ckpt_path n l).
Proof.
  unfold format, train_template. simpl. unfold getitem.
  rewrite lookup_singleton_eq. reflexivity.
Qed.



(** What one run of the callback does. *)
Lemma on_epoch_end_train m e l best mdl w :
  models w !! m = Some mdl →
  on_epoch_end m e {["loss" := l]} (train_checkpoint best) w =
    if less l best then
      if writable w (ckpt_path (e + 1) l)
      then (Ok (train_checkpoint l),
            with_out (λ o, o ++ [Saved (ckpt_path (e + 1) l)])
              (with_files <[ckpt_path (e + 1) l := Hdf5 (params mdl)]> w))
      else (Raise (OSError (ckpt_path (e + 1) l)), w)
    else (Ok (train_checkpoint best), w).
Proof.
  intros Hm. unfold on_epoch_end, train_checkpoint. simpl.
  rewrite format_train_template. rewrite lookup_singleton_eq.
  unfold monitor_op. simpl. unfold save. eff_unfold.
  destruct (less l best); [|done].
  rewrite Hm. by destruct (writable w _).
Qed.

(** One epoch under the checkpoint of cell 52. *)
Lemma epoch_step_train m X Y bs e best mdl w :
  models w !! m = Some mdl →
  epoch_step m X Y bs [train_checkpoint best] e w =
    match fit_epoch (layers mdl) (params mdl) X Y bs with
    | Raise err => (Raise err, w)
    | Ok r =>
        let w1 := with_out (λ o, o ++ [EpochEnd e r.2])
                    (with_models
                       <[m := Model (layers mdl) r.1 (compiled mdl)]> w) in
        if less r.2 best then
          if writable w (ckpt_path (e + 1) r.2)
          then (Ok [train_checkpoint r.2],
                with_out (λ o, o ++ [Saved (ckpt_path (e + 1) r.2)])
                  (with_files <[ckpt_path (e + 1) r.2 := Hdf5 r.1]> w1))
          else (Raise (OSError (ckpt_path (e + 1) r.2)), w1)
        else (Ok [train_checkpoint best], w1)
    end.
Proof.
  intros Hm. unfold epoch_step. eff_unfold. rewrite Hm.
  destruct (fit_epoch _ _ _ _ _) as [r|err]; [|done]. cbv zeta.
  set (w1 := with_out _ (with_models _ w)).
  change (mapM (on_epoch_end m e {["loss" := r.2]}) [train_checkpoint best] w1)
    with ((cb ← on_epoch_end m e {["loss" := r.2]} (train_checkpoint best);
           cbs ← mapM (on_epoch_end m e {["loss" := r.2]}) [];
           mret (cb :: cbs)) w1).
  unfold mbind at 1, Eff_bind at 1.
  assert (models w1 !! m = Some (Model (layers mdl) r.1 (compiled mdl)))
    as Hm1 by (unfold w1; simpl; apply lookup_insert_eq).
  rewrite (on_epoch_end_train m e r.2 best _ w1 Hm1).
  destruct (less r.2 best); [|done].
  change (writable w1) with (writable w).
  by destruct (writable w _).
Qed.





(** *** [generate_text] *)

(** Files and models are as before and the trace has only grown. *)
Definition quiet (w w' : world) : Prop :=
  files w' = files w ∧ models w' = models w ∧ ∃ tr, out w' = out w ++ tr.

#[local] Instance quiet_preorder : PreOrder quiet.
Proof.
  split.
  - intros w. split_and!; [done|done|]. exists []. by rewrite app_nil_r.
  - intros w1 w2 w3 (Hf1 & Hm1 & tr1 & Ho1) (Hf2 & Hm2 & tr2 & Ho2).
    split_and!; [congruence|congruence|].
    exists (tr1 ++ tr2). by rewrite Ho2, Ho1, app_assoc.
Qed.





(** What [generate_text] does once the weights are loaded. *)
Definition sample (m : nat) (X : list (list nat))
    (ix_to_char : gmap nat ascii) (vocab_size : nat) : Eff world () :=
  start ← randint 0 (Z.of_nat (length X) - 1);
  pattern ← lift (index X (Z.to_nat start));
  print "Seed:" ;;
  seed ← lift (mapM (getitem ix_to_char) pattern);
  print_quoted (join seed) ;;
  st ← foldlM (predict_step m vocab_size) (Sampling pattern []) (range 250);
  print "Predictions" ;;
  text ← lift (mapM (getitem ix_to_char) (output st));
  print_quoted (join text).


Lemma generate_text_eq m X filename i2c vocab :
  generate_text m X filename i2c vocab =
    (load_weights m filename ;;
     compile m (KStr "categorical_crossentropy") (KStr "adam") ;;
     sample m X i2c vocab).
Proof. reflexivity. Qed.




End checkpoints.

Import Toy.

Definition toy_training_world : world :=
  with_models <[0 := Model [] 0 None]> (toy_world "" 0).

(** Two epochs on the toy libraries: the loss improves in the first
    epoch only, and one checkpoint is written. *)
Example toy_train_trace :
  out (train 0 [[1; 2]] [[0; 1]] 2 512 4 ∅ toy_training_world).2
  = [EpochEnd 0 5; Saved "Weights/weights-improvement-01-5.0000.hdf5";
     EpochEnd 1 7].
Proof. reflexivity. Qed.


End CheckpointSpec.

(** ** Exceptions are never caught *)

Module FailureSpec.
Import Py Layers Libs World Keras Sklearn Notebook PyFacts SamplingSpec
  CheckpointSpec.

(** A location that [fresh] gives differs from those in use. *)
Ltac in_use :=
  repeat (apply lookup_insert_is_Some'; first [left; reflexivity|right]).

Ltac fresh_ne :=
  let E := fresh in
  lazymatch goal with
  | |- fresh (dom ?M) ≠ _ =>
      intros E; apply (is_fresh (dom M)); rewrite E; apply elem_of_dom;
      in_use
  | |- _ ≠ fresh (dom ?M) =>
      intros E; apply (is_fresh (dom M)); rewrite <- E; apply elem_of_dom;
      in_use
  end.

(** Looking up what a chain of assignments has bound. *)
Ltac lookups :=
  repeat first [ rewrite lookup_insert_eq
               | rewrite lookup_insert_ne by first [done|fresh_ne] ].


Section failures.
Context `{SpacyLib, GensimLib, SklearnLib, KerasLib}.



(** The path that cells 5 and 55 open. *)
Definition corpus_path : string :=
  String.concat os_sep [gensim_path; "test"; "test_data"] +:+ os_sep
  +:+ "lee_background.cor".

(** *** Cell 3: warnings *)


(** *** Cells 5 and 55: the corpus file *)



(** *** Cells 7 to 35: spaCy and gensim *)






(** *** Cells 40 to 46: scikit-learn *)













(** *** Cells 51 and 58: [create_model] *)



(** *** Cells 52 and 59: [train] *)







(** *** Cells 54, 60 and 61: [generate_text] *)








End failures.

Import Toy.



End FailureSpec.


(** ** The classification demo: which fit the test features go through *)

Module ClassificationSpec.
Import Py Libs World Sklearn Notebook PyFacts SamplingSpec.

Section refit.
Context `{SpacyLib, GensimLib, SklearnLib, KerasLib}.

(** [fit_transform] on the pipeline of cell 40 replaces whatever the
    reduction step had fitted before by a fit on its argument. *)
Lemma fit_transform_refits lsa svd norm n old X p drawn X' w :
  estimators w !! lsa = Some (Pipeline [svd; norm]) →
  estimators w !! svd = Some (TruncatedSVD n old) →
  estimators w !! norm = Some Normalizer →
  svd ≠ norm →
  svd_fit n X (λ k, rng w (rng_pos w + k)) = (Ok p, drawn) →
  svd_transform p X = Ok X' →
  fit_transform lsa X w =
    (Ok (normalize X'),
     with_estimators <[svd := TruncatedSVD n (Some p)]>
       (with_rng_pos (rng_pos w + drawn) w)).
Proof.
  intros Hlsa Hsvd Hnorm Hne Hfit Htr.
  unfold fit_transform. eff_unfold. rewrite Hlsa. simpl.
  unfold mbind, Eff_bind, step_fit_transform. eff_unfold.
  rewrite Hsvd, Hfit. simpl. rewrite Htr. simpl.
  rewrite lookup_insert_ne by done. by rewrite Hnorm.
Qed.

(** [transform] on the same pipeline uses what was fitted before. *)
Lemma transform_reuses lsa svd norm n p X X' w :
  estimators w !! lsa = Some (Pipeline [svd; norm]) →
  estimators w !! svd = Some (TruncatedSVD n (Some p)) →
  estimators w !! norm = Some Normalizer →
  svd_transform p X = Ok X' →
  transform lsa X w = (Ok (normalize X'), w).
Proof.
  intros Hlsa Hsvd Hnorm Htr.
  unfold transform. eff_unfold. rewrite Hlsa. simpl.
  unfold mbind, Eff_bind, step_transform. eff_unfold.
  rewrite Hsvd, Htr. simpl. by rewrite Hnorm.
Qed.

End refit.

Import Toy.

(** The session after cells 39 and 40, after cell 41, and after cell 44,
    on the toy libraries: two training documents of 1 and 3 characters,
    two test documents of 10 and 20 characters. *)
Definition after_cell_40 : world :=
  (run_cells [cell_39; cell_40] (toy_world "" 0)).2.
Definition after_cell_41 : world := (run_cell cell_41 after_cell_40).2.
Definition after_cell_44 : world := (run_cell cell_44 after_cell_41).2.

(** C1 fails on the code: cell 41 ends with [lsa.fit_transform(X_test)].
    The vectorizer is the one fitted on the training documents, but the
    reduction is fitted again, on the test features: its parameter goes
    from 2 (the training fit) to 15, the test features become [-5; 5]
    where the training fit gives [8; 18], and the first test document is
    classified 0 instead of 1. *)
Theorem lsa_refit_on_test :
  estimators after_cell_40 !! 1 = Some (TruncatedSVD 5 (Some 2%Z))
  ∧ estimators after_cell_40 !! 0 = Some (TfidfVectorizer (Some ()))
  ∧ estimators after_cell_41 !! 0 = Some (TfidfVectorizer (Some ()))
  ∧ estimators after_cell_41 !! 1 = Some (TruncatedSVD 5 (Some 15%Z))
  ∧ globals after_cell_41 !! "X_test" = Some (VMatrix [-5; 5]%Z)
  ∧ (transform 3 [10; 20]%Z after_cell_40).1 = Ok [8; 18]%Z
  ∧ globals after_cell_44 !! "y_pred_NB" = Some (VIds [0; 1])
  ∧ gnb_predict () [8; 18]%Z = Ok [1; 1].
Proof. split_and!; reflexivity. Qed.

End ClassificationSpec.

(** ** What the three demonstrations share *)

Module IsolationSpec.
Import Py Corpus Chars Layers Libs World Keras Sklearn Notebook.
Import PyFacts SamplingSpec CheckpointSpec FailureSpec.

(** What belongs to one demonstration: the variables that its cells
    assign, and, for text generation, the weight files. *)
Definition private_vars (b : branch) : list string :=
  match b with
  | Setup => []
  | Topic =>
      ["test_data_dir"; "lee_train_file"; "text"; "nlp"; "my_stop_words";
       "stopword"; "lexeme"; "doc"; "sent"; "token"; "ent"; "chunk"; "texts";
       "article"; "w"; "bigram"; "dictionary"; "corpus"; "ldamodel"]
  | Classification =>
      ["categories"; "data_train"; "n_components"; "labels"; "true_k";
       "vectorizer"; "X_train"; "svd"; "normalizer"; "lsa"; "data_test";
       "target_names"; "y_train"; "y_test"; "X_test"; "gnb"; "y_pred_NB";
       "svm"; "y_pred_SVM"]
  | Generation =>
      ["SEQ_LENGTH"; "test_x"; "test_y"; "create_functional_model";
       "create_model"; "train"; "generate_text"; "test_data_dir";
       "lee_train_file"; "data"; "chars"; "char_to_int"; "ix_to_char";
       "vocab_size"; "list_X"; "list_Y"; "i"; "seq_in"; "seq_out";
       "n_patterns"; "X"; "Y"; "model"]
  end.

Definition private_var (b : branch) (x : string) : bool :=
  existsb (String.eqb x) (private_vars b).

Definition is_hdf5 (path : string) : bool :=
  bool_decide (chars_of_str ".hdf5" `suffix_of` chars_of_str path).

Definition private_file (b : branch) (path : string) : bool :=
  match b with
  | Generation => is_hdf5 path
  | _ => false
  end.

#[global] Instance branch_eq_dec : EqDecision branch.
Proof. solve_decision. Defined.

Section isolation.
Context `{SpacyLib, GensimLib, SklearnLib, KerasLib}.

(** Two sessions agree outside of demonstration [b]: same values for
    the variables that are not private to [b], same other files, the
    same random source, and the same objects and external data except
    for those that only [b] uses.  How far the random source has been
    read is not part of it: see [synced]. *)
Record agree (b : branch) (w1 w2 : world) : Prop := Agree {
  agree_globals :
    ∀ x, private_var b x = false → globals w1 !! x = globals w2 !! x;
  agree_files :
    ∀ path, private_file b path = false → files w1 !! path = files w2 !! path;
  agree_writable : ∀ path, writable w1 path = writable w2 path;
  agree_models : b ≠ Generation → models w1 = models w2;
  agree_rng : rng w1 = rng w2;
  agree_estimators : b ≠ Classification → estimators w1 = estimators w2;
  agree_newsgroups :
    b ≠ Classification → ∀ s c, newsgroups w1 s c = newsgroups w2 s c;
  agree_spacy : b ≠ Topic → spacy_data w1 = spacy_data w2;
  agree_warnings : warnings_ignored w1 = warnings_ignored w2
}.

#[global] Instance agree_equiv b : Equivalence (agree b).
Proof.
  split.
  - intros w. by constructor.
  - intros w1 w2 [Hg Hf Hw Hm Hr He Hn Hs Hi].
    constructor; intros.
    + symmetry. by apply Hg.
    + symmetry. by apply Hf.
    + symmetry. apply Hw.
    + symmetry. by apply Hm.
    + by symmetry.
    + symmetry. by apply He.
    + symmetry. by apply Hn.
    + symmetry. by apply Hs.
    + symmetry. apply Hi.
  - intros w1 w2 w3 [Hg Hf Hw Hm Hr He Hn Hs Hi]
                    [Hg' Hf' Hw' Hm' Hr' He' Hn' Hs' Hi'].
    constructor; intros.
    + etrans; [by apply Hg|by apply Hg'].
    + etrans; [by apply Hf|by apply Hf'].
    + etrans; [apply Hw|apply Hw'].
    + etrans; [by apply Hm|by apply Hm'].
    + by etrans.
    + etrans; [by apply He|by apply He'].
    + etrans; [by apply Hn|by apply Hn'].
    + etrans; [by apply Hs|by apply Hs'].
    + etrans; [apply Hi|apply Hi'].
Qed.

(** *** Cells that only touch what is private to [b] *)

Definition confined {A} (b : branch) (c : Eff world A) : Prop :=
  preserves (agree b) c.

Lemma agree_out b w f : agree b w (with_out f w).
Proof. by constructor. Qed.

Lemma agree_setvar b x v w :
  private_var b x = true → agree b w (with_globals <[x := v]> w).
Proof.
  intros Hx. constructor; try done. simpl. intros y Hy.
  rewrite lookup_insert_ne; [done|]. intros ->. congruence.
Qed.

Lemma confined_getvar b x : confined b (getvar x).
Proof.
  intros w. unfold getvar. destruct (globals w !! x); reflexivity.
Qed.

Lemma confined_read {A} b x (cast : value → result A) : confined b (read x cast).
Proof.
  unfold read. apply preserves_bind; [apply _|apply confined_getvar|].
  intros v. apply preserves_lift, _.
Qed.

Lemma confined_defined b x f : confined b (defined x f).
Proof.
  unfold defined. apply preserves_bind; [apply _|apply confined_getvar|].
  intros [];
    first [apply preserves_raise, _
          | destruct f, f0; first [apply preserves_ret, _|apply preserves_raise, _]].
Qed.

Lemma confined_setvar b x v :
  private_var b x = true → confined b (setvar x v).
Proof. intros Hx w. by apply agree_setvar. Qed.

Lemma confined_setvar_opt b x v :
  private_var b x = true → confined b (setvar_opt x v).
Proof.
  intros Hx. destruct v; [by apply confined_setvar|apply preserves_ret, _].
Qed.

Lemma confined_emit b e : confined b (emit e).
Proof. intros w. apply agree_out. Qed.

Lemma confined_warn b msg : confined b (warn msg).
Proof.
  intros w. unfold warn. destruct (warnings_ignored w); [reflexivity|].
  apply agree_out.
Qed.

Lemma confined_open_read b path : confined b (open_read path).
Proof.
  intros w. unfold open_read.
  destruct (files w !! path) as [[]|]; simpl; try reflexivity.
  apply agree_out.
Qed.

Lemma confined_read_hdf5 b path : confined b (read_hdf5 path).
Proof.
  intros w. unfold read_hdf5.
  destruct (files w !! path) as [[]|]; simpl; try reflexivity.
  apply agree_out.
Qed.

Lemma confined_write_file b path f :
  private_file b path = true → confined b (write_file path f).
Proof.
  intros Hp w. unfold write_file. destruct (writable w path); [|reflexivity].
  constructor; try done. simpl. intros p Hp'.
  rewrite lookup_insert_ne; [done|]. intros ->. congruence.
Qed.

Lemma confined_spacy_load b name : confined b (spacy_load name).
Proof.
  intros w. unfold spacy_load. destruct (spacy_data w !! name); reflexivity.
Qed.

Lemma confined_fetch b subset cats : confined b (fetch_20newsgroups subset cats).
Proof. intros w. reflexivity. Qed.

Lemma confined_get_model b m : confined b (get_model m).
Proof.
  intros w. unfold get_model. destruct (models w !! m); reflexivity.
Qed.

Lemma confined_put_model m mdl : confined Generation (put_model m mdl).
Proof. intros w. by constructor. Qed.

Lemma confined_new_model mdl : confined Generation (new_model mdl).
Proof. intros w. by constructor. Qed.

(** Reading the random source moves its position only. *)
Lemma confined_randint b lo hi : confined b (randint lo hi).
Proof.
  intros w. unfold randint. case_decide; [|reflexivity].
  case_decide; [reflexivity|]. by constructor.
Qed.

Lemma confined_draw {A} b (call : (nat → nat) → result A * nat) :
  confined b (draw call).
Proof. intros w. unfold draw. by constructor. Qed.

Lemma confined_get_estimator b loc : confined b (get_estimator loc).
Proof.
  intros w. unfold get_estimator. destruct (estimators w !! loc); reflexivity.
Qed.

Lemma confined_put_estimator loc e :
  confined Classification (put_estimator loc e).
Proof. intros w. by constructor. Qed.

Lemma confined_new_estimator e : confined Classification (new_estimator e).
Proof. intros w. by constructor. Qed.

(** *** Cells that read nothing private to [b] *)

(** Two sessions are in step when they have read the random source
    equally far and have shown the same events. *)
Definition synced (w1 w2 : world) : Prop :=
  rng_pos w1 = rng_pos w2 ∧ out w1 = out w2.

(** Run from two sessions that agree outside of [b] and are in step,
    [c] has the same outcome and leaves sessions that agree outside of
    [b] and are in step. *)
Definition blind {A} (b : branch) (c : Eff world A) : Prop :=
  ∀ w1 w2, agree b w1 w2 → synced w1 w2 →
    (c w1).1 = (c w2).1 ∧ agree b (c w1).2 (c w2).2
    ∧ synced (c w1).2 (c w2).2.

Lemma blind_ret {A} b (a : A) : blind b (mret a).
Proof. by intros w1 w2 Ha Ho. Qed.

Lemma blind_raise {A} b e : blind b (raise e : Eff world A).
Proof. by intros w1 w2 Ha Ho. Qed.

Lemma blind_lift {A} b (r : result A) : blind b (lift r).
Proof. by intros w1 w2 Ha Ho. Qed.

Lemma blind_bind {A B} b (c : Eff world A) (k : A → Eff world B) :
  blind b c → (∀ a, blind b (k a)) → blind b (c ≫= k).
Proof.
  intros Hc Hk w1 w2 Ha Ho. unfold mbind, Eff_bind.
  destruct (Hc w1 w2 Ha Ho) as (Hr & Ha' & Ho').
  destruct (c w1) as [r1 w1'], (c w2) as [r2 w2']. simpl in *. subst r2.
  destruct r1 as [a|e]; [by apply Hk|done].
Qed.

Lemma blind_for {A} b (l : list A) (body : A → Eff world ()) :
  (∀ a, blind b (body a)) → blind b (for_ l body).
Proof.
  intros Hb. induction l as [|a l IH]; simpl.
  - apply blind_ret.
  - apply blind_bind; [apply Hb|by intros _].
Qed.

Lemma blind_foldlM {A St} b (body : St → A → Eff world St) l :
  (∀ st a, blind b (body st a)) → ∀ st, blind b (foldlM body st l).
Proof.
  intros Hb. induction l as [|a l IH]; intros st; simpl.
  - apply blind_ret.
  - apply blind_bind; [apply Hb|apply IH].
Qed.

Lemma blind_mapM {A B} b (f : A → Eff world B) l :
  (∀ a, blind b (f a)) → blind b (mapM f l).
Proof.
  intros Hf. induction l as [|a l IH].
  - apply blind_ret.
  - change (mapM f (a :: l))
      with (y ← f a; ys ← mapM f l; mret (y :: ys)).
    apply blind_bind; [apply Hf|]. intros y.
    apply blind_bind; [apply IH|]. intros ys. apply blind_ret.
Qed.

Lemma blind_getvar b x : private_var b x = false → blind b (getvar x).
Proof.
  intros Hx w1 w2 Ha Ho. unfold getvar.
  rewrite (agree_globals _ _ _ Ha x Hx).
  by destruct (globals w2 !! x).
Qed.

Lemma blind_read {A} b x (cast : value → result A) :
  private_var b x = false → blind b (read x cast).
Proof.
  intros Hx. unfold read. apply blind_bind; [by apply blind_getvar|].
  intros v. apply blind_lift.
Qed.

Lemma blind_defined b x f : private_var b x = false → blind b (defined x f).
Proof.
  intros Hx. unfold defined. apply blind_bind; [by apply blind_getvar|].
  intros [];
    first [apply blind_raise
          | destruct f, f0; first [apply blind_ret|apply blind_raise]].
Qed.

Lemma agree_setvar_both b x v w1 w2 :
  agree b w1 w2 →
  agree b (with_globals <[x := v]> w1) (with_globals <[x := v]> w2).
Proof.
  intros [Hg Hf Hw Hm Hr He Hn Hs Hi]. constructor; try done.
  simpl. intros y Hy. destruct (decide (x = y)) as [->|Hne].
  - by rewrite !lookup_insert_eq.
  - rewrite !lookup_insert_ne by done. by apply Hg.
Qed.

Lemma blind_setvar b x v : blind b (setvar x v).
Proof.
  intros w1 w2 Ha Ho. split; [done|]. split; [|done].
  by apply agree_setvar_both.
Qed.

Lemma blind_setvar_opt b x v : blind b (setvar_opt x v).
Proof. destruct v; [apply blind_setvar|apply blind_ret]. Qed.

Lemma agree_with_out_both b f w1 w2 :
  agree b w1 w2 → agree b (with_out f w1) (with_out f w2).
Proof. intros []. by constructor. Qed.

Lemma synced_with_out f w1 w2 :
  synced w1 w2 → synced (with_out f w1) (with_out f w2).
Proof. intros [Hp Ho]. split; [done|]. simpl. by rewrite Ho. Qed.

Lemma blind_emit b e : blind b (emit e).
Proof.
  intros w1 w2 Ha Ho. split; [done|]. split.
  - by apply agree_with_out_both.
  - by apply synced_with_out.
Qed.

Lemma blind_warn b msg : blind b (warn msg).
Proof.
  intros w1 w2 Ha Ho. unfold warn. rewrite (agree_warnings _ _ _ Ha).
  destruct (warnings_ignored w2); [done|]. by apply blind_emit.
Qed.

Lemma blind_ignore_warnings b : blind b (modify (with_warnings_ignored true)).
Proof.
  intros w1 w2 [] Ho. split; [done|]. split; [|done]. by constructor.
Qed.

Lemma blind_open_read b path :
  private_file b path = false → blind b (open_read path).
Proof.
  intros Hp w1 w2 Ha Ho. unfold open_read.
  rewrite (agree_files _ _ _ Ha path Hp).
  destruct (files w2 !! path) as [[]|]; simpl; try done.
  split; [done|].
  split; [by apply agree_with_out_both|by apply synced_with_out].
Qed.

Lemma blind_read_hdf5 b path :
  private_file b path = false → blind b (read_hdf5 path).
Proof.
  intros Hp w1 w2 Ha Ho. unfold read_hdf5.
  rewrite (agree_files _ _ _ Ha path Hp).
  destruct (files w2 !! path) as [[]|]; simpl; try done.
  split; [done|].
  split; [by apply agree_with_out_both|by apply synced_with_out].
Qed.

Lemma blind_write_file b path f : blind b (write_file path f).
Proof.
  intros w1 w2 Ha Ho. unfold write_file.
  rewrite (agree_writable _ _ _ Ha path).
  destruct (writable w2 path); [|done]. simpl.
  split; [done|].
  split; [|by apply (synced_with_out _ (with_files _ w1) (with_files _ w2))].
  destruct Ha as [Hg Hf Hw Hm Hr He Hn Hs Hi]. constructor; try done.
  simpl. intros p Hp. destruct (decide (path = p)) as [->|Hne].
  - by rewrite !lookup_insert_eq.
  - rewrite !lookup_insert_ne by done. by apply Hf.
Qed.

Lemma blind_get_model b m : b ≠ Generation → blind b (get_model m).
Proof.
  intros Hb w1 w2 Ha Ho. unfold get_model.
  rewrite (agree_models _ _ _ Ha Hb). by destruct (models w2 !! m).
Qed.

Lemma blind_put_model b m mdl : b ≠ Generation → blind b (put_model m mdl).
Proof.
  intros Hb w1 w2 [Hg Hf Hw Hm Hr He Hn Hs Hi] Ho.
  split; [done|]. split; [|done]. constructor; try done.
  intros _. simpl. by rewrite Hm.
Qed.

Lemma blind_new_model b mdl : b ≠ Generation → blind b (new_model mdl).
Proof.
  intros Hb w1 w2 [Hg Hf Hw Hm Hr He Hn Hs Hi] Ho. unfold new_model.
  rewrite (Hm Hb). split; [done|]. split; [|done]. constructor; try done.
  intros _. simpl. by rewrite Hm.
Qed.

(** In step, two sessions read the same values from the random
    source, and as many. *)
Lemma blind_randint b lo hi : blind b (randint lo hi).
Proof.
  intros w1 w2 Ha [Hp Ho]. unfold randint.
  pose proof (agree_rng _ _ _ Ha) as Hr.
  case_decide; [|by split]. simpl. rewrite Hp, Hr. split; [done|].
  case_decide; [by split|]. split; [|by split].
  destruct Ha. by constructor.
Qed.

Lemma blind_draw {A} b (call : (nat → nat) → result A * nat) :
  blind b (draw call).
Proof.
  intros w1 w2 Ha [Hp Ho]. unfold draw. cbv zeta.
  pose proof (agree_rng _ _ _ Ha) as Hr. simpl. rewrite Hp, Hr.
  split; [done|]. split; [|by split]. destruct Ha. by constructor.
Qed.

Lemma blind_get_estimator b loc :
  b ≠ Classification → blind b (get_estimator loc).
Proof.
  intros Hb w1 w2 Ha Ho. unfold get_estimator.
  rewrite (agree_estimators _ _ _ Ha Hb). by destruct (estimators w2 !! loc).
Qed.

Lemma blind_put_estimator b loc e :
  b ≠ Classification → blind b (put_estimator loc e).
Proof.
  intros Hb w1 w2 [Hg Hf Hw Hm Hr He Hn Hs Hi] Ho.
  split; [done|]. split; [|done]. constructor; try done.
  intros _. simpl. by rewrite He.
Qed.

Lemma blind_new_estimator b e :
  b ≠ Classification → blind b (new_estimator e).
Proof.
  intros Hb w1 w2 [Hg Hf Hw Hm Hr He Hn Hs Hi] Ho. unfold new_estimator.
  rewrite (He Hb). split; [done|]. split; [|done]. constructor; try done.
  intros _. simpl. by rewrite He.
Qed.

Lemma blind_spacy_load b name : b ≠ Topic → blind b (spacy_load name).
Proof.
  intros Hb w1 w2 Ha Ho. unfold spacy_load.
  rewrite (agree_spacy _ _ _ Ha Hb). by destruct (spacy_data w2 !! name).
Qed.

Lemma blind_fetch b subset cats :
  b ≠ Classification → blind b (fetch_20newsgroups subset cats).
Proof.
  intros Hb w1 w2 Ha Ho. unfold fetch_20newsgroups. simpl.
  by rewrite (agree_newsgroups _ _ _ Ha Hb).
Qed.

(** Programs that are equal on every session are blind together. *)
Lemma blind_ext {A} b (c c' : Eff world A) :
  (∀ w, c w = c' w) → blind b c' → blind b c.
Proof. intros Heq Hc w1 w2 Ha Ho. rewrite !Heq. by apply Hc. Qed.

(** *** The corpus is not a weight file, checkpoints are *)

Lemma chars_of_str_app a b :
  chars_of_str (a +:+ b) = chars_of_str a ++ chars_of_str b.
Proof.
  induction a as [|c a IH]; [done|].
  change (String c a +:+ b) with (String c (a +:+ b)).
  unfold chars_of_str in *. simpl. by rewrite IH.
Qed.

Lemma is_hdf5_ckpt n l : is_hdf5 (ckpt_path n l) = true.
Proof.
  unfold is_hdf5, ckpt_path. apply bool_decide_eq_true_2.
  rewrite !chars_of_str_app, !app_assoc. by eexists.
Qed.

Lemma not_hdf5_corpus : is_hdf5 corpus_path = false.
Proof.
  unfold is_hdf5, corpus_path. apply bool_decide_eq_false_2.
  intros [k Hk]. rewrite chars_of_str_app in Hk.
  apply (f_equal last) in Hk. rewrite !last_app in Hk. by simpl in Hk.
Qed.

(** The two assignments and the read of cells 5 and 55 read no
    variable that was bound before. *)
Lemma read_corpus_eq w :
  read_corpus w =
    (setvar "test_data_dir"
       (VStr (String.concat os_sep [gensim_path; "test"; "test_data"])) ;;
     setvar "lee_train_file" (VStr corpus_path) ;;
     open_read corpus_path) w.
Proof.
  unfold read_corpus, locate_corpus. eff_unfold. simpl.
  rewrite lookup_insert_eq. simpl. by rewrite lookup_insert_eq.
Qed.

Lemma blind_read_corpus b : blind b read_corpus.
Proof.
  apply (blind_ext b _ _ read_corpus_eq).
  apply blind_bind; [apply blind_setvar|intros _].
  apply blind_bind; [apply blind_setvar|intros _].
  apply blind_open_read.
  destruct b; try reflexivity. apply not_hdf5_corpus.
Qed.

(** *** [train] touches models and checkpoint files only *)

Lemma agree_generation_models f g w :
  agree Generation w (with_out f (with_models g w)).
Proof. by constructor. Qed.

Lemma agree_generation_saved f g path content w :
  is_hdf5 path = true →
  agree Generation w
    (with_out f (with_files <[path := content]> (with_out g w))).
Proof.
  intros Hp. constructor; try done. simpl. intros p Hp'.
  rewrite lookup_insert_ne; [done|]. intros ->. congruence.
Qed.

Lemma epochs_confined m X Y bs epochs : ∀ best w r w',
  is_Some (models w !! m) →
  foldlM (epoch_step m X Y bs) [train_checkpoint best] epochs w = (r, w') →
  agree Generation w w'.
Proof.
  induction epochs as [|e epochs IH]; intros best w r w' [mdl Hm] Hrun.
  - by injection Hrun as <- <-.
  - simpl in Hrun. unfold mbind, Eff_bind in Hrun.
    rewrite (epoch_step_train m X Y bs e best mdl w Hm) in Hrun.
    destruct (fit_epoch _ _ _ _ _) as [[ws l]|err].
    2:{ by injection Hrun as <- <-. }
    cbv zeta in Hrun. simpl in Hrun.
    set (w1 := with_out (λ o, o ++ [EpochEnd e l])
                 (with_models
                    <[m := Model (layers mdl) ws (compiled mdl)]> w)) in *.
    assert (agree Generation w w1) as Hstep by apply agree_generation_models.
    destruct (less l best).
    + destruct (writable w _).
      * apply IH in Hrun.
        2:{ simpl. rewrite lookup_insert_eq. by eexists. }
        etrans; [exact Hstep|]. etrans; [|exact Hrun].
        constructor; try done. simpl. intros p Hp.
        rewrite lookup_insert_ne; [done|]. intros <-.
        simpl in Hp. by rewrite is_hdf5_ckpt in Hp.
      * by injection Hrun as <- <-.
    + apply IH in Hrun.
      2:{ simpl. rewrite lookup_insert_eq. by eexists. }
      by etrans.
Qed.

Lemma confined_train m X Y n_epochs b_size vocab kwargs :
  confined Generation (train m X Y n_epochs b_size vocab kwargs).
Proof.
  intros w. unfold train. cbv zeta. unfold fit. eff_unfold.
  destruct (models w !! m) as [mdl|] eqn:Hm; [|reflexivity].
  destruct (optimizer_known _ && loss_known _); [|reflexivity].
  simpl. rewrite lookup_insert_eq. simpl.
  set (w1 := with_models _ w).
  assert (agree Generation w w1) as Hstep by by constructor.
  destruct (foldlM _ _ _ w1) as [r w'] eqn:Hrun.
  apply epochs_confined in Hrun.
  2:{ unfold w1. simpl. rewrite lookup_insert_eq. by eexists. }
  destruct r; simpl; by etrans.
Qed.

End isolation.

(** *** Running cells *)

Section running.
Context `{SpacyLib, GensimLib, SklearnLib, KerasLib}.


Lemma run_cell_confined b c w :
  confined b c → agree b w (run_cell c w).2.
Proof.
  intros Hc. unfold run_cell. cbv zeta. simpl.
  etrans; [apply (agree_out b w (λ _, []))|].
  etrans; [apply Hc|]. apply agree_out.
Qed.

(** A cell is harmless for [b] when it belongs to [b] and is confined
    to it, or belongs to another demonstration and is blind to [b]. *)
Definition harmless (b : branch) (tc : branch * cell) : Prop :=
  if decide (tc.1 = b) then confined b tc.2 else blind b tc.2.




(** *** Cells that leave the random source where it is *)

Definition still_rel (w w' : world) : Prop := rng_pos w' = rng_pos w.

#[global] Instance still_rel_preorder : PreOrder still_rel.
Proof.
  split.
  - by intros w.
  - intros w1 w2 w3 H12 H23. unfold still_rel in *. congruence.
Qed.



End running.

(** *** Proof search over the cells *)

Ltac unfold_calls :=
  unfold print_tokens, classify, sample_from, read_corpus, locate_corpus,
    generate_text, train, fit, epoch_step, on_epoch_end, save, compile,
    load_weights, predict_step, predict, print_quoted, new_model_of,
    vectorizer_fit_transform, vectorizer_transform, fit_transform, transform,
    step_fit_transform, step_transform, classifier_fit, classifier_predict,
    print, show.

Ltac blind_step :=
  lazymatch goal with
  | |- blind _ read_corpus => apply blind_read_corpus
  | |- blind _ (for_ _ _) => apply blind_for; intros ?
  | |- blind _ (foldlM _ _ _) => apply blind_foldlM; intros ? ?
  | |- blind _ (mapM _ _) => apply blind_mapM; intros ?
  | |- blind _ (mret _) => apply blind_ret
  | |- blind _ (raise _) => apply blind_raise
  | |- blind _ (lift _) => apply blind_lift
  | |- blind _ (read _ _) => apply blind_read; reflexivity
  | |- blind _ (getvar _) => apply blind_getvar; reflexivity
  | |- blind _ (defined _ _) => apply blind_defined; reflexivity
  | |- blind _ (setvar _ _) => apply blind_setvar
  | |- blind _ (setvar_opt _ _) => apply blind_setvar_opt
  | |- blind _ (emit _) => apply blind_emit
  | |- blind _ (warn _) => apply blind_warn
  | |- blind _ (modify (with_warnings_ignored true)) =>
      apply blind_ignore_warnings
  | |- blind _ (open_read _) => apply blind_open_read; reflexivity
  | |- blind _ (read_hdf5 _) => apply blind_read_hdf5; reflexivity
  | |- blind _ (write_file _ _) => apply blind_write_file
  | |- blind _ (get_model _) => apply blind_get_model; discriminate
  | |- blind _ (put_model _ _) => apply blind_put_model; discriminate
  | |- blind _ (new_model _) => apply blind_new_model; discriminate
  | |- blind _ (randint _ _) => apply blind_randint
  | |- blind _ (draw _) => apply blind_draw
  | |- blind _ (get_estimator _) => apply blind_get_estimator; discriminate
  | |- blind _ (put_estimator _ _) => apply blind_put_estimator; discriminate
  | |- blind _ (new_estimator _) => apply blind_new_estimator; discriminate
  | |- blind _ (spacy_load _) => apply blind_spacy_load; discriminate
  | |- blind _ (fetch_20newsgroups _ _) => apply blind_fetch; discriminate
  | |- blind _ (mbind _ _) => apply blind_bind; [|intros ?]
  | |- blind _ (match ?x with _ => _ end) => destruct x
  | |- blind _ (let _ := _ in _) => cbv zeta
  | |- blind _ _ => progress unfold_calls
  end.

Ltac confined_step :=
  lazymatch goal with
  | |- confined _ _ => unfold confined
  | |- preserves _ (for_ _ _) => apply preserves_for; [apply _|intros ?]
  | |- preserves _ (foldlM _ _ _) =>
      apply preserves_foldlM; [apply _|intros ? ?]
  | |- preserves _ (mapM _ _) => apply preserves_mapM; [apply _|intros ?]
  | |- preserves _ (train _ _ _ _ _ _ _) => apply confined_train
  | |- preserves _ (mret _) => apply preserves_ret, _
  | |- preserves _ (raise _) => apply preserves_raise, _
  | |- preserves _ (lift _) => apply preserves_lift, _
  | |- preserves _ (read _ _) => apply confined_read
  | |- preserves _ (getvar _) => apply confined_getvar
  | |- preserves _ (defined _ _) => apply confined_defined
  | |- preserves _ (setvar _ _) => apply confined_setvar; reflexivity
  | |- preserves _ (setvar_opt _ _) => apply confined_setvar_opt; reflexivity
  | |- preserves _ (emit _) => apply confined_emit
  | |- preserves _ (warn _) => apply confined_warn
  | |- preserves _ (open_read _) => apply confined_open_read
  | |- preserves _ (read_hdf5 _) => apply confined_read_hdf5
  | |- preserves _ (spacy_load _) => apply confined_spacy_load
  | |- preserves _ (fetch_20newsgroups _ _) => apply confined_fetch
  | |- preserves _ (get_model _) => apply confined_get_model
  | |- preserves _ (put_model _ _) => apply confined_put_model
  | |- preserves _ (new_model _) => apply confined_new_model
  | |- preserves _ (randint _ _) => apply confined_randint
  | |- preserves _ (draw _) => apply confined_draw
  | |- preserves _ (get_estimator _) => apply confined_get_estimator
  | |- preserves _ (put_estimator _ _) => apply confined_put_estimator
  | |- preserves _ (new_estimator _) => apply confined_new_estimator
  | |- preserves _ (mbind _ _) => apply preserves_bind; [apply _| |intros ?]
  | |- preserves _ (match ?x with _ => _ end) => destruct x
  | |- preserves _ (let _ := _ in _) => cbv zeta
  | |- preserves _ _ => progress unfold_calls
  end.



Section notebook.
Context `{SpacyLib, GensimLib, SklearnLib, KerasLib}.

Ltac unfold_cells :=
  unfold cell_2, cell_3, cell_5, cell_7, cell_9, cell_10, cell_12, cell_14,
    cell_16, cell_18, cell_19, cell_20, cell_22, cell_23, cell_24, cell_26,
    cell_27, cell_29, cell_30, cell_31, cell_32, cell_33, cell_35, cell_36,
    cell_39, cell_40, cell_41, cell_44, cell_46, cell_48, cell_49, cell_50,
    cell_51, cell_52, cell_54, cell_55, cell_56, cell_57, cell_58, cell_59,
    cell_60, cell_61.

(** Every cell outside of [b] is blind to [b]; every cell of [b] is
    confined to [b]. *)
Lemma notebook_harmless b : b ≠ Setup → Forall (harmless b) notebook.
Proof.
  intros Hb. unfold notebook, harmless.
  destruct b; [done|..];
    repeat (apply Forall_cons; split; [|]); try (by apply Forall_nil);
    simpl; unfold_cells;
    first [ solve [repeat blind_step] | solve [repeat confined_step] ].
Qed.

(** The cells that call a library which reads NumPy's random source,
    by their position in the notebook: [LdaModel] in cell 35,
    [TruncatedSVD] in cells 40 and 41, [SVC] in cell 46,
    [np.random.randint] in cells 60 and 61.  Cells 58 and 59 are listed
    with them: Keras seeds its initialisers and shuffles the examples
    from that source, which the embedding of [fit] leaves out. *)
Definition drawing_cells : list nat := [22; 25; 26; 28; 38; 39; 40; 41].


Example drawing_cells_are :
  (λ k, notebook.*2 !! k) <$> drawing_cells
  = Some <$> [cell_35; cell_40; cell_41; cell_46; cell_58; cell_59; cell_60;
              cell_61].
Proof. reflexivity. Qed.




End notebook.

Import Toy.

(** A machine that holds a corpus of one line of 122 characters, the
    weights of an earlier training run, the spaCy model with the stop
    words [stops], and [test_docs] as the test documents. *)
Definition corpus_line : string :=
  "aaaaaaaaaabbbbbbbbbbaaaaaaaaaabbbbbbbbbbaaaaaaaaaabbbbbbbbbb" +:+
  "aaaaaaaaaabbbbbbbbbbaaaaaaaaaabbbbbbbbbbaaaaaaaaaabbbbbbbbbbcd" +:+
  newline.

Definition machine (stops test_docs : list string) : world :=
  World ∅
        {["gensim/test/test_data/lee_background.cor" := Text corpus_line;
          "Weights/weights-improvement-01-4.3050.hdf5" := Hdf5 0]}
        (λ _, true) ∅ ∅ (λ k, k) 0
        {["en" := stops]}
        (λ subset _,
           if String.eqb subset "train"
           then Ok (Dataset ["a"; "bbb"] [0; 1] ["x"; "y"])
           else Ok (Dataset test_docs [0; 1] ["x"; "y"]))
        false [].

(** Two sessions that differ in the test documents downloaded by the
    classification demonstration only; the reduction reads the random
    source equally far on both. *)
Definition session_1 : world :=
  machine [] ["cccccccccc"; "dddddddddddddddddddd"].
Definition session_2 : world :=
  machine [] ["cccccccccccc"; "dddddddddddddddddd"].


(** The classification results differ between the two runs. *)
Example sessions_differ :
  globals (run_notebook session_1).2 !! "X_test" = Some (VMatrix [-5; 5]%Z)
  ∧ globals (run_notebook session_2).2 !! "X_test" = Some (VMatrix [-3; 3]%Z).
Proof. split; vm_compute; reflexivity. Qed.





End IsolationSpec.

(** * Part III: further properties of the cells *)

(** ** Lists, dictionaries and strings *)

Module PyExtra.
Import Py.

Lemma mapM_result_length {A B} (f : A → result B) l : ∀ l',
  mapM f l = Ok l' → length l' = length l.
Proof.
  induction l as [|a l IH]; intros l' Hl.
  - by injection Hl as <-.
  - change (mapM f (a :: l)) with (y ← f a; ys ← mapM f l; mret (y :: ys))
      in Hl.
    destruct (f a) as [y|e]; [|done]. simpl in Hl.
    destruct (mapM f l) as [ys|e]; [|done]. simpl in Hl.
    injection Hl as <-. simpl. by rewrite (IH ys).
Qed.

Lemma mapM_getitem_error `{Countable K} {V} (d : gmap K V) l e :
  mapM (getitem d) l = Raise e → e = KeyError.
Proof.
  induction l as [|a l IH]; intros Hl; [done|].
  change (mapM (getitem d) (a :: l))
    with (y ← getitem d a; ys ← mapM (getitem d) l; mret (y :: ys)) in Hl.
  destruct (getitem d a) as [y|e'] eqn:Ha; simpl in Hl.
  - destruct (mapM (getitem d) l) as [ys|e'']; [done|]. simpl in Hl.
    injection Hl as <-. by apply IH.
  - injection Hl as <-. unfold getitem in Ha.
    destruct (d !! a); [done|]. by injection Ha.
Qed.

Lemma elem_of_slice {A} (l : list A) i j a : a ∈ slice l i j → a ∈ l.
Proof.
  unfold slice. intros Ha. apply elem_of_take in Ha as (k & Ha & _).
  rewrite lookup_drop in Ha. by apply list_elem_of_lookup_2 in Ha.
Qed.

Lemma length_join cs : String.length (join cs) = length cs.
Proof. induction cs as [|c cs IH]; simpl; [done|by rewrite IH]. Qed.

Lemma mapM_getitem_total `{Countable K} {V} (d : gmap K V) l :
  Forall (λ k, is_Some (d !! k)) l → ∃ l', mapM (getitem d) l = Ok l'.
Proof.
  induction 1 as [|k l [v Hk] _ [l' IH]]; [by exists []|].
  exists (v :: l').
  change (mapM (getitem d) (k :: l))
    with (y ← getitem d k; ys ← mapM (getitem d) l; mret (y :: ys)).
  assert (getitem d k = Ok v) as -> by (unfold getitem; by rewrite Hk).
  simpl. by rewrite IH.
Qed.

End PyExtra.

(** ** Cell 26: the documents are the filtered lines *)

Module CorpusExtra.
Import Py Corpus CorpusSpec.

(** A corpus written as lines: each line is a run of tokens that are not
    newlines, closed by a newline token. *)
Definition lines_doc (lines : list (list token * token)) : list token :=
  concat ((λ p, p.1 ++ [p.2]) <$> lines).

Definition is_line (p : list token * token) : Prop :=
  Forall (λ w, text w ≠ newline) p.1 ∧ text p.2 = newline.

(** The lemmas of the tokens of a line that pass the filter. *)
Definition kept (line : list token) : list string :=
  lemma_ <$> filter (λ w, passes w) line.

Lemma foldl_body_lines lines : ∀ acc,
  Forall is_line lines →
  foldl body (State acc []) (lines_doc lines)
  = State (acc ++ (kept ∘ fst <$> lines)) [].
Proof.
  induction lines as [|[line nl] lines IH]; intros acc Hall; simpl.
  - by rewrite app_nil_r.
  - apply Forall_cons in Hall as [[Hline Hnl] Hall]. simpl in *.
    unfold lines_doc. simpl. rewrite <- app_assoc, !foldl_app.
    rewrite (foldl_body_no_newline line) by done. simpl.
    rewrite body_newline by done. simpl.
    fold (lines_doc lines). rewrite IH by done.
    by rewrite <- app_assoc.
Qed.

Lemma lines_doc_snoc lines line nl :
  lines_doc (lines ++ [(line, nl)]) = lines_doc lines ++ line ++ [nl].
Proof.
  unfold lines_doc. rewrite fmap_app, concat_app. simpl.
  by rewrite app_nil_r.
Qed.

(** Every corpus is a sequence of lines followed by an unfinished one. *)
Lemma lines_decompose doc :
  ∃ lines tail,
    doc = lines_doc lines ++ tail
    ∧ Forall is_line lines ∧ Forall (λ w, text w ≠ newline) tail.
Proof.
  induction doc as [|w doc (lines & tail & -> & Hlines & Htail)]
    using rev_ind.
  - exists [], []. by repeat split.
  - destruct (decide (text w = newline)) as [Hw|Hw].
    + exists (lines ++ [(tail, w)]), []. split_and!.
      * rewrite lines_doc_snoc, app_nil_r. by rewrite <- !app_assoc.
      * apply Forall_app. split; [done|]. by repeat constructor.
      * constructor.
    + exists lines, (tail ++ [w]). split_and!.
      * by rewrite <- app_assoc.
      * done.
      * apply Forall_app. split; [done|]. by repeat constructor.
Qed.

(** X1: the loop of cell 26 computes the filtered lines.  Any corpus
    splits into lines closed by a newline token and a last, unfinished
    line; [texts] then holds, in order, one document per closed line,
    made of the lemmas of the tokens of that line that pass the filter
    (an empty line gives an empty document), and [article] holds the
    filtered lemmas of the unfinished line. *)
Theorem texts_are_filtered_lines (doc : list token) :
  ∃ lines tail,
    doc = lines_doc lines ++ tail
    ∧ Forall is_line lines
    ∧ Forall (λ w, text w ≠ newline) tail
    ∧ run doc = State (kept ∘ fst <$> lines) (kept tail).
Proof.
  destruct (lines_decompose doc) as (lines & tail & -> & Hlines & Htail).
  exists lines, tail. split_and!; [done|done|done|].
  rewrite run_app. unfold run. rewrite foldl_body_lines by done.
  by rewrite foldl_body_no_newline.
Qed.

Lemma build_texts_length (doc : list token) :
  length (build_texts doc)
  = length (filter (λ w, text w = newline) doc).
Proof.
  unfold build_texts.
  induction doc as [|w doc IH] using rev_ind; [done|].
  rewrite run_snoc, filter_app, length_app, filter_cons, filter_nil.
  destruct (decide (text w = newline)) as [Hw|Hw].
  - rewrite body_newline by done. simpl. rewrite length_app, IH. done.
  - rewrite body_other by done. simpl. rewrite IH. lia.
Qed.

(** X2: cell 26 builds as many documents as the corpus has newline
    tokens, whatever the other tokens are: the tokens after the last
    newline give no document, and a newline token closes a document
    even when it is flagged as a stop word or as punctuation. *)
Theorem one_document_per_newline (doc : list token) :
  length (build_texts doc)
  = length (filter (λ w, text w = newline) doc).
Proof. apply build_texts_length. Qed.

End CorpusExtra.


(** ** Cells 55 to 57: the alphabet and the examples *)

Module CharsExtra.
Import Py Chars PyFacts PyExtra CharsSpec Notebook.

(** Decoding the ids of known characters gives the characters back. *)
Lemma mapM_decode (i2c : gmap nat ascii) (f : ascii → nat) l :
  Forall (λ c, i2c !! f c = Some c) l →
  mapM (getitem i2c) (f <$> l) = Ok l.
Proof.
  induction 1 as [|c l Hc _ IH]; [done|].
  change (mapM (getitem i2c) (f <$> c :: l))
    with (y ← getitem i2c (f c);
          ys ← mapM (getitem i2c) (f <$> l); mret (y :: ys)).
  assert (getitem i2c (f c) = Ok c) as ->
    by (unfold getitem; by rewrite Hc).
  simpl. by rewrite IH.
Qed.

(** *** The loop of cell 56 for any [char_to_int] *)

Section loop.
Context (len : nat) (cs : list ascii) (c2i : gmap ascii nat).

(** What holds of the two lists between two rounds of the loop. *)
Definition balanced (st : vars) : Prop :=
  Forall (λ r, length r = len) (list_X st)
  ∧ length (list_Y st) = length (list_X st).

(** What holds of them when the loop has stopped. *)
Definition stopped (st : vars) : Prop :=
  Forall (λ r, length r = len) (list_X st)
  ∧ length (list_Y st) ≤ length (list_X st) ≤ S (length (list_Y st)).

Lemma window_round i st :
  balanced st →
  i + len < length cs →
  match window len cs c2i i st with
  | (Ok _, st') =>
      balanced st' ∧ length (list_X st') = S (length (list_X st))
  | (Raise e, st') => e = KeyError ∧ stopped st'
  end.
Proof.
  intros [Hrows Hlen] Hi. apply lookup_lt_is_Some in Hi as Hc.
  destruct Hc as [c Hc].
  assert (length (slice cs i (i + len)) = len) as Hslice.
  { unfold slice. rewrite length_take, length_drop. lia. }
  unfold window, index. rewrite Hc.
  unfold mbind, Eff_bind, lift, modify.
  destruct (mapM (getitem c2i) (slice cs i (i + len))) as [xs|e] eqn:Hxs.
  - apply mapM_result_length in Hxs. rewrite Hslice in Hxs.
    assert (Forall (λ r, length r = len) (list_X st ++ [xs])) as Hrows'.
    { apply Forall_app. split; [done|]. by repeat constructor. }
    unfold getitem. destruct (c2i !! c) as [y|]; simpl.
    + unfold balanced. simpl. rewrite !length_app. simpl.
      split; [split; [done|lia]|lia].
    + unfold stopped. simpl. rewrite !length_app. simpl.
      split; [done|]. split; [done|lia].
  - apply mapM_getitem_error in Hxs as ->. unfold stopped. simpl.
    split; [done|]. split; [done|lia].
Qed.

Lemma windows_round n : ∀ a st,
  balanced st →
  a + n + len ≤ length cs →
  match for_ (seq a n) (window len cs c2i) st with
  | (Ok _, st') =>
      balanced st' ∧ length (list_X st') = length (list_X st) + n
  | (Raise e, st') => e = KeyError ∧ stopped st'
  end.
Proof.
  induction n as [|n IH]; intros a st Hst Hn.
  - simpl. split; [done|lia].
  - change (for_ (seq a (S n)) (window len cs c2i) st)
      with ((window len cs c2i a ;;
             for_ (seq (S a) n) (window len cs c2i)) st).
    unfold mbind, Eff_bind.
    pose proof (window_round a st Hst) as Hw.
    destruct (window len cs c2i a st) as [[[]|e] st1].
    + destruct Hw as [Hst1 HX1]; [lia|].
      pose proof (IH (S a) st1 Hst1) as Hrun.
      destruct (for_ (seq (S a) n) (window len cs c2i) st1) as [[[]|e] st2].
      * destruct Hrun as [Hst2 HX2]; [lia|]. split; [done|lia].
      * apply Hrun. lia.
    + apply Hw. lia.
Qed.

End loop.

(** The shape of the two lists when the loop has stopped. *)
Lemma examples_shape (seq_length : nat) (data : string)
    (c2i : gmap ascii nat) (st : vars) :
  let run := build_examples seq_length data c2i st in
  Forall (λ r, length r = seq_length) (list_X run.2)
  ∧ length (list_Y run.2) ≤ length (list_X run.2) ≤ S (length (list_Y run.2))
  ∧ match run.1 with
    | Ok _ =>
        length (list_X run.2) = length (chars_of_str data) - seq_length
        ∧ length (list_Y run.2) = length (list_X run.2)
    | Raise e => e = KeyError
    end
  ∧ reshape (list_X run.2) (length (list_X run.2)) seq_length
    = Ok ([length (list_X run.2); seq_length; 1], list_X run.2).
Proof.
  intros run.
  assert (match run with
          | (Ok _, st') =>
              balanced seq_length st'
              ∧ length (list_X st')
                = length (chars_of_str data) - seq_length
          | (Raise e, st') => e = KeyError ∧ stopped seq_length st'
          end) as Hrun.
  { unfold run, build_examples, range.
    set (cs := chars_of_str data).
    set (st0 := Vars [] [] (i st) (seq_in st) (seq_out st)).
    assert (balanced seq_length st0) as Hst0 by (by split; [constructor|]).
    replace (Z.to_nat (Z.of_nat (length cs) - Z.of_nat seq_length))
      with (length cs - seq_length) by lia.
    destruct (decide (seq_length ≤ length cs)) as [Hle|Hgt].
    - pose proof (windows_round seq_length cs c2i
                    (length cs - seq_length) 0 st0 Hst0) as Hw.
      destruct (for_ _ _ st0) as [[[]|e] st']; apply Hw; lia.
    - replace (length cs - seq_length) with 0 by lia. simpl.
      split; [done|]. simpl. lia. }
  assert (stopped seq_length run.2) as [Hrows Hlen].
  { destruct run as [[[]|e] st'].
    - destruct Hrun as [[Hrows Hlen] _]. split; [done|]. simpl. lia.
    - apply Hrun. }
  split_and!; [done|lia|lia| |].
  - destruct run as [[[]|e] st']; simpl.
    + destruct Hrun as [[_ Hb] HX]. by split.
    + apply Hrun.
  - unfold reshape. by rewrite decide_True.
Qed.

(** X3: the loop of cell 56 keeps the two lists in step and every
    example has [seq_length] entries, for any stream and any
    [char_to_int].  The loop never fails with an [IndexError], only with
    the [KeyError] of a character that [char_to_int] lacks, and then
    [list_X] holds at most one example more than [list_Y] holds labels;
    when it ends normally there are [len(data) - seq_length] examples
    and as many labels (none for a stream of at most [seq_length]
    characters).  In both cases [np.reshape] of [list_X] to
    [(len(list_X), seq_length, 1)] is valid. *)
Theorem examples_well_shaped (seq_length : nat) (data : string)
    (c2i : gmap ascii nat) (st : vars) :
  let run := build_examples seq_length data c2i st in
  Forall (λ r, length r = seq_length) (list_X run.2)
  ∧ length (list_Y run.2) ≤ length (list_X run.2) ≤ S (length (list_Y run.2))
  ∧ match run.1 with
    | Ok _ =>
        length (list_X run.2) = length (chars_of_str data) - seq_length
        ∧ length (list_Y run.2) = length (list_X run.2)
    | Raise e => e = KeyError
    end
  ∧ reshape (list_X run.2) (length (list_X run.2)) seq_length
    = Ok ([length (list_X run.2); seq_length; 1], list_X run.2).
Proof. apply examples_shape. Qed.

(** *** The examples of cell 56 with the alphabet of cell 55 *)

(** The id that the alphabet of a stream gives to a character. *)
Definition id_of (data : string) (c : ascii) : nat :=
  default 0 (char_to_int (chars data) !! c).

Lemma build_examples_closed (data : string) (st : vars) :
  let cs := chars_of_str data in
  ∃ ex,
    build_examples SEQ_LENGTH data (char_to_int (chars data)) st = (Ok (), ex)
    ∧ list_X ex
      = ids SEQ_LENGTH cs (id_of data) <$> seq 0 (length cs - SEQ_LENGTH)
    ∧ list_Y ex
      = label SEQ_LENGTH cs (id_of data) <$> seq 0 (length cs - SEQ_LENGTH).
Proof.
  intros cs. unfold build_examples, range. fold cs.
  replace (Z.to_nat (Z.of_nat (length cs) - Z.of_nat SEQ_LENGTH))
    with (length cs - SEQ_LENGTH) by lia.
  set (st0 := Vars [] [] (i st) (seq_in st) (seq_out st)).
  destruct (decide (SEQ_LENGTH ≤ length cs)) as [Hle|Hgt].
  - destruct (windows_ok SEQ_LENGTH cs (char_to_int (chars data))
                (id_of data) (λ c Hc, char_to_int_known data c Hc)
                (length cs - SEQ_LENGTH) 0 st0)
      as (ex & Hrun & HX & HY); [lia|].
    exists ex. by split_and!.
  - replace (length cs - SEQ_LENGTH) with 0 by lia. by exists st0.
Qed.

Lemma id_of_lookup data c :
  c ∈ chars_of_str data → chars data !! id_of data c = Some c.
Proof.
  intros Hc. apply (char_to_int_lookup _ _ _ (NoDup_chars data)).
  by apply char_to_int_known.
Qed.

Lemma to_categorical_shape (y : nat) (ys : list nat) :
  ∃ rows,
    to_categorical (y :: ys)
    = Ok ([length (y :: ys); S (max_list (y :: ys))], rows)
    ∧ Forall (λ row, length row = S (max_list (y :: ys))) rows.
Proof.
  eexists. split; [reflexivity|].
  rewrite Forall_fmap. apply Forall_forall. intros c _. unfold compose.
  by rewrite length_fmap, length_seq.
Qed.

(** The ids stored by cell 56 are ids of the alphabet. *)
Lemma ids_bounded (data : string) (st : vars) :
  let v := vocab_size (chars data) in
  let ex := (build_examples SEQ_LENGTH data (char_to_int (chars data)) st).2 in
  Forall (Forall (λ n, n < v)) (list_X ex)
  ∧ Forall (λ n, n < v) (list_Y ex)
  ∧ match to_categorical (list_Y ex) with
    | Ok Y => ∃ k, Y.1 = [length (list_Y ex); k] ∧ k ≤ v
              ∧ Forall (λ row, length row = k) Y.2
    | Raise _ => list_Y ex = []
    end.
Proof.
  intros v ex.
  destruct (build_examples_closed data st) as (ex' & Hrun & HX & HY).
  assert (ex = ex') as -> by (unfold ex; by rewrite Hrun).
  clear Hrun.
  assert (∀ c, c ∈ chars_of_str data → id_of data c < v) as Hid.
  { intros c Hc. apply id_of_lookup in Hc.
    by apply lookup_lt_Some in Hc. }
  assert (Forall (λ n, n < v) (list_Y ex')) as HYv.
  { rewrite HY. apply Forall_fmap, Forall_forall. intros k Hk.
    apply elem_of_seq in Hk. simpl. unfold label.
    assert (k + SEQ_LENGTH < length (chars_of_str data)) as Hlt by lia.
    apply lookup_lt_is_Some in Hlt as [c Hc]. rewrite Hc. simpl.
    apply Hid. by apply list_elem_of_lookup_2 in Hc. }
  split_and!.
  - rewrite HX. apply Forall_fmap, Forall_forall. intros k _. simpl.
    unfold ids. apply Forall_fmap, Forall_forall. intros c Hc. simpl.
    apply Hid. by apply elem_of_slice in Hc.
  - done.
  - destruct (list_Y ex') as [|y ys] eqn:E; [done|].
    destruct (to_categorical_shape y ys) as (rows & -> & Hrows).
    exists (S (max_list (y :: ys))). split_and!; [done| |done].
    assert (∀ l, Forall (λ n, n < v) l → l ≠ [] → max_list l < v) as Hmax.
    { induction 1 as [|a l Ha Hl IH]; [done|]. intros _. simpl.
      destruct l; [simpl; lia|]. specialize (IH ltac:(done)). lia. }
    apply (Hmax (y :: ys)); done.
Qed.

(** X4: with the alphabet of cell 55, every id that cell 56 stores is
    below [vocab_size], in the examples and in the labels; so the
    one-hot array that cell 57 builds from the labels has at most
    [vocab_size] columns. *)
Theorem ids_below_vocab_size (data : string) (st : vars) :
  let v := vocab_size (chars data) in
  let ex := (build_examples SEQ_LENGTH data (char_to_int (chars data)) st).2 in
  Forall (Forall (λ n, n < v)) (list_X ex)
  ∧ Forall (λ n, n < v) (list_Y ex)
  ∧ match to_categorical (list_Y ex) with
    | Ok Y => ∃ k, Y.1 = [length (list_Y ex); k] ∧ k ≤ v
              ∧ Forall (λ row, length row = k) Y.2
    | Raise _ => list_Y ex = []
    end.
Proof. apply ids_bounded. Qed.

(** X5: decoding an example of cell 56 with [ix_to_char] gives back the
    window of the stream it was built from: example [i] decodes to the
    [SEQ_LENGTH] characters from position [i] on, and label [i] to the
    character that follows them. *)
Theorem examples_decode (data : string) (st : vars) (k : nat) :
  let cs := chars_of_str data in
  let i2c := ix_to_char (chars data) in
  let ex := (build_examples SEQ_LENGTH data (char_to_int (chars data)) st).2 in
  k < length cs - SEQ_LENGTH →
  ∃ xs y c,
    list_X ex !! k = Some xs ∧ list_Y ex !! k = Some y
    ∧ mapM (getitem i2c) xs = Ok (slice cs k (k + SEQ_LENGTH))
    ∧ length (slice cs k (k + SEQ_LENGTH)) = SEQ_LENGTH
    ∧ cs !! (k + SEQ_LENGTH) = Some c
    ∧ getitem i2c y = Ok c.
Proof.
  intros cs i2c ex Hk.
  destruct (build_examples_closed data st) as (ex' & Hrun & HX & HY).
  assert (ex = ex') as -> by (unfold ex; by rewrite Hrun).
  clear Hrun. fold cs in HX, HY.
  assert (k + SEQ_LENGTH < length cs) as Hlt by lia.
  apply lookup_lt_is_Some in Hlt as [c Hc].
  exists (ids SEQ_LENGTH cs (id_of data) k),
         (label SEQ_LENGTH cs (id_of data) k), c.
  rewrite HX, HY. rewrite !list_lookup_fmap, !lookup_seq_lt by done.
  split_and!; [done|done| | |done|].
  - unfold ids. apply mapM_decode, Forall_forall. intros a Ha.
    apply ix_to_char_lookup, id_of_lookup. by apply elem_of_slice in Ha.
  - unfold slice. rewrite length_take, length_drop. lia.
  - unfold label. rewrite Hc. simpl. unfold getitem.
    assert (i2c !! id_of data c = Some c) as ->; [|done].
    apply ix_to_char_lookup, id_of_lookup.
    by apply list_elem_of_lookup_2 in Hc.
Qed.

Lemma examples_decode_witness :
  3 < length (chars_of_str sample_stream) - SEQ_LENGTH
  ∧ ∃ xs y c,
      list_X (build_examples SEQ_LENGTH sample_stream
                (char_to_int (chars sample_stream)) no_vars).2 !! 3 = Some xs
      ∧ list_Y (build_examples SEQ_LENGTH sample_stream
                  (char_to_int (chars sample_stream)) no_vars).2 !! 3 = Some y
      ∧ mapM (getitem (ix_to_char (chars sample_stream))) xs
        = Ok (slice (chars_of_str sample_stream) 3 (3 + SEQ_LENGTH))
      ∧ length (slice (chars_of_str sample_stream) 3 (3 + SEQ_LENGTH))
        = SEQ_LENGTH
      ∧ chars_of_str sample_stream !! (3 + SEQ_LENGTH) = Some c
      ∧ getitem (ix_to_char (chars sample_stream)) y = Ok c.
Proof.
  assert (3 < length (chars_of_str sample_stream) - SEQ_LENGTH) as Hk
    by (vm_compute; lia).
  split; [exact Hk|].
  exact (examples_decode sample_stream no_vars 3 Hk).
Defined.

(** X6: the alphabet of cell 55 depends only on which characters occur
    in the stream, not on their order or number: two streams with the
    same characters get the same [chars], the same two maps and the
    same [vocab_size]. *)
Theorem alphabet_of_character_set (data1 data2 : string) :
  (∀ c, c ∈ chars_of_str data1 ↔ c ∈ chars_of_str data2) →
  chars data1 = chars data2
  ∧ char_to_int (chars data1) = char_to_int (chars data2)
  ∧ ix_to_char (chars data1) = ix_to_char (chars data2)
  ∧ vocab_size (chars data1) = vocab_size (chars data2).
Proof.
  intros Hsame.
  assert (chars data1 = chars data2) as ->; [|done].
  apply (StronglySorted_unique_strong char_lt).
  - intros a b _ _. unfold char_lt. lia.
  - apply chars_sorted.
  - apply chars_sorted.
  - apply NoDup_Permutation; [apply NoDup_chars..|].
    intros c. by rewrite !elem_of_chars.
Qed.

Lemma alphabet_of_character_set_witness :
  chars "abba" = chars "ab"
  ∧ char_to_int (chars "abba") = char_to_int (chars "ab")
  ∧ ix_to_char (chars "abba") = ix_to_char (chars "ab")
  ∧ vocab_size (chars "abba") = vocab_size (chars "ab").
Proof.
  apply (alphabet_of_character_set "abba" "ab").
  intros c. vm_compute chars_of_str.
  rewrite !elem_of_cons, !elem_of_nil. tauto.
Defined.

End CharsExtra.

(** ** Cell 51: more on the stack built by [create_model] *)

Module LayersExtra.
Import Py Layers LayersSpec.

Lemma filter_lstm_dr drop train :
  filter (λ l, is_lstm l) (dr drop train) = [].
Proof. unfold dr. by destruct train. Qed.

Lemma filter_lstm_middle hd drop train k :
  filter (λ l, is_lstm l) (middle hd drop train k)
  = replicate k (LSTM hd None true).
Proof.
  induction k as [|k IH]; [done|].
  change (middle hd drop train (S k))
    with (LSTM hd None true :: dr drop train ++ middle hd drop train k).
  rewrite filter_cons, decide_True by done.
  by rewrite filter_app, filter_lstm_dr, IH.
Qed.

Lemma filter_dropout_middle hd drop k :
  filter (λ l, is_dropout l = false) (middle hd drop true k)
  = middle hd drop false k.
Proof.
  induction k as [|k IH]; [done|]. simpl.
  rewrite filter_cons, decide_True by done.
  rewrite filter_cons, decide_False by done.
  by rewrite IH.
Qed.

(** For [n_layers < 1] the [else] branch runs and its loop over
    [range(n_layers - 2)] is empty. *)
Lemma plan_nonpositive n_layers input_shape hidden_dim n_out kwargs :
  (n_layers < 1)%Z →
  plan n_layers input_shape hidden_dim n_out kwargs
  = plan 2 input_shape hidden_dim n_out kwargs.
Proof.
  intros Hn. unfold plan, plan_of.
  assert ((n_layers =? 1)%Z = false) as -> by lia.
  by replace (Z.to_nat (n_layers - 2)) with 0 by lia.
Qed.

Lemma plan_lstm_layers n_layers input_shape hidden_dim n_out kwargs :
  let hd := int hidden_dim in
  let shape := Some (input_shape.1.2, input_shape.2) in
  filter (λ l, is_lstm l) (plan n_layers input_shape hidden_dim n_out kwargs)
  = if (n_layers =? 1)%Z then [LSTM hd shape false]
    else LSTM hd shape true
         :: replicate (Z.to_nat (n_layers - 2)) (LSTM hd None true)
         ++ [LSTM hd None false].
Proof.
  intros hd shape. unfold plan, plan_of. fold hd shape.
  destruct (n_layers =? 1)%Z.
  - rewrite filter_cons, decide_True by done.
    by rewrite filter_app, filter_lstm_dr.
  - rewrite filter_cons, decide_True by done.
    rewrite !filter_app, filter_lstm_dr, filter_lstm_middle. done.
Qed.

Lemma plan_mode_strips_dropout n_layers input_shape hidden_dim n_out kwargs
    mode :
  eq_str mode "train" = false →
  plan n_layers input_shape hidden_dim n_out (<["mode" := mode]> kwargs)
  = filter (λ l, is_dropout l = false)
      (plan n_layers input_shape hidden_dim n_out
         (<["mode" := KStr "train"]> kwargs)).
Proof.
  intros Hmode. unfold plan, plan_of, kwargs_get.
  rewrite !lookup_insert_eq, !lookup_insert_ne by done. simpl.
  rewrite Hmode.
  set (drop := default _ (kwargs !! "drop_rate")).
  set (activ := default _ (kwargs !! "activation")).
  destruct (n_layers =? 1)%Z.
  - done.
  - simpl. rewrite filter_cons, decide_True by done.
    rewrite filter_cons, decide_False by done.
    rewrite filter_app, filter_dropout_middle. done.
Qed.

Section layers.
Context `{KerasLayers}.

(** X7: for [n_layers < 1] the call does what it does for
    [n_layers = 2]: the [else] branch runs, its loop over
    [range(n_layers - 2)] is empty, the same layers are added and the
    outcome, a model or Keras' exception, is the same; a model that is
    returned has two LSTM layers. *)
Theorem create_model_nonpositive_layers
    (n_layers : Z) (input_shape : Z * Z * Z) (hidden_dim : Q) (n_out : Z)
    (kwargs : gmap string kwval) :
  (n_layers < 1)%Z →
  create_model n_layers input_shape hidden_dim n_out kwargs
  = create_model 2 input_shape hidden_dim n_out kwargs
  ∧ ∀ model,
      create_model n_layers input_shape hidden_dim n_out kwargs = Ok model →
      length (filter (λ l, is_lstm l) model) = 2.
Proof.
  intros Hn. split.
  - by rewrite !create_model_eq, plan_nonpositive.
  - intros model Hrun. apply create_model_returns in Hrun as [-> _].
    rewrite plan_nonpositive by done.
    by rewrite plan_lstm_layers.
Qed.

(** X8: the LSTM layers of a model that the call returns, in order.
    Each has [int(hidden_dim)] units; the first one, and no other, is
    given the input shape [(input_shape[1], input_shape[2])]; every one
    but the last returns sequences and the last one does not. *)
Theorem create_model_lstm_layers
    (n_layers : Z) (input_shape : Z * Z * Z) (hidden_dim : Q) (n_out : Z)
    (kwargs : gmap string kwval) (model : list layer) :
  create_model n_layers input_shape hidden_dim n_out kwargs = Ok model →
  let hd := int hidden_dim in
  let shape := Some (input_shape.1.2, input_shape.2) in
  filter (λ l, is_lstm l) model
  = if (n_layers =? 1)%Z then [LSTM hd shape false]
    else LSTM hd shape true
         :: replicate (Z.to_nat (n_layers - 2)) (LSTM hd None true)
         ++ [LSTM hd None false].
Proof.
  intros Hrun. apply create_model_returns in Hrun as [-> _].
  apply plan_lstm_layers.
Qed.

(** X9: when the call returns a model in 'train' mode and a model in
    another mode, the arguments being otherwise the same, the second is
    the first without its [Dropout] layers, the other layers being the
    same and in the same order. *)
Theorem create_model_mode_strips_dropout
    (n_layers : Z) (input_shape : Z * Z * Z) (hidden_dim : Q) (n_out : Z)
    (kwargs : gmap string kwval) (mode : kwval)
    (trained tested : list layer) :
  eq_str mode "train" = false →
  create_model n_layers input_shape hidden_dim n_out
    (<["mode" := KStr "train"]> kwargs) = Ok trained →
  create_model n_layers input_shape hidden_dim n_out
    (<["mode" := mode]> kwargs) = Ok tested →
  tested = filter (λ l, is_dropout l = false) trained.
Proof.
  intros Hmode Htrain Htest.
  apply create_model_returns in Htrain as [-> _].
  apply create_model_returns in Htest as [-> _].
  by apply plan_mode_strips_dropout.
Qed.

End layers.

Import Toy.

Lemma create_model_nonpositive_layers_witness :
  create_model (-3) (1024, 100, 1)%Z (256 # 1) 40 ∅
  = create_model 2 (1024, 100, 1)%Z (256 # 1) 40 ∅
  ∧ ∀ model,
      create_model (-3) (1024, 100, 1)%Z (256 # 1) 40 ∅ = Ok model →
      length (filter (λ l, is_lstm l) model) = 2.
Proof.
  apply (create_model_nonpositive_layers (-3) (1024, 100, 1)%Z (256 # 1) 40 ∅).
  lia.
Defined.

Lemma create_model_lstm_layers_witness :
  create_model 3 (1024, 100, 1)%Z (256 # 1) 40 ∅
  = Ok [LSTM 256 (Some (100, 1)%Z) true; Dropout (KNum (2 # 10));
        LSTM 256 None true; Dropout (KNum (2 # 10));
        LSTM 256 None false; Dense 40 (KStr "softmax")]
  ∧ filter (λ l, is_lstm l)
      [LSTM 256 (Some (100, 1)%Z) true; Dropout (KNum (2 # 10));
       LSTM 256 None true; Dropout (KNum (2 # 10));
       LSTM 256 None false; Dense 40 (KStr "softmax")]
    = [LSTM 256 (Some (100, 1)%Z) true; LSTM 256 None true;
       LSTM 256 None false].
Proof.
  assert (create_model 3 (1024, 100, 1)%Z (256 # 1) 40 ∅
          = Ok [LSTM 256 (Some (100, 1)%Z) true; Dropout (KNum (2 # 10));
                LSTM 256 None true; Dropout (KNum (2 # 10));
                LSTM 256 None false; Dense 40 (KStr "softmax")]) as Hrun
    by reflexivity.
  split; [exact Hrun|].
  exact (create_model_lstm_layers 3 (1024, 100, 1)%Z (256 # 1) 40 ∅ _ Hrun).
Defined.

Lemma create_model_mode_strips_dropout_witness :
  [LSTM 256 (Some (100, 1)%Z) true; LSTM 256 None true;
   LSTM 256 None false; Dense 40 (KStr "softmax")]
  = filter (λ l, is_dropout l = false)
      [LSTM 256 (Some (100, 1)%Z) true; Dropout (KNum (2 # 10));
       LSTM 256 None true; Dropout (KNum (2 # 10));
       LSTM 256 None false; Dense 40 (KStr "softmax")].
Proof.
  apply (create_model_mode_strips_dropout 3 (1024, 100, 1)%Z (256 # 1) 40 ∅
           (KStr "test")); reflexivity.
Defined.

End LayersExtra.

(** ** Cells 52 and 54: more on [train] and [generate_text] *)

Module KerasExtra.
Import Py Layers Libs World Keras Notebook PyFacts PyExtra SamplingSpec
  CheckpointSpec.

(** The line that [generate_text] prints for a text. *)
Definition quoted (text : string) : string :=
  dquote +:+ " " +:+ text +:+ " " +:+ dquote.

Section keras.
Context `{SpacyLib, GensimLib, SklearnLib, KerasLib}.

Definition is_prediction (e : event) : Prop :=
  match e with Predicted_on _ => True | _ => False end.

Lemma predict_step_out m vocab st i w st' w' :
  predict_step m vocab st i w = (Ok st', w') →
  ∃ x, out w' = out w ++ [Predicted_on x].
Proof.
  rewrite predict_step_eq. eff_unfold.
  destruct (models w !! m) as [mdl|]; [|done].
  destruct (forward _ _ _) as [p|e]; [|done].
  intros [= <- <-]. by eexists.
Qed.

Lemma sampling_out m vocab l : ∀ st0 w st w',
  foldlM (predict_step m vocab) st0 l w = (Ok st, w') →
  ∃ preds, out w' = out w ++ preds
           ∧ length preds = length l
           ∧ Forall is_prediction preds.
Proof.
  induction l as [|i l IH]; intros st0 w st w' Hrun; simpl in Hrun.
  - injection Hrun as <- <-. exists []. by rewrite app_nil_r.
  - unfold mbind, Eff_bind in Hrun.
    destruct (predict_step m vocab st0 i w) as [[st1|e] w1] eqn:Hstep;
      [|done].
    apply predict_step_out in Hstep as [x Hx].
    apply IH in Hrun as (preds & Hout & Hlen & Hall).
    exists (Predicted_on x :: preds). split_and!.
    + rewrite Hout, Hx. by rewrite <- app_assoc.
    + simpl. by rewrite Hlen.
    + by constructor.
Qed.

(** X10: what a call of [generate_text] that returns has done.  The
    seed is the window [X[start]] for the next value of the random
    source brought into [0 .. len(X) - 2], so [X] holds at least two
    windows and its last one is never the seed.  The events are, in
    order: the load of [filename], the lines of the seed, 250
    predictions, and the lines of the generated text, which has exactly
    250 characters. *)
Theorem generate_text_output (m : nat) (X : list (list nat))
    (filename : string) (ix_to_char : gmap nat ascii) (vocab_size : nat)
    (w w' : world) :
  generate_text m X filename ix_to_char vocab_size w = (Ok (), w') →
  ∃ start pattern seed preds text,
    start = rng w (rng_pos w) `mod` (length X - 1)
    ∧ start + 1 < length X
    ∧ X !! start = Some pattern
    ∧ mapM (getitem ix_to_char) pattern = Ok seed
    ∧ length preds = 250 ∧ Forall is_prediction preds
    ∧ length text = 250
    ∧ out w' = out w
               ++ [Loaded filename; Print "Seed:"; Print (quoted (join seed))]
               ++ preds
               ++ [Print "Predictions"; Print (quoted (join text))].
Proof.
  rewrite generate_text_eq. unfold load_weights, compile. eff_unfold.
  rewrite adam_known, crossentropy_known. cbn [andb].
  destruct (models w !! m) as [mdl|] eqn:Hm; [|done].
  destruct (files w !! filename) as [[txt|ws]|] eqn:Hf; [done| |done].
  simpl. rewrite lookup_insert_eq. simpl.
  set (w1 := with_models _ (with_models _ _)).
  unfold sample, print_quoted, print. eff_unfold.
  case_decide as Hlen; [|done].
  set (w1' := if decide _ then w1 else _).
  assert (out w1' = out w1) as Hout1 by (unfold w1'; by case_decide).
  destruct (index X _) as [pattern|e] eqn:Hpat; [|done].
  destruct (mapM (getitem ix_to_char) pattern) as [seed|e] eqn:Hseed; [|done].
  set (w2 := with_out _ (with_out _ _)).
  destruct (foldlM _ _ _ w2) as [[st|e] w3] eqn:Hloop; [|done].
  destruct (mapM (getitem ix_to_char) (output st)) as [text|e] eqn:Htext;
    [|done].
  intros [= <-].
  pose proof Hloop as Hinv.
  apply (window_invariant m vocab_size pattern) in Hinv as (_ & _ & Hout & _);
    [|by rewrite app_nil_r|done].
  apply sampling_out in Hloop as (preds & Hpreds & Hn & Hall).
  apply mapM_result_length in Htext.
  set (start := rng w (rng_pos w) `mod` (length X - 1)).
  assert (Z.to_nat (0 + Z.of_nat (rng w1 (rng_pos w1))
                        `mod` (Z.of_nat (length X) - 1 - 0)) = start)
    as Hstart.
  { unfold start. change (rng w1 (rng_pos w1)) with (rng w (rng_pos w)).
    rewrite Z.add_0_l.
    replace (Z.of_nat (length X) - 1 - 0)%Z with (Z.of_nat (length X - 1))
      by lia.
    rewrite <- Nat2Z.inj_mod. lia. }
  rewrite Hstart in Hpat. unfold index in Hpat.
  destruct (X !! start) as [p|] eqn:HX; [|done]. injection Hpat as ->.
  exists start, pattern, seed, preds, text. split_and!.
  - done.
  - apply lookup_lt_Some in HX.
    assert (start < length X - 1); [|lia].
    unfold start. apply Nat.mod_upper_bound. lia.
  - done.
  - done.
  - rewrite Hn. unfold range. by rewrite length_seq.
  - done.
  - rewrite Htext, Hout. unfold range. by rewrite length_seq.
  - simpl. rewrite Hpreds. unfold w2. simpl. rewrite Hout1. unfold w1.
    simpl. unfold quoted. by rewrite <- !app_assoc.
Qed.


(** X11: [generate_text] cannot sample from fewer than two windows.
    When the model exists and [filename] holds weights, a call with at
    most one window in [X] loads the weights and then fails in
    [np.random.randint(0, len(X) - 1)] with a [ValueError]: nothing is
    printed, no prediction is made and the random source is not
    advanced. *)
Theorem generate_text_needs_two_windows (m : nat) (X : list (list nat))
    (filename : string) (ix_to_char : gmap nat ascii) (vocab_size : nat)
    (w : world) (mdl : model) (ws : weights) :
  models w !! m = Some mdl →
  files w !! filename = Some (Hdf5 ws) →
  length X ≤ 1 →
  ∃ w',
    generate_text m X filename ix_to_char vocab_size w = (Raise ValueError, w')
    ∧ out w' = out w ++ [Loaded filename]
    ∧ rng_pos w' = rng_pos w.
Proof.
  intros Hm Hf Hlen. rewrite generate_text_eq.
  unfold load_weights, compile. eff_unfold. rewrite Hm, Hf.
  rewrite adam_known, crossentropy_known.
  simpl. rewrite lookup_insert_eq. simpl.
  unfold sample. eff_unfold. rewrite decide_False by lia.
  by eexists.
Qed.

(** Once the weights are loaded and the model is compiled, the rest of
    [generate_text] runs in this session. *)
Lemma generate_text_loaded m X filename i2c vocab w mdl ws :
  models w !! m = Some mdl →
  files w !! filename = Some (Hdf5 ws) →
  generate_text m X filename i2c vocab w
  = sample m X i2c vocab
      (with_models
         <[m := Model (layers mdl) ws
                  (Some (KStr "categorical_crossentropy", KStr "adam"))]>
         (with_out (λ o, o ++ [Loaded filename]) w)).
Proof.
  intros Hm Hf. rewrite generate_text_eq.
  unfold load_weights, compile. eff_unfold. rewrite Hm, Hf.
  rewrite adam_known, crossentropy_known.
  simpl. rewrite lookup_insert_eq. simpl.
  unfold with_models, with_out. simpl. by rewrite insert_insert_eq.
Qed.

(** X12: [generate_text] samples with the weights of the file, not with
    those the model holds.  When [filename] holds weights, the outcome
    of the call, its events and the final session are the same whatever
    parameters and compilation state the model had before the call. *)
Theorem generate_text_ignores_model_state (m : nat) (X : list (list nat))
    (filename : string) (ix_to_char : gmap nat ascii) (vocab_size : nat)
    (w : world) (mdl : model) (ws ps : weights)
    (c : option (kwval * kwval)) :
  models w !! m = Some mdl →
  files w !! filename = Some (Hdf5 ws) →
  generate_text m X filename ix_to_char vocab_size
    (with_models <[m := Model (layers mdl) ps c]> w)
  = generate_text m X filename ix_to_char vocab_size w.
Proof.
  intros Hm Hf.
  rewrite (generate_text_loaded _ _ _ _ _ w mdl ws Hm Hf).
  rewrite (generate_text_loaded _ _ _ _ _ _ (Model (layers mdl) ps c) ws);
    [|simpl; apply lookup_insert_eq|done].
  unfold with_models, with_out. simpl. by rewrite insert_insert_eq.
Qed.

(** The loop goes through when [predict] succeeds on every window of
    the seed's length with ids below [n], and predicts an id below [n]:
    the windows of the loop are all of that kind. *)
Lemma sampling_returns m vocab mdl n len l : ∀ st0 w,
  models w !! m = Some mdl →
  (∀ pattern, length pattern = len → Forall (λ i, i < n) pattern →
     ∃ p, forward (layers mdl) (params mdl) (scaled [pattern] vocab) = Ok p
          ∧ argmax p < n) →
  length (pattern st0) = len →
  Forall (λ i, i < n) (pattern st0) →
  Forall (λ i, i < n) (output st0) →
  ∃ st w', foldlM (predict_step m vocab) st0 l w = (Ok st, w')
           ∧ Forall (λ i, i < n) (output st).
Proof.
  induction l as [|i l IH]; intros st0 w Hm Hfw Hlen Hpat Hout; simpl.
  - by eexists _, _.
  - unfold mbind at 1, Eff_bind at 1.
    destruct (Hfw (pattern st0) Hlen Hpat) as (p & Hp & Harg).
    assert (predict_step m vocab st0 i w
            = (Ok (Sampling (drop 1 (pattern st0 ++ [argmax p]))
                            (output st0 ++ [argmax p])),
               with_out (λ o, o ++ [Predicted_on (scaled [pattern st0] vocab)])
                 w)) as ->.
    { rewrite predict_step_eq. eff_unfold. by rewrite Hm, Hp. }
    apply IH; simpl.
    + done.
    + done.
    + rewrite length_drop, length_app. simpl. lia.
    + apply Forall_drop, Forall_app. split; [done|by repeat constructor].
    + apply Forall_app. split; [done|by repeat constructor].
Qed.

(** X13: [generate_text] returns.  Take a model, a file of weights, at
    least two windows, all of one length and with ids below the size of
    the alphabet, and suppose that with these weights the model's
    forward pass succeeds on every such window and that the [argmax] of
    its prediction is below the size of the alphabet.  Then the call
    ends normally: no window, seed character or predicted character is
    out of range. *)
Theorem generate_text_returns (m : nat) (X : list (list nat))
    (filename : string) (cs : list ascii) (vocab_size len : nat)
    (w : world) (mdl : model) (ws : weights) :
  models w !! m = Some mdl →
  files w !! filename = Some (Hdf5 ws) →
  2 ≤ length X →
  Forall (λ row, length row = len ∧ Forall (λ n, n < length cs) row) X →
  (∀ pattern,
     length pattern = len → Forall (λ n, n < length cs) pattern →
     ∃ p, forward (layers mdl) ws (scaled [pattern] vocab_size) = Ok p
          ∧ argmax p < length cs) →
  ∃ w',
    generate_text m X filename (Chars.ix_to_char cs) vocab_size w
    = (Ok (), w').
Proof.
  intros Hm Hf Hlen HX Hfw.
  assert (∀ l, Forall (λ n, n < length cs) l →
               ∃ l', mapM (getitem (Chars.ix_to_char cs)) l = Ok l')
    as Hdecode.
  { intros l Hl. apply mapM_getitem_total.
    apply (Forall_impl _ _ _ Hl). intros n Hn.
    apply lookup_lt_is_Some in Hn as [c Hc]. exists c.
    by apply CharsSpec.ix_to_char_lookup. }
  rewrite (generate_text_loaded _ _ _ _ _ w mdl ws Hm Hf).
  set (w1 := with_models _ _).
  unfold sample, print_quoted, print. eff_unfold.
  rewrite decide_True by lia.
  set (start := Z.to_nat _).
  assert (start < length X) as Hstart.
  { unfold start.
    pose proof (Z.mod_pos_bound (Z.of_nat (rng w1 (rng_pos w1)))
                  (Z.of_nat (length X) - 1 - 0)) as Hmod.
    lia. }
  apply lookup_lt_is_Some in Hstart as [pattern Hpat].
  unfold index. rewrite Hpat.
  assert (length pattern = len ∧ Forall (λ n, n < length cs) pattern)
    as [Hplen Hpattern].
  { rewrite Forall_forall in HX. apply HX.
    by apply list_elem_of_lookup_2 in Hpat. }
  destruct (Hdecode pattern Hpattern) as [seed ->].
  set (w2 := with_out _ (with_out _ _)).
  destruct (sampling_returns m vocab_size
              (Model (layers mdl) ws
                 (Some (KStr "categorical_crossentropy", KStr "adam")))
              (length cs) len (range 250) (Sampling pattern []) w2)
    as (st & w3 & Hrun & Hout); [|done|done|done|constructor|].
  { unfold w2, w1. case_decide; simpl; apply lookup_insert_eq. }
  rewrite Hrun.
  destruct (Hdecode (output st) Hout) as [text ->].
  by eexists.
Qed.

(** *** The epochs of [train] *)

(** The events of consecutive epochs from [a] on, given the loss of
    each and whether its checkpoint was saved: the end of the epoch,
    then the save, if any, under the checkpoint's name for that epoch
    and loss. *)
Fixpoint epoch_events (a : nat) (steps : list (loss * bool)) : list event :=
  match steps with
  | [] => []
  | (l, saved) :: steps =>
      EpochEnd a l
      :: (if saved then [Saved (ckpt_path (a + 1) l)] else [])
      ++ epoch_events (S a) steps
  end.

Lemma epochs_counted m X Y bs n : ∀ a best w r w' mdl,
  models w !! m = Some mdl →
  foldlM (epoch_step m X Y bs) [train_checkpoint best] (seq a n) w = (r, w') →
  ∃ steps mdl',
    out w' = out w ++ epoch_events a steps
    ∧ length steps ≤ n
    ∧ match r with Ok _ => length steps = n | Raise _ => True end
    ∧ models w' !! m = Some mdl'
    ∧ layers mdl' = layers mdl ∧ compiled mdl' = compiled mdl.
Proof.
  induction n as [|n IH]; intros a best w r w' mdl Hm Hrun.
  - injection Hrun as <- <-. exists [], mdl.
    split_and!; [by rewrite app_nil_r|done..].
  - simpl in Hrun. unfold mbind, Eff_bind in Hrun.
    rewrite (epoch_step_train m X Y bs a best mdl w Hm) in Hrun.
    destruct (fit_epoch _ _ _ _ _) as [[ws l]|err].
    2:{ injection Hrun as <- <-. exists [], mdl.
        split_and!; [by rewrite app_nil_r|simpl; lia|done..]. }
    cbv zeta in Hrun. simpl in Hrun.
    destruct (less l best).
    + destruct (writable w _).
      * eapply IH in Hrun
          as (steps & mdl' & Hout & Hle & Hr & Hm' & Hl' & Hc');
          [|simpl; apply lookup_insert_eq].
        exists ((l, true) :: steps), mdl'.
        split_and!; [|simpl; lia| |done..].
        -- rewrite Hout. simpl. by rewrite <- !app_assoc.
        -- destruct r; [simpl; by rewrite Hr|done].
      * injection Hrun as <- <-. eexists [(l, false)], _. split_and!.
        -- done.
        -- simpl. lia.
        -- done.
        -- simpl. apply lookup_insert_eq.
        -- done.
        -- done.
    + eapply IH in Hrun
        as (steps & mdl' & Hout & Hle & Hr & Hm' & Hl' & Hc');
        [|simpl; apply lookup_insert_eq].
      exists ((l, false) :: steps), mdl'.
      split_and!; [|simpl; lia| |done..].
      * rewrite Hout. simpl. by rewrite <- !app_assoc.
      * destruct r; [simpl; by rewrite Hr|done].
Qed.

(** X14: [train] runs the epochs in order and saves at most once per
    epoch.  When the model exists and Keras knows the loss and the
    optimizer passed as keywords (by default 'categorical_crossentropy'
    and 'adam'), the events of a call are exactly these: for each of the
    epochs [0 .. k - 1] in turn, the end of the epoch, directly followed
    by the save of its checkpoint or by nothing; [k] is [n_epochs] when
    the call returns, so that [n_epochs = 0] leaves the trace as it is.
    After the call the model has the layers it had and is compiled with
    that loss and optimizer.  When Keras does not know the loss or the
    optimizer, the call raises [ValueError] and nothing has happened. *)
Theorem train_epochs (m : nat) (X Y : list (list nat))
    (n_epochs b_size vocab_size : nat) (kwargs : gmap string kwval)
    (w : world) (mdl : model) :
  models w !! m = Some mdl →
  let loss_name :=
    kwargs_get kwargs "loss" (KStr "categorical_crossentropy") in
  let optimizer := kwargs_get kwargs "optimizer" (KStr "adam") in
  let run := train m X Y n_epochs b_size vocab_size kwargs w in
  (optimizer_known optimizer && loss_known loss_name = true →
   ∃ steps mdl',
     out run.2 = out w ++ epoch_events 0 steps
     ∧ length steps ≤ n_epochs
     ∧ (run.1 = Ok () → length steps = n_epochs)
     ∧ models run.2 !! m = Some mdl'
     ∧ layers mdl' = layers mdl
     ∧ compiled mdl' = Some (loss_name, optimizer))
  ∧ (optimizer_known optimizer && loss_known loss_name = false →
     run = (Raise ValueError, w)).
Proof.
  intros Hm loss_name optimizer run. unfold run, train. cbv zeta.
  fold loss_name optimizer. unfold fit. eff_unfold. rewrite Hm.
  split; intros ->; [|done].
  simpl. rewrite lookup_insert_eq. simpl.
  set (w1 := with_models _ w).
  unfold range. rewrite Nat2Z.id.
  destruct (foldlM _ _ _ w1) as [r w'] eqn:Hrun.
  eapply (epochs_counted m _ Y b_size n_epochs 0 inf w1) in Hrun
    as (steps & mdl' & Hout & Hle & Hr & Hm' & Hl' & Hc');
    [|unfold w1; simpl; apply lookup_insert_eq].
  simpl in Hl', Hc'.
  exists steps, mdl'.
  assert (out (match r with
               | Ok _ => (Ok (), w')
               | Raise e => (Raise e, w')
               end).2 = out w ++ epoch_events 0 steps) as Hout'
    by (by destruct r).
  split_and!; [done|done| |by destruct r|done|done].
  destruct r; [done|]. simpl. done.
Qed.

End keras.

Import Toy Chars.

(** A toy session with a model, a weights file, three windows over a
    three-letter alphabet. *)
Definition toy_model : model := Model [] 0 None.

Definition toy_generation_world : world :=
  with_files <["w.hdf5" := Hdf5 1]>
    (with_models <[0 := toy_model]> (toy_world "" 0)).

Definition toy_windows : list (list nat) := [[0; 1]; [1; 2]; [2; 0]].

Definition toy_alphabet : gmap nat ascii :=
  ix_to_char ["a"; "b"; "c"]%char.

Definition toy_generate_run : result () * world :=
  Eval vm_compute in
    generate_text 0 toy_windows "w.hdf5" toy_alphabet 3 toy_generation_world.

Lemma generate_text_output_witness :
  generate_text 0 toy_windows "w.hdf5" toy_alphabet 3 toy_generation_world
    = (Ok (), toy_generate_run.2)
  ∧ ∃ start pattern seed preds text,
      start = rng toy_generation_world (rng_pos toy_generation_world)
              `mod` (length toy_windows - 1)
      ∧ start + 1 < length toy_windows
      ∧ toy_windows !! start = Some pattern
      ∧ mapM (getitem toy_alphabet) pattern = Ok seed
      ∧ length preds = 250 ∧ Forall is_prediction preds
      ∧ length text = 250
      ∧ out toy_generate_run.2
        = out toy_generation_world
          ++ [Loaded "w.hdf5"; Print "Seed:"; Print (quoted (join seed))]
          ++ preds
          ++ [Print "Predictions"; Print (quoted (join text))].
Proof.
  assert (generate_text 0 toy_windows "w.hdf5" toy_alphabet 3
            toy_generation_world = (Ok (), toy_generate_run.2)) as Hrun
    by reflexivity.
  split; [exact Hrun|].
  exact (generate_text_output 0 toy_windows "w.hdf5" toy_alphabet 3
           toy_generation_world toy_generate_run.2 Hrun).
Defined.

Lemma generate_text_needs_two_windows_witness :
  ∃ w',
    generate_text 0 [[0; 1]] "w.hdf5" toy_alphabet 3 toy_generation_world
      = (Raise ValueError, w')
    ∧ out w' = out toy_generation_world ++ [Loaded "w.hdf5"]
    ∧ rng_pos w' = rng_pos toy_generation_world.
Proof.
  apply (generate_text_needs_two_windows 0 [[0; 1]] "w.hdf5" toy_alphabet 3
           toy_generation_world toy_model 1).
  - reflexivity.
  - reflexivity.
  - simpl. lia.
Defined.

Lemma generate_text_ignores_model_state_witness :
  generate_text 0 toy_windows "w.hdf5" toy_alphabet 3
    (with_models <[0 := Model [] 7 None]> toy_generation_world)
  = generate_text 0 toy_windows "w.hdf5" toy_alphabet 3 toy_generation_world.
Proof.
  apply (generate_text_ignores_model_state 0 toy_windows "w.hdf5"
           toy_alphabet 3 toy_generation_world toy_model 1 7 None).
  - reflexivity.
  - reflexivity.
Defined.

Lemma generate_text_returns_witness :
  ∃ w',
    generate_text 0 toy_windows "w.hdf5" (ix_to_char ["a"; "b"; "c"]%char) 3
      toy_generation_world
    = (Ok (), w').
Proof.
  apply (generate_text_returns 0 toy_windows "w.hdf5" ["a"; "b"; "c"]%char 3
           2 toy_generation_world toy_model 1).
  - reflexivity.
  - reflexivity.
  - simpl. lia.
  - repeat constructor.
  - intros pattern _ _. eexists. split; [reflexivity|].
    apply (Nat.mod_upper_bound
             (foldr Nat.add 0 ((λ n, n + 1) <$> concat [pattern])) 3).
    lia.
Defined.

(** Two epochs on the toy libraries: the first improves on the best
    loss and is saved, the second does not. *)
Lemma train_epochs_witness :
  let run := train 0 [[1; 2]] [[0; 1]] 2 512 4 ∅ toy_training_world in
  (∃ steps mdl',
     out run.2 = out toy_training_world ++ epoch_events 0 steps
     ∧ length steps ≤ 2
     ∧ (run.1 = Ok () → length steps = 2)
     ∧ models run.2 !! 0 = Some mdl'
     ∧ layers mdl' = []
     ∧ compiled mdl' = Some (KStr "categorical_crossentropy", KStr "adam"))
  ∧ out run.2
    = [EpochEnd 0 5; Saved "Weights/weights-improvement-01-5.0000.hdf5";
       EpochEnd 1 7].
Proof.
  split; [|reflexivity].
  exact (proj1 (train_epochs 0 [[1; 2]] [[0; 1]] 2 512 4 ∅
                  toy_training_world toy_model eq_refl) eq_refl).
Defined.

End KerasExtra.

(** ** The notebook as a whole: what its cells leave alone *)

Module NotebookExtra.
Import Py Corpus Chars Layers Libs World Keras Sklearn Notebook Functional.
Import PyFacts SamplingSpec CheckpointSpec FailureSpec IsolationSpec.

(** The variables that some cell of the notebook assigns. *)
Definition assigned (x : string) : bool :=
  private_var Topic x || private_var Classification x
  || private_var Generation x.

Section frame.
Context `{SpacyLib, GensimLib, SklearnLib, KerasLib}.

(** From [w] to [w'], only assigned variables and weight files may have
    changed. *)
Record frame (w w' : world) : Prop := Frame {
  frame_globals :
    ∀ x, assigned x = false → globals w' !! x = globals w !! x;
  frame_files :
    ∀ path, is_hdf5 path = false → files w' !! path = files w !! path;
  frame_writable : ∀ path, writable w' path = writable w path
}.

#[local] Instance frame_preorder : PreOrder frame.
Proof.
  split.
  - intros w. by constructor.
  - intros w1 w2 w3 [Hg Hf Hw] [Hg' Hf' Hw']. constructor.
    + intros x Hx. by rewrite Hg', Hg.
    + intros path Hp. by rewrite Hf', Hf.
    + intros path. by rewrite Hw', Hw.
Qed.

Lemma agree_frame b w w' : agree b w w' → frame w w'.
Proof.
  intros [Hg Hf Hw _ _ _ _ _ _]. constructor.
  - intros x Hx. symmetry. apply Hg. unfold assigned in Hx.
    apply orb_false_elim in Hx as [Hx HG].
    apply orb_false_elim in Hx as [HT HC].
    by destruct b.
  - intros path Hp. symmetry. apply Hf. by destruct b.
  - intros path. symmetry. apply Hw.
Qed.

Lemma frame_run_cells (cs : list (branch * cell)) :
  Forall (λ tc, ∀ w, frame w (run_cell tc.2 w).2) cs →
  ∀ w, frame w (run_cells cs.*2 w).2.
Proof.
  induction 1 as [|tc cs Hc _ IH]; intros w; [done|].
  simpl. etrans; [apply Hc|apply IH].
Qed.

Lemma setup_cells_frame :
  Forall (λ tc : branch * cell,
            tc.1 = Setup → ∀ w, frame w (run_cell tc.2 w).2) notebook.
Proof.
  unfold notebook.
  repeat (apply Forall_cons; split; [|]); try (by apply Forall_nil);
    simpl; intros E w; try discriminate E; by constructor.
Qed.

Lemma notebook_cells_frame :
  Forall (λ tc : branch * cell, ∀ w, frame w (run_cell tc.2 w).2) notebook.
Proof.
  pose proof setup_cells_frame as HS.
  pose proof (notebook_harmless Topic ltac:(done)) as HT.
  pose proof (notebook_harmless Classification ltac:(done)) as HC.
  pose proof (notebook_harmless Generation ltac:(done)) as HG.
  rewrite Forall_forall in HS, HT, HC, HG. apply Forall_forall.
  intros [tag c] Hin w.
  specialize (HS _ Hin). specialize (HT _ Hin).
  specialize (HC _ Hin). specialize (HG _ Hin).
  unfold harmless in HT, HC, HG. simpl in *.
  destruct tag.
  - by apply HS.
  - apply (agree_frame Topic), run_cell_confined.
    by destruct (decide (Topic = Topic)).
  - apply (agree_frame Classification), run_cell_confined.
    by destruct (decide (Classification = Classification)).
  - apply (agree_frame Generation), run_cell_confined.
    by destruct (decide (Generation = Generation)).
Qed.

Lemma run_notebook_frame w : frame w (run_notebook w).2.
Proof. apply frame_run_cells, notebook_cells_frame. Qed.

(** X16: [create_functional_model] cannot be called.  The imports of
    cells 2, 3, 39 and 48 do not bring in [Input] and no cell assigns
    it: in a session where that name was unbound before the notebook
    ran, it still is afterwards, and a call of the function, with any
    arguments, raises [NameError] on it without any effect. *)
Theorem create_functional_model_fails (w : world)
    (n_layers : Z) (input_shape : Z * Z * Z) (hidden_dim : Q) (n_out : Z)
    (kwargs : gmap string kwval) :
  globals w !! "Input" = None →
  let w' := (run_notebook w).2 in
  globals w' !! "Input" = None
  ∧ create_functional_model n_layers input_shape hidden_dim n_out kwargs w'
    = (Raise (NameError "Input"), w').
Proof.
  intros Hw w'.
  assert (globals w' !! "Input" = None) as Hw'.
  { unfold w'. rewrite (frame_globals _ _ (run_notebook_frame w)); done. }
  split; [done|].
  unfold create_functional_model. cbv zeta. eff_unfold. by rewrite Hw'.
Qed.

End frame.

Import Toy.

Lemma create_functional_model_fails_witness :
  globals (run_notebook (toy_world "ab" 0)).2 !! "Input" = None
  ∧ create_functional_model 1 (1024, 100, 1)%Z (256 # 1) 40 ∅
      (run_notebook (toy_world "ab" 0)).2
    = (Raise (NameError "Input"), (run_notebook (toy_world "ab" 0)).2).
Proof.
  apply (create_functional_model_fails (toy_world "ab" 0)).
  reflexivity.
Defined.

End NotebookExtra.

(** ** Cells 26 to 33: the documents and the fixed indices *)

Module TopicExtra.
Import Py Corpus Libs World Notebook PyFacts SamplingSpec CorpusExtra.

Section topic.
Context `{SpacyLib, GensimLib, SklearnLib, KerasLib}.

(** The outcome of a cell and the variables after it, when it is run on
    its own. *)
Lemma run_cell_outcome (c : cell) w :
  (run_cell c w).1.1 = (c (with_out (λ _, []) w)).1
  ∧ globals (run_cell c w).2 = globals (c (with_out (λ _, []) w)).2.
Proof. done. Qed.

Lemma cell_26_texts w d :
  globals w !! "doc" = Some (VDoc d) →
  (run_cell cell_26 w).1.1 = Ok ()
  ∧ globals (run_cell cell_26 w).2 !! "texts"
    = Some (VTexts (build_texts (tokens d))).
Proof.
  intros Hd. unfold run_cell, cell_26. cbv zeta. eff_unfold. simpl.
  rewrite !lookup_insert_ne by done. rewrite Hd. simpl.
  unfold setvar_opt, setvar. eff_unfold.
  destruct (last (tokens d)); simpl; by rewrite lookup_insert_eq.
Qed.

Lemma cell_27_texts w v :
  globals w !! "texts" = Some v →
  (run_cell cell_27 w).1.1 = Ok ()
  ∧ globals (run_cell cell_27 w).2 = globals w.
Proof.
  intros Hv. unfold run_cell, cell_27. cbv zeta. eff_unfold. simpl.
  by rewrite Hv.
Qed.

Lemma cell_29_texts w T :
  globals w !! "texts" = Some (VTexts T) →
  (run_cell cell_29 w).1.1 = Ok ()
  ∧ globals (run_cell cell_29 w).2 !! "texts" = Some (VTexts T)
  ∧ globals (run_cell cell_29 w).2 !! "bigram" = Some (VPhrases (Phrases T)).
Proof.
  intros HT. unfold run_cell, cell_29. cbv zeta. eff_unfold. simpl.
  rewrite HT. simpl. rewrite lookup_insert_ne by done.
  by rewrite lookup_insert_eq.
Qed.

Lemma cell_30_texts w T b :
  globals w !! "texts" = Some (VTexts T) →
  globals w !! "bigram" = Some (VPhrases b) →
  (run_cell cell_30 w).1.1 = Ok ()
  ∧ globals (run_cell cell_30 w).2 !! "texts"
    = Some (VTexts (phrases_apply b <$> T)).
Proof.
  intros HT Hb. unfold run_cell, cell_30. cbv zeta. eff_unfold. simpl.
  rewrite HT. simpl. destruct T as [|line T]; simpl.
  - by rewrite lookup_insert_eq.
  - rewrite Hb. simpl. by rewrite lookup_insert_eq.
Qed.

Lemma cell_31_texts w T :
  globals w !! "texts" = Some (VTexts T) →
  (run_cell cell_31 w).1.1
    = (if decide (10 < length T) then Ok () else Raise IndexError)
  ∧ globals (run_cell cell_31 w).2 = globals w.
Proof.
  intros HT. unfold run_cell, cell_31. cbv zeta. eff_unfold. simpl.
  rewrite HT. simpl. unfold index.
  destruct (T !! 10) as [line|] eqn:Hl; simpl.
  - apply lookup_lt_Some in Hl. by rewrite decide_True.
  - apply lookup_ge_None in Hl. by rewrite decide_False by lia.
Qed.

Lemma cell_32_corpus w T :
  globals w !! "texts" = Some (VTexts T) →
  (run_cell cell_32 w).1.1 = Ok ()
  ∧ globals (run_cell cell_32 w).2 !! "texts" = Some (VTexts T)
  ∧ globals (run_cell cell_32 w).2 !! "corpus"
    = Some (VCorpus (doc2bow (Dictionary T) <$> T)).
Proof.
  intros HT. unfold run_cell, cell_32. cbv zeta. eff_unfold. simpl.
  rewrite HT. simpl. rewrite lookup_insert_ne by done. rewrite HT. simpl.
  destruct T as [|line T]; simpl.
  - rewrite lookup_insert_ne by done. rewrite lookup_insert_ne by done.
    by rewrite lookup_insert_eq.
  - rewrite lookup_insert_eq. simpl.
    rewrite lookup_insert_ne by done. rewrite lookup_insert_ne by done.
    by rewrite lookup_insert_eq.
Qed.

Lemma cell_33_corpus w C :
  globals w !! "corpus" = Some (VCorpus C) →
  (run_cell cell_33 w).1.1
    = (if decide (100 < length C) then Ok () else Raise IndexError)
  ∧ globals (run_cell cell_33 w).2 = globals w.
Proof.
  intros HC. unfold run_cell, cell_33. cbv zeta. eff_unfold. simpl.
  rewrite HC. simpl. unfold index.
  destruct (C !! 100) as [b|] eqn:Hl; simpl.
  - apply lookup_lt_Some in Hl. by rewrite decide_True.
  - apply lookup_ge_None in Hl. by rewrite decide_False by lia.
Qed.

(** X17: the fixed indices of cells 31 and 33.  Run on a document, the
    cells from 26 to 33 build one entry of [texts] and one of [corpus]
    per newline token of the document; cells 26 to 30 and cell 32 end
    normally, [texts[10]] of cell 31 raises [IndexError] unless the
    document has more than 10 newline tokens and [corpus[100]] of cell
    33 raises it unless the document has more than 100. *)
Theorem topic_cells_indexing (w : world) (d : doc_) :
  globals w !! "doc" = Some (VDoc d) →
  let n := length (filter (λ t, text t = newline) (tokens d)) in
  let run :=
    run_cells
      [cell_26; cell_27; cell_29; cell_30; cell_31; cell_32; cell_33] w in
  run.1.*1
  = [Ok (); Ok (); Ok (); Ok ();
     if decide (10 < n) then Ok () else Raise IndexError;
     Ok ();
     if decide (100 < n) then Ok () else Raise IndexError]
  ∧ ∃ T C,
      globals run.2 !! "texts" = Some (VTexts T) ∧ length T = n
      ∧ globals run.2 !! "corpus" = Some (VCorpus C) ∧ length C = n.
Proof.
  intros Hd n run. unfold run.
  rewrite !run_cells_cons, run_cells_nil. cbn [fst snd].
  rewrite !fmap_cons, fmap_nil.
  destruct (cell_26_texts w d Hd) as [R26 T26].
  set (w26 := (run_cell cell_26 w).2) in *.
  destruct (cell_27_texts w26 _ T26) as [R27 G27].
  set (w27 := (run_cell cell_27 w26).2) in *.
  rewrite <- G27 in T26.
  destruct (cell_29_texts w27 _ T26) as (R29 & T29 & B29).
  set (w29 := (run_cell cell_29 w27).2) in *.
  destruct (cell_30_texts w29 _ _ T29 B29) as [R30 T30].
  set (w30 := (run_cell cell_30 w29).2) in *.
  destruct (cell_31_texts w30 _ T30) as [R31 G31].
  set (w31 := (run_cell cell_31 w30).2) in *.
  rewrite <- G31 in T30.
  destruct (cell_32_corpus w31 _ T30) as (R32 & T32 & C32).
  set (w32 := (run_cell cell_32 w31).2) in *.
  destruct (cell_33_corpus w32 _ C32) as [R33 G33].
  set (w33 := (run_cell cell_33 w32).2) in *.
  rewrite length_fmap, build_texts_length in R31.
  rewrite !length_fmap, build_texts_length in R33.
  fold n in R31, R33.
  split.
  - by rewrite R26, R27, R29, R30, R31, R32, R33.
  - eexists _, _. rewrite G33. split_and!; [exact T32| |exact C32|].
    + by rewrite length_fmap, build_texts_length.
    + by rewrite !length_fmap, build_texts_length.
Qed.

End topic.

Import Toy.

(** A session whose document has two lines. *)
Definition toy_doc : list token :=
  [CorpusSpec.tok "a"; CorpusSpec.tok "b"; CorpusSpec.tok newline;
   CorpusSpec.tok "c"; CorpusSpec.tok newline; CorpusSpec.tok "d"].

Definition toy_doc_world : world :=
  with_globals <["doc" := VDoc toy_doc]> (toy_world "" 0).

Lemma topic_cells_indexing_witness :
  let run :=
    run_cells
      [cell_26; cell_27; cell_29; cell_30; cell_31; cell_32; cell_33]
      toy_doc_world in
  run.1.*1
  = [Ok (); Ok (); Ok (); Ok (); Raise IndexError; Ok (); Raise IndexError]
  ∧ ∃ T C,
      globals run.2 !! "texts" = Some (VTexts T) ∧ length T = 2
      ∧ globals run.2 !! "corpus" = Some (VCorpus C) ∧ length C = 2.
Proof.
  exact (topic_cells_indexing toy_doc_world toy_doc eq_refl).
Defined.

End TopicExtra.

(** ** Cells 56 to 58: from the stream to the arrays *)

Module GenerationExtra.
Import Py Chars Layers Libs World Keras Notebook PyFacts PyExtra SamplingSpec.
Import CharsSpec CharsExtra TopicExtra.

Lemma length_chars_of_str s : length (chars_of_str s) = String.length s.
Proof. induction s as [|c s IH]; simpl; [done|by rewrite IH]. Qed.

Ltac lookups :=
  repeat first [ rewrite lookup_insert_eq
               | rewrite lookup_insert_ne by done ].

Section generation.
Context `{SpacyLib, GensimLib, SklearnLib, KerasLib}.

(** Cell 56 in a session where [data] and [SEQ_LENGTH] are bound, and
    [char_to_int] too when the loop body runs. *)
Lemma cell_56_run w s len c2i :
  globals w !! "data" = Some (VStr s) →
  globals w !! "SEQ_LENGTH" = Some (VInt (Z.of_nat len)) →
  (len < String.length s ∧ globals w !! "char_to_int" = Some (VCharToInt c2i))
  ∨ (String.length s ≤ len ∧ c2i = ∅) →
  let ex := build_examples len s c2i no_vars in
  let w' := (run_cell cell_56 w).2 in
  (run_cell cell_56 w).1.1 = ex.1
  ∧ globals w' !! "list_X" = Some (VSeqs (list_X ex.2))
  ∧ globals w' !! "list_Y" = Some (VIds (list_Y ex.2))
  ∧ globals w' !! "SEQ_LENGTH" = Some (VInt (Z.of_nat len))
  ∧ globals w' !! "Y" = globals w !! "Y"
  ∧ (ex.1 = Ok () →
     globals w' !! "n_patterns"
     = Some (VInt (Z.of_nat (length (list_X ex.2))))).
Proof.
  intros Hdata Hlen Hc2i. cbv zeta. unfold run_cell, cell_56. cbv zeta.
  eff_unfold. simpl.
  lookups. rewrite Hdata. simpl. lookups. rewrite Hlen. simpl.
  rewrite decide_True by lia. rewrite Nat2Z.id.
  destruct Hc2i as [[Hlt Hc]|[Hge ->]].
  - rewrite decide_True by done. simpl. lookups. rewrite Hc. simpl.
    destruct (build_examples len s c2i no_vars)
      as [r [lX lY [i|] [si|] [so|]]];
      destruct r as [[]|e]; repeat (progress (simpl; lookups));
      by split_and!.
  - rewrite decide_False by lia. simpl.
    destruct (build_examples len s ∅ no_vars)
      as [r [lX lY [i|] [si|] [so|]]];
      destruct r as [[]|e]; repeat (progress (simpl; lookups));
      by split_and!.
Qed.

(** Cell 57 after a cell 56 that ended normally. *)
Lemma cell_57_run w lX lY len :
  globals w !! "list_X" = Some (VSeqs lX) →
  globals w !! "list_Y" = Some (VIds lY) →
  globals w !! "n_patterns" = Some (VInt (Z.of_nat (length lX))) →
  globals w !! "SEQ_LENGTH" = Some (VInt (Z.of_nat len)) →
  Forall (λ r, length r = len) lX →
  let w' := (run_cell cell_57 w).2 in
  (run_cell cell_57 w).1.1 = (to_categorical lY ≫= λ _, Ok ())
  ∧ globals w' !! "n_patterns" = Some (VInt (Z.of_nat (length lX)))
  ∧ globals w' !! "X" = Some (VArray [length lX; len; 1] lX)
  ∧ globals w' !! "Y"
    = match to_categorical lY with
      | Ok Y => Some (VArray Y.1 Y.2)
      | Raise _ => globals w !! "Y"
      end.
Proof.
  intros HX HY Hn Hlen Hrows. cbv zeta. unfold run_cell, cell_57. cbv zeta.
  eff_unfold. simpl.
  rewrite HX. simpl. rewrite Hn. simpl.
  rewrite decide_True by lia. rewrite Hlen. simpl.
  rewrite decide_True by lia. rewrite !Nat2Z.id.
  unfold reshape. rewrite decide_True by done. simpl.
  lookups. rewrite HY. simpl.
  destruct (to_categorical lY) as [Y|e]; repeat (progress (simpl; lookups));
    by split_and!.
Qed.

(** X18: a stream of at most [SEQ_LENGTH] characters stops the
    notebook in cell 57.  Cell 56 ends normally with no example, without
    reading [char_to_int], and sets [n_patterns] to 0; cell 57 binds [X]
    to an empty array of shape [(0, SEQ_LENGTH, 1)] and then raises
    [ValueError] in [to_categorical], so that [Y] keeps the value it
    had, if any. *)
Theorem short_stream_stops_cell_57 (w : world) (s : string) :
  globals w !! "data" = Some (VStr s) →
  globals w !! "SEQ_LENGTH" = Some (VInt (Z.of_nat SEQ_LENGTH)) →
  String.length s ≤ SEQ_LENGTH →
  let run := run_cells [cell_56; cell_57] w in
  run.1.*1 = [Ok (); Raise ValueError]
  ∧ globals run.2 !! "n_patterns" = Some (VInt 0)
  ∧ globals run.2 !! "X" = Some (VArray [0; SEQ_LENGTH; 1] [])
  ∧ globals run.2 !! "Y" = globals w !! "Y".
Proof.
  intros Hdata Hlen Hs run. unfold run.
  rewrite !run_cells_cons, run_cells_nil. cbn [fst snd].
  rewrite !fmap_cons, fmap_nil.
  destruct (cell_56_run w s SEQ_LENGTH ∅ Hdata Hlen)
    as (R56 & X56 & Y56 & L56 & YY56 & N56); [by right|].
  set (w56 := (run_cell cell_56 w).2) in *.
  assert (build_examples SEQ_LENGTH s ∅ no_vars = (Ok (), no_vars)) as Hex.
  { unfold build_examples, range. rewrite length_chars_of_str.
    by replace (Z.to_nat (Z.of_nat (String.length s) - Z.of_nat SEQ_LENGTH))
      with 0 by lia. }
  rewrite Hex in R56, X56, Y56, N56.
  cbn [fst snd list_X list_Y no_vars length] in R56, X56, Y56, N56.
  specialize (N56 eq_refl).
  destruct (cell_57_run w56 [] [] SEQ_LENGTH X56 Y56 N56 L56)
    as (R57 & N57 & X57 & Y57); [constructor|].
  cbn [to_categorical mbind result_bind length] in R57, N57, X57, Y57.
  rewrite R56, R57. split_and!; [done|done|done|by rewrite Y57].
Qed.

(** X19: from the stream to the arrays.  With the alphabet of cell 55
    and a stream of [L > SEQ_LENGTH] characters, cells 56 and 57 end
    normally: [n_patterns] is [L - SEQ_LENGTH], [X] has the shape
    [(L - SEQ_LENGTH, SEQ_LENGTH, 1)] and [Y] the shape
    [(L - SEQ_LENGTH, k)] for some [k] from 1 to [vocab_size]; [k] is
    the number of output units that cell 58 asks for. *)
Theorem stream_to_arrays (w : world) (s : string) :
  globals w !! "data" = Some (VStr s) →
  globals w !! "SEQ_LENGTH" = Some (VInt (Z.of_nat SEQ_LENGTH)) →
  globals w !! "char_to_int" = Some (VCharToInt (char_to_int (chars s))) →
  SEQ_LENGTH < String.length s →
  let run := run_cells [cell_56; cell_57] w in
  let n := String.length s - SEQ_LENGTH in
  run.1.*1 = [Ok (); Ok ()]
  ∧ globals run.2 !! "n_patterns" = Some (VInt (Z.of_nat n))
  ∧ ∃ xs k rows,
      globals run.2 !! "X" = Some (VArray [n; SEQ_LENGTH; 1] xs)
      ∧ globals run.2 !! "Y" = Some (VArray [n; k] rows)
      ∧ 0 < k ≤ vocab_size (chars s)
      ∧ Forall (λ row, length row = k) rows.
Proof.
  intros Hdata Hlen Hc2i Hs run n. unfold run.
  rewrite !run_cells_cons, run_cells_nil. cbn [fst snd].
  rewrite !fmap_cons, fmap_nil.
  destruct (cell_56_run w s SEQ_LENGTH (char_to_int (chars s)) Hdata Hlen)
    as (R56 & X56 & Y56 & L56 & _ & N56); [by left|].
  set (w56 := (run_cell cell_56 w).2) in *.
  pose proof (examples_shape SEQ_LENGTH s (char_to_int (chars s)) no_vars)
    as (Hrows & _ & Hshape & _).
  pose proof (ids_bounded s no_vars) as (_ & _ & Hcat).
  destruct (build_examples_closed s no_vars) as (ex & Hex & _ & _).
  rewrite Hex in R56, X56, Y56, N56, Hrows, Hshape, Hcat.
  cbn [fst snd] in R56, X56, Y56, N56, Hrows, Hshape, Hcat.
  destruct Hshape as [HnX HnY]. rewrite length_chars_of_str in HnX.
  fold n in HnX. specialize (N56 eq_refl).
  destruct (cell_57_run w56 _ _ SEQ_LENGTH X56 Y56 N56 L56 Hrows)
    as (R57 & N57 & X57 & Y57).
  destruct (to_categorical (list_Y ex)) as [Y|e] eqn:Hto.
  2:{ exfalso. apply (f_equal length) in Hcat. simpl in Hcat. lia. }
  destruct Hcat as (k & HY1 & Hk & Hr).
  cbn [mbind result_bind] in R57. rewrite R56, R57, N57, X57, Y57, HnX.
  split_and!; [done|done|].
  exists (list_X ex), k, Y.2. rewrite HY1, HnY, HnX.
  split_and!; [done|done| |done|done].
  unfold to_categorical in Hto. destruct (list_Y ex); [done|].
  injection Hto as <-. simpl in HY1. injection HY1 as <-. lia.
Qed.

End generation.

Import Toy.

(** Sessions in which cells 48 and 55 ran, on a stream of 5 and of 122
    characters. *)
Definition toy_stream_world (s : string) : world :=
  with_globals
    (λ _, {["data" := VStr s;
            "SEQ_LENGTH" := VInt (Z.of_nat SEQ_LENGTH);
            "char_to_int" := VCharToInt (char_to_int (chars s))]})
    (toy_world "" 0).

Lemma short_stream_stops_cell_57_witness :
  let run := run_cells [cell_56; cell_57] (toy_stream_world "hello") in
  run.1.*1 = [Ok (); Raise ValueError]
  ∧ globals run.2 !! "n_patterns" = Some (VInt 0)
  ∧ globals run.2 !! "X" = Some (VArray [0; SEQ_LENGTH; 1] [])
  ∧ globals run.2 !! "Y" = globals (toy_stream_world "hello") !! "Y".
Proof.
  apply (short_stream_stops_cell_57 (toy_stream_world "hello") "hello").
  - reflexivity.
  - reflexivity.
  - vm_compute. lia.
Defined.

Lemma stream_to_arrays_witness :
  let run := run_cells [cell_56; cell_57] (toy_stream_world sample_stream) in
  run.1.*1 = [Ok (); Ok ()]
  ∧ globals run.2 !! "n_patterns" = Some (VInt 22)
  ∧ ∃ xs k rows,
      globals run.2 !! "X" = Some (VArray [22; SEQ_LENGTH; 1] xs)
      ∧ globals run.2 !! "Y" = Some (VArray [22; k] rows)
      ∧ 0 < k ≤ vocab_size (chars sample_stream)
      ∧ Forall (λ row, length row = k) rows.
Proof.
  apply (stream_to_arrays (toy_stream_world sample_stream) sample_stream).
  - reflexivity.
  - reflexivity.
  - reflexivity.
  - vm_compute. lia.
Defined.

End GenerationExtra.

(** ** Cells 5 and 55: the same text, read twice *)

Module CorpusReadExtra.
Import Py Chars Libs World Notebook PyFacts SamplingSpec FailureSpec.
Import IsolationSpec NotebookExtra TopicExtra GenerationExtra.

Section reads.
Context `{SpacyLib, GensimLib, SklearnLib, KerasLib}.

Lemma run_cells_lookup (cs : list cell) : ∀ k c w,
  cs !! k = Some c →
  (run_cells cs w).1 !! k
    = Some (run_cell c (run_cells (take k cs) w).2).1
  ∧ (run_cells (take (S k) cs) w).2
    = (run_cell c (run_cells (take k cs) w).2).2.
Proof.
  induction cs as [|c0 cs IH]; intros k c w Hk; [done|].
  destruct k as [|k].
  - injection Hk as ->. by rewrite run_cells_cons.
  - change (take (S (S k)) (c0 :: cs)) with (c0 :: take (S k) cs).
    change (take (S k) (c0 :: cs)) with (c0 :: take k cs).
    rewrite !run_cells_cons. cbn [fst snd].
    apply (IH k c (run_cell c0 w).2 Hk).
Qed.

Lemma session_after_frame k w : frame w (session_after k w).
Proof.
  unfold session_after. rewrite <- fmap_take.
  apply frame_run_cells, Forall_take, notebook_cells_frame.
Qed.

Lemma session_after_corpus k w :
  files (session_after k w) !! corpus_path = files w !! corpus_path.
Proof.
  apply (frame_files _ _ (session_after_frame k w)), not_hdf5_corpus.
Qed.

Lemma cell_5_reads w s :
  files w !! corpus_path = Some (Text s) →
  (run_cell cell_5 w).1.1 = Ok ()
  ∧ globals (run_cell cell_5 w).2 !! "text" = Some (VStr s).
Proof.
  intros Hf. unfold run_cell, cell_5. cbv zeta.
  unfold mbind, Eff_bind. rewrite !read_corpus_eq.
  eff_unfold. simpl. fold corpus_path. rewrite Hf. simpl.
  by rewrite lookup_insert_eq.
Qed.

Lemma cell_55_reads w s :
  files w !! corpus_path = Some (Text s) →
  let w' := (run_cell cell_55 w).2 in
  (run_cell cell_55 w).1.1 = Ok ()
  ∧ globals w' !! "data" = Some (VStr s)
  ∧ globals w' !! "chars" = Some (VChars (chars s))
  ∧ globals w' !! "char_to_int" = Some (VCharToInt (char_to_int (chars s)))
  ∧ globals w' !! "ix_to_char" = Some (VIxToChar (ix_to_char (chars s)))
  ∧ globals w' !! "vocab_size"
    = Some (VInt (Z.of_nat (vocab_size (chars s)))).
Proof.
  intros Hf. cbv zeta. unfold run_cell, cell_55. cbv zeta.
  unfold mbind, Eff_bind. rewrite !read_corpus_eq.
  eff_unfold. simpl. fold corpus_path. rewrite Hf.
  repeat (progress (simpl; lookups)). by split_and!.
Qed.

(** X20: both demonstrations work on the same text.  In a run of the
    whole notebook on a machine where the bundled corpus holds the text
    [s], cell 5 and cell 55 both end normally, whatever failed in
    between: cell 5 binds [text] to [s], and cell 55 binds [data] to
    [s] and the alphabet variables to the alphabet of [s]. *)
Theorem corpus_read_twice (w : world) (s : string) :
  files w !! corpus_path = Some (Text s) →
  (run_notebook w).1.*1 !! 2 = Some (Ok ())
  ∧ globals (session_after 3 w) !! "text" = Some (VStr s)
  ∧ (run_notebook w).1.*1 !! 35 = Some (Ok ())
  ∧ globals (session_after 36 w) !! "data" = Some (VStr s)
  ∧ globals (session_after 36 w) !! "chars" = Some (VChars (chars s))
  ∧ globals (session_after 36 w) !! "char_to_int"
    = Some (VCharToInt (char_to_int (chars s)))
  ∧ globals (session_after 36 w) !! "ix_to_char"
    = Some (VIxToChar (ix_to_char (chars s)))
  ∧ globals (session_after 36 w) !! "vocab_size"
    = Some (VInt (Z.of_nat (vocab_size (chars s)))).
Proof.
  intros Hf. unfold run_notebook.
  assert (notebook.*2 !! 2 = Some cell_5) as H5 by reflexivity.
  assert (notebook.*2 !! 35 = Some cell_55) as H55 by reflexivity.
  destruct (run_cells_lookup notebook.*2 2 cell_5 w H5) as [R5 W5].
  destruct (run_cells_lookup notebook.*2 35 cell_55 w H55) as [R55 W55].
  fold (session_after 2 w) in R5, W5. fold (session_after 3 w) in W5.
  fold (session_after 35 w) in R55, W55. fold (session_after 36 w) in W55.
  destruct (cell_5_reads (session_after 2 w) s) as [O5 T5];
    [by rewrite session_after_corpus|].
  destruct (cell_55_reads (session_after 35 w) s) as (O55 & D55);
    [by rewrite session_after_corpus|].
  rewrite !list_lookup_fmap, R5, R55, W5, W55. cbn [fmap option_fmap option_map].
  rewrite O5, O55. destruct D55 as (? & ? & ? & ? & ?).
  split_and!; first [reflexivity | assumption].
Qed.

End reads.

Import Toy.

Lemma corpus_read_twice_witness :
  (run_notebook (toy_world "ab" 0)).1.*1 !! 2 = Some (Ok ())
  ∧ globals (session_after 3 (toy_world "ab" 0)) !! "text"
    = Some (VStr "ab")
  ∧ (run_notebook (toy_world "ab" 0)).1.*1 !! 35 = Some (Ok ())
  ∧ globals (session_after 36 (toy_world "ab" 0)) !! "data"
    = Some (VStr "ab")
  ∧ globals (session_after 36 (toy_world "ab" 0)) !! "chars"
    = Some (VChars (chars "ab"))
  ∧ globals (session_after 36 (toy_world "ab" 0)) !! "char_to_int"
    = Some (VCharToInt (char_to_int (chars "ab")))
  ∧ globals (session_after 36 (toy_world "ab" 0)) !! "ix_to_char"
    = Some (VIxToChar (ix_to_char (chars "ab")))
  ∧ globals (session_after 36 (toy_world "ab" 0)) !! "vocab_size"
    = Some (VInt (Z.of_nat (vocab_size (chars "ab")))).
Proof.
  apply (corpus_read_twice (toy_world "ab" 0) "ab").
  reflexivity.
Defined.

End CorpusReadExtra.
